(** * godoc-mcp: the documentation cache, the module-index client, the
      pkg.go.dev extractor and the tool handlers, embedded from the
      TypeScript sources, with the properties of the design document. *)

From Stdlib Require Import ZArith Lia Ascii DecimalString.
From stdpp Require Import base option list sorting gmap strings.

Local Open Scope Z_scope.
Set Warnings "-register-all".

(** ** JavaScript runtime values *)

(** What [JSON.parse] can return, plus [undefined].  Numbers are kept as
    integers: the code only tests them for truthiness and prints them. *)
Inductive JSValue : Type :=
| JUndefined
| JNull
| JBool (b : bool)
| JNumber (n : Z)
| JString (s : string)
| JArray (items : list JSValue)
| JObject (members : list (string * JSValue)).

(** A thrown [Error]: [name], [message], and the [code] and [details] that
    [GoDocError] adds (src/types/index.ts); [code] is [undefined] on a plain
    [Error], a number on a [DOMException] or an [McpError]. *)
Inductive Exn : Type :=
| mkExn (name message : string) (code : JSValue) (details : option Exn).

Definition exn_name (e : Exn) : string := let (n, _, _, _) := e in n.
Definition exn_message (e : Exn) : string := let (_, m, _, _) := e in m.
Definition exn_code (e : Exn) : JSValue := let (_, _, c, _) := e in c.
Definition exn_details (e : Exn) : option Exn := let (_, _, _, d) := e in d.

(** [new Error(message)] *)
Definition Error (message : string) : Exn := mkExn "Error" message JUndefined None.
Definition TypeError (message : string) : Exn := mkExn "TypeError" message JUndefined None.
Definition SyntaxError (message : string) : Exn := mkExn "SyntaxError" message JUndefined None.
Definition URIError (message : string) : Exn := mkExn "URIError" message JUndefined None.

(** [const e = new Error(message) as GoDocError; e.code = code] *)
Definition GoDocError (message code : string) : Exn :=
  mkExn "Error" message (JString code) None.
(** [... ; e.details = cause] *)
Definition GoDocErrorWith (message code : string) (cause : Exn) : Exn :=
  mkExn "Error" message (JString code) (Some cause).

(** A computation either returns or throws. *)
Inductive Result (A : Type) : Type :=
| Ok (a : A)
| Throw (e : Exn).
Arguments Ok {A} a.
Arguments Throw {A} e.

#[global] Instance Result_ret : MRet Result := fun A a => Ok a.
#[global] Instance Result_bind : MBind Result := fun A B f m =>
  match m with
  | Ok a => f a
  | Throw e => Throw e
  end.
#[global] Instance Result_fmap : FMap Result := fun A B f m =>
  match m with
  | Ok a => Ok (f a)
  | Throw e => Throw e
  end.

(** [try { body } catch (error) { handler(error) }] *)
Definition try_catch {A} (body : Result A) (handler : Exn -> Result A) : Result A :=
  match body with
  | Ok a => Ok a
  | Throw e => handler e
  end.

Definition returns {A} (r : Result A) : Prop := exists a, r = Ok a.

(** ** Strings

    A JavaScript string is a sequence of 16-bit code units.  A [string] here
    holds the UTF-8 bytes of each code unit in turn: one byte below U+0080,
    two below U+0800, three from there on (a character outside the Basic
    Multilingual Plane is its two surrogates, three bytes each).  A literal
    of this file is read that way, so text outside ASCII takes two or three
    [ascii]s a character.  A byte below 128 is always a code unit of its
    own and the bytes of a code unit never match inside or across those of
    others, so concatenation, equality, emptiness, prefix and substring
    tests and splitting at an ASCII character agree with JavaScript's. *)
Module Str.

(** Template-literal rendering of an integer number. *)
Definition of_Z (z : Z) : string := NilZero.string_of_int (Z.to_int z).

(** [s.split(sep)] for a one-character separator: never empty. *)
Fixpoint split (sep : ascii) (s : string) : list string :=
  match s with
  | EmptyString => [EmptyString]
  | String c s' =>
      if decide (c = sep) then EmptyString :: split sep s'
      else match split sep s' with
           | x :: xs => String c x :: xs
           | [] => [String c EmptyString]
           end
  end.

(** [s.includes(needle)] *)
Fixpoint includes (needle s : string) : bool :=
  String.prefix needle s ||
  match s with
  | EmptyString => false
  | String _ s' => includes needle s'
  end.

Definition is_empty (s : string) : bool :=
  match s with EmptyString => true | _ => false end.

(** Truthiness of a string: [!!s]. *)
Definition truthy (s : string) : bool := negb (is_empty s).

(** [a || b] on strings. *)
Definition or (a b : string) : string := if truthy a then a else b.

(** [s.startsWith(prefix)] *)
Definition startsWith (prefix s : string) : bool := String.prefix prefix s.

(** [s] without its first [n] bytes: [s.slice(p.length)] for a prefix [p]
    of [n] bytes. *)
Fixpoint drop (n : nat) (s : string) : string :=
  match n, s with
  | O, _ => s
  | S n', String _ s' => drop n' s'
  | S _, EmptyString => EmptyString
  end.

(** [s.replace(pattern, '')] for a string [pattern]: its first occurrence
    is taken out. *)
Fixpoint remove_first (pattern s : string) : string :=
  if String.prefix pattern s then drop (String.length pattern) s
  else match s with
       | EmptyString => EmptyString
       | String c s' => String c (remove_first pattern s')
       end.

(** [s.length], the number of code units: each has one byte that is not a
    continuation byte, 0x80 to 0xBF. *)
Fixpoint length (s : string) : nat :=
  match s with
  | EmptyString => O
  | String c s' =>
      let n := N_of_ascii c in
      if (0x80 <=? n)%N && (n <? 0xC0)%N then length s' else S (length s')
  end.

(** The bytes of the code unit [u]. *)
Definition utf8 (u : N) : string :=
  if (u <? 0x80)%N then String (ascii_of_N u) EmptyString
  else if (u <? 0x800)%N then
    String (ascii_of_N (0xC0 + u / 0x40))
      (String (ascii_of_N (0x80 + u mod 0x40)) EmptyString)
  else
    String (ascii_of_N (0xE0 + u / 0x1000))
      (String (ascii_of_N (0x80 + (u / 0x40) mod 0x40))
         (String (ascii_of_N (0x80 + u mod 0x40)) EmptyString)).

(** What [String.prototype.trim] removes, the [WhiteSpace] and
    [LineTerminator] code points of ECMAScript: TAB, LF, VT, FF, CR, SP,
    NBSP, the other space separators of Unicode (category Zs), LS, PS and
    ZWNBSP.  Each is one code unit. *)
Definition white_space : list N :=
  [0x0009; 0x000A; 0x000B; 0x000C; 0x000D; 0x0020; 0x00A0; 0x1680;
   0x2000; 0x2001; 0x2002; 0x2003; 0x2004; 0x2005; 0x2006; 0x2007;
   0x2008; 0x2009; 0x200A; 0x2028; 0x2029; 0x202F; 0x205F; 0x3000;
   0xFEFF]%N.

(** [s] without the one of [codes] it starts with, if any. *)
Definition skip (codes : list string) (s : string) : option string :=
  (fun code => drop (String.length code) s) <$> List.find (fun code => String.prefix code s) codes.

(** [s] without the run of [codes] it starts with.  A step takes at least
    one byte off, so the length of [s] is fuel enough. *)
Fixpoint skip_run (codes : list string) (fuel : nat) (s : string) : string :=
  match fuel with
  | O => s
  | S fuel' =>
      match skip codes s with
      | Some s' => skip_run codes fuel' s'
      | None => s
      end
  end.

Definition trimStart (s : string) : string :=
  skip_run (utf8 <$> white_space) (String.length s) s.

(** The same from the other end, on the bytes in reverse. *)
Definition trimEnd (s : string) : string :=
  String.rev
    (skip_run ((fun u => String.rev (utf8 u)) <$> white_space) (String.length s)
       (String.rev s)).

Definition trim (s : string) : string := trimEnd (trimStart s).

Definition LF : ascii := ascii_of_nat 10.

End Str.

(** ** Values: truthiness, property access, conversion to string *)
Module JS.

Definition truthy (v : JSValue) : bool :=
  match v with
  | JUndefined | JNull => false
  | JBool b => b
  | JNumber n => negb (n =? 0)
  | JString s => Str.truthy s
  | JArray _ | JObject _ => true
  end.

(** [a || b] *)
Definition or (a b : JSValue) : JSValue := if truthy a then a else b.

(** [x || d] for an optional number [x] and a number [d] *)
Definition num_or (x : option Z) (d : Z) : Z :=
  match x with
  | Some n => if n =? 0 then d else n
  | None => d
  end.

(** Own member of a parsed object; a repeated key keeps its last value. *)
Fixpoint member (k : string) (members : list (string * JSValue)) : JSValue :=
  match members with
  | [] => JUndefined
  | (k', v) :: rest =>
      match member k rest with
      | JUndefined => if decide (k' = k) then v else JUndefined
      | later => later
      end
  end.

(** [v.k] for a name [k] that no prototype defines ([Path], [version], ...):
    reading a property of [null] or [undefined] throws. *)
Definition get (v : JSValue) (k : string) : Result JSValue :=
  match v with
  | JUndefined | JNull =>
      Throw (TypeError ("Cannot read properties of null or undefined (reading '" +:+ k +:+ "')"))
  | JObject members => Ok (member k members)
  | _ => Ok JUndefined
  end.

(** [a === b] where [b] is a string. *)
Definition strict_eq_string (a : JSValue) (b : string) : bool :=
  match a with
  | JString s => bool_decide (s = b)
  | _ => false
  end.

(** [v.includes(x)] for a string [x]: a string method, an array method,
    and a [TypeError] on every other value. *)
Definition includes (v : JSValue) (x : string) : Result bool :=
  match v with
  | JString s => Ok (Str.includes x s)
  | JArray items => Ok (existsb (fun i => strict_eq_string i x) items)
  | JUndefined | JNull =>
      Throw (TypeError "Cannot read properties of null or undefined (reading 'includes')")
  | _ => Throw (TypeError "includes is not a function")
  end.

Fixpoint join (sep : string) (l : list string) : string :=
  match l with
  | [] => EmptyString
  | [x] => x
  | x :: rest => x +:+ sep +:+ join sep rest
  end.

(** [String(v)], as a template literal renders [v]. *)
Fixpoint toString (v : JSValue) : string :=
  match v with
  | JUndefined => "undefined"
  | JNull => "null"
  | JBool true => "true"
  | JBool false => "false"
  | JNumber n => Str.of_Z n
  | JString s => s
  | JArray items =>
      join "," (map (fun i => match i with
                              | JUndefined | JNull => EmptyString
                              | _ => toString i
                              end) items)
  | JObject _ => "[object Object]"
  end.

End JS.

(** The platform built-ins the sources call and do not define. *)
Class Platform := {
  (* [JSON.parse(text)]: the parsed value, or a thrown [SyntaxError] *)
  JSON_parse : string -> Result JSValue;
  (* [new Date(v).getTime()]: milliseconds since the epoch, [None] for [NaN] *)
  Date_getTime : JSValue -> option Z;
}.

(** [String.prototype.toLowerCase], which follows the Unicode case tables. *)
Class Strings := {
  toLowerCase : string -> string;
}.

(** ** Arrays *)
Module Arr.

(** [Array.prototype.sort(compare)]: a stable sort; [compare x y > 0]
    places [x] after [y], and a [NaN] result counts as [+0].  Written as
    an insertion sort: the stable order is unique whenever [compare] is a
    consistent comparator. *)
Definition after {A} (compare : A -> A -> option Z) (x y : A) : bool :=
  match compare x y with
  | Some d => 0 <? d
  | None => false
  end.

Fixpoint insert {A} (compare : A -> A -> option Z) (x : A) (l : list A) : list A :=
  match l with
  | [] => [x]
  | y :: l' => if after compare x y then y :: insert compare x l' else x :: l
  end.

Fixpoint sort {A} (compare : A -> A -> option Z) (l : list A) : list A :=
  match l with
  | [] => []
  | x :: l' => insert compare x (sort compare l')
  end.

(** [l.filter(p)] for a callback that may throw. *)
Fixpoint filterM {A} (p : A -> Result bool) (l : list A) : Result (list A) :=
  match l with
  | [] => Ok []
  | x :: l' =>
      b ← p x;
      rest ← filterM p l';
      mret (if b : bool then x :: rest else rest)
  end.

(** [for (const x of l) { body }], with the variables the body assigns
    threaded as [s]. *)
Fixpoint forOf {A St} (body : St -> A -> Result St) (l : list A) (s : St) : Result St :=
  match l with
  | [] => Ok s
  | x :: l' => s' ← body s x; forOf body l' s'
  end.

(** [l.find(p)] for a callback that may throw: the callback is not run
    past the first element it accepts. *)
Fixpoint findM {A} (p : A -> Result bool) (l : list A) : Result (option A) :=
  match l with
  | [] => Ok None
  | x :: l' =>
      b ← p x;
      if b : bool then Ok (Some x) else findM p l'
  end.

End Arr.

(** ** src/types/index.ts *)
Module ModuleVersion.
Record t := mk { path : JSValue; version : JSValue; timestamp : JSValue }.
End ModuleVersion.

(** The element type of [PackageVersions.versions]. *)
Module VersionEntry.
Record t := mk { version : JSValue; timestamp : JSValue }.
End VersionEntry.

Module PackageVersions.
Record t := mk { path : string; versions : list VersionEntry.t; latest : JSValue }.
End PackageVersions.

(** The element type of what [ModuleIndexFetcher.searchPackages] returns. *)
Module PackageLatest.
Record t := mk { path : string; latest : JSValue }.
End PackageLatest.

(** ** The [fetch] API *)
Module Http.

Record Response := mkResponse {
  ok : bool;
  status : Z;
  statusText : string;
  (* outcome of [await response.text()] *)
  text : Result string;
}.

(** Outcome of [await fetch(url, { signal })]. *)
Inductive Outcome :=
| Resolves (r : Response)
| Rejects (e : Exn).

(** What the promise rejects with once [controller.abort()] has run. *)
Definition AbortError : Exn :=
  mkExn "AbortError" "This operation was aborted" (JNumber 20) None.

Definition await (o : Outcome) : Result Response :=
  match o with
  | Resolves r => Ok r
  | Rejects e => Throw e
  end.

End Http.

(** ** src/fetcher/module-index.ts *)
Module ModuleIndexFetcher.

Record State := mkState {
  cachedIndex : option (list ModuleVersion.t);
  lastFetchTime : Z;
}.

Definition initial : State := {| cachedIndex := None; lastFetchTime := 0 |}.

(** 1 hour in milliseconds *)
Definition indexCacheTTL : Z := 3600000.

Section WithPlatform.
Context `{Platform}.

(** [parsed.K || parsed.k] *)
Definition field (parsed : JSValue) (K k : string) : Result JSValue :=
  a ← JS.get parsed K;
  if JS.truthy a then mret a else JS.get parsed k.

(** Body of the inner [try]: parse the line and build the row. *)
Definition parse_line (line : string) : Result ModuleVersion.t :=
  parsed ← JSON_parse line;
  p ← field parsed "Path" "path";
  v ← field parsed "Version" "version";
  t ← field parsed "Timestamp" "timestamp";
  mret (ModuleVersion.mk p v t).

(** One iteration of the loop: push the row, or log and move on. *)
Definition push_line (modules : list ModuleVersion.t) (line : string)
  : list ModuleVersion.t :=
  match parse_line line with
  | Ok m => modules ++ [m]
  | Throw _ => modules
  end.

Definition parse_lines (lines : list string) : list ModuleVersion.t :=
  fold_left push_line lines [].

Definition fetchIndex (net : Http.Outcome) : Result (list ModuleVersion.t) :=
  try_catch
    (response ← Http.await net;
     if negb (Http.ok response) then
       Throw (Error ("HTTP " +:+ Str.of_Z (Http.status response) +:+ ": "
                     +:+ Http.statusText response))
     else
       text ← Http.text response;
       mret (parse_lines (Str.split Str.LF (Str.trim text))))
    (fun error =>
       if decide (exn_name error = "AbortError") then
         Throw (Error "Module index fetch timeout")
       else
         Throw (Error ("Failed to fetch module index: " +:+ exn_message error))).

(** [this.cachedIndex && (now - this.lastFetchTime) < this.indexCacheTTL] *)
Definition fresh (now : Z) (st : State) : bool :=
  match cachedIndex st with
  | Some _ => now - lastFetchTime st <? indexCacheTTL
  | None => false
  end.

(** [getIndex] at clock reading [now]; [net] is what the network answers
    if it is asked.  The third component tells whether it was asked. *)
Definition getIndex (now : Z) (net : Http.Outcome) (st : State)
  : Result (list ModuleVersion.t) * State * bool :=
  let refresh :=
    match fetchIndex net with
    | Ok fetched =>
        (Ok fetched, {| cachedIndex := Some fetched; lastFetchTime := now |}, true)
    | Throw e => (Throw e, st, true)
    end in
  match cachedIndex st with
  | Some index =>
      if now - lastFetchTime st <? indexCacheTTL then (Ok index, st, false)
      else refresh
  | None => refresh
  end.

(** [new Date(b.timestamp).getTime() - new Date(a.timestamp).getTime()] *)
Definition newest_first (a b : VersionEntry.t) : option Z :=
  tb ← Date_getTime (VersionEntry.timestamp b);
  ta ← Date_getTime (VersionEntry.timestamp a);
  Some (tb - ta).

(** [v => !v.version.includes('-')] *)
Definition is_stable (v : VersionEntry.t) : Result bool :=
  b ← JS.includes (VersionEntry.version v) "-";
  mret (negb b).

(** The part of [getPackageVersions] after [await this.getIndex()]. *)
Definition packageVersions (index : list ModuleVersion.t) (packagePath : string)
  : Result (option PackageVersions.t) :=
  let versions :=
    Arr.sort newest_first
      (map (fun m => VersionEntry.mk (ModuleVersion.version m) (ModuleVersion.timestamp m))
         (List.filter (fun m => JS.strict_eq_string (ModuleVersion.path m) packagePath)
            index)) in
  match versions with
  | [] => Ok None
  | newest :: _ =>
      stableVersions ← Arr.filterM is_stable versions;
      let latest :=
        match stableVersions with
        | s :: _ => VersionEntry.version s
        | [] => VersionEntry.version newest
        end in
      Ok (Some (PackageVersions.mk packagePath versions latest))
  end.

Definition getPackageVersions (packagePath : string)
    (now : Z) (net : Http.Outcome) (st : State)
  : Result (option PackageVersions.t) * State * bool :=
  let '(index, st', asked) := getIndex now net st in
  (index ≫= (fun index => packageVersions index packagePath), st', asked).

(** [packageVersions?.latest || null] *)
Definition latest_or_null (pv : option PackageVersions.t) : JSValue :=
  match pv with
  | Some pv => JS.or (PackageVersions.latest pv) JNull
  | None => JNull
  end.

Definition getLatestVersion (packagePath : string)
    (now : Z) (net : Http.Outcome) (st : State)
  : Result JSValue * State * bool :=
  let '(pv, st', asked) := getPackageVersions packagePath now net st in
  (latest_or_null <$> pv, st', asked).

End WithPlatform.

Section Search.
Context `{Platform} `{Strings}.

(** The [Map] from package path to rows, in insertion order. *)
Definition PackageMap : Type := list (string * list ModuleVersion.t).

(** [const existing = packageMap.get(path) || []; existing.push(module);
    packageMap.set(path, existing)]: a path that is new goes last, one
    that is held keeps its place. *)
Fixpoint group_push (path : string) (module : ModuleVersion.t) (packageMap : PackageMap)
  : PackageMap :=
  match packageMap with
  | [] => [(path, [module])]
  | (p, existing) :: rest =>
      if decide (p = path) then (p, existing ++ [module]) :: rest
      else (p, existing) :: group_push path module rest
  end.

(** Body of the first loop; [module.path.toLowerCase()] throws on a path
    that is no string. *)
Definition group_step (queryLower : string) (packageMap : PackageMap)
    (module : ModuleVersion.t) : Result PackageMap :=
  match ModuleVersion.path module with
  | JString path =>
      if Str.includes queryLower (toLowerCase path)
      then Ok (group_push path module packageMap)
      else Ok packageMap
  | JUndefined | JNull =>
      Throw (TypeError "Cannot read properties of null or undefined (reading 'toLowerCase')")
  | _ => Throw (TypeError "module.path.toLowerCase is not a function")
  end.

(** [new Date(b.timestamp).getTime() - new Date(a.timestamp).getTime()] on rows *)
Definition newest_row_first (a b : ModuleVersion.t) : option Z :=
  tb ← Date_getTime (ModuleVersion.timestamp b);
  ta ← Date_getTime (ModuleVersion.timestamp a);
  Some (tb - ta).

(** [v => !v.version.includes('-')] on rows *)
Definition is_stable_row (v : ModuleVersion.t) : Result bool :=
  b ← JS.includes (ModuleVersion.version v) "-";
  mret (negb b).

(** Body of the second loop, for one entry of the map. *)
Definition latest_step (results : list PackageLatest.t)
    (entry : string * list ModuleVersion.t) : Result (list PackageLatest.t) :=
  let '(path, versions) := entry in
  let sorted := Arr.sort newest_row_first versions in
  stableVersion ← Arr.findM is_stable_row sorted;
  match stableVersion with
  | Some latest => Ok (results ++ [PackageLatest.mk path (ModuleVersion.version latest)])
  | None =>
      match sorted with
      | latest :: _ => Ok (results ++ [PackageLatest.mk path (ModuleVersion.version latest)])
      | [] => Throw (TypeError "Cannot read properties of undefined (reading 'version')")
      end
  end.

(** The part of [searchPackages] after [await this.getIndex()]. *)
Definition searchIndex (index : list ModuleVersion.t) (query : string)
  : Result (list PackageLatest.t) :=
  let queryLower := toLowerCase query in
  packageMap ← Arr.forOf (group_step queryLower) index [];
  results ← Arr.forOf latest_step packageMap [];
  Ok (take 50 results).

Definition searchPackages (query : string) (now : Z) (net : Http.Outcome) (st : State)
  : Result (list PackageLatest.t) * State * bool :=
  let '(index, st', asked) := getIndex now net st in
  (index ≫= (fun index => searchIndex index query), st', asked).

End Search.

End ModuleIndexFetcher.

(** ** The key-value store under the cache *)

(** Constructor options of the store, as the cache passes them. *)
Module StoreOptions.
Record t := mk { stdTTL : Z; checkperiod : Z; maxKeys : Z; useClones : bool }.
End StoreOptions.

Module StoreStats.
Record t := mk { hits : Z; misses : Z; keys : Z; ksize : Z; vsize : Z }.
Definition zero : t := mk 0 0 0 0 0.
End StoreStats.

(** The methods of the store that [DocumentationCache] calls.  Each takes
    the clock reading and may throw. *)
Class CacheStore (S V : Type) := {
  store_new : StoreOptions.t -> S;
  store_get : string -> Z -> S -> Result (option V) * S;
  store_set : string -> V -> Z -> Z -> S -> Result bool * S;
  store_has : string -> Z -> S -> Result bool * S;
  store_del : string -> S -> Result Z * S;
  store_flushAll : S -> Result unit * S;
  store_keys : S -> Result (list string);
  store_getStats : S -> Result StoreStats.t;
}.

(** node-cache is a dependency of the repository, not part of its sources.
    This is its documented behaviour for string keys with [deleteOnExpire]
    left at its default: an entry lives until its expiry time, and a
    [maxKeys] of [-1] disables the limit on the number of entries. *)
Module NodeCache.

(** [v]: the value; [t]: its expiry time in milliseconds, [0] for none. *)
Record Wrapped (V : Type) := mkWrapped { v : V; t : Z }.
Arguments mkWrapped {V} v t.
Arguments v {V} _.
Arguments t {V} _.

Record Cache (V : Type) := mkCache {
  options : StoreOptions.t;
  data : gmap string (Wrapped V);
  stats : StoreStats.t;
}.
Arguments mkCache {V} options data stats.
Arguments options {V} _.
Arguments data {V} _.
Arguments stats {V} _.

Definition ECACHEFULL : Exn :=
  mkExn "ECACHEFULL" "Cache max keys amount exceeded" JUndefined None.

(** What a [set] does once [maxKeys] entries are held.  node-cache refuses
    the write and throws [ECACHEFULL]; the design document of the cache
    speaks of a store that evicts an entry, in no specified order, and the
    cache listens for an [evicted] event.  Both are covered: [Evict victim]
    drops the entry that [victim] picks among the keys held, and refuses
    when that makes no room. *)
Inductive FullPolicy : Type :=
| Refuse
| Evict (victim : list string -> option string).

Section Ops.
Context {V : Type}.
Variable on_full : FullPolicy.
(** [_getValLength] *)
Variable getValLength : V -> Z.

Definition getKeyLength (key : string) : Z := Z.of_nat (Str.length key).

Definition new (opts : StoreOptions.t) : Cache V :=
  mkCache opts ∅ StoreStats.zero.

(** [del(key)]: the number of entries removed. *)
Definition del (key : string) (c : Cache V) : Z * Cache V :=
  match data c !! key with
  | Some w =>
      let s := stats c in
      (1, mkCache (options c) (delete key (data c))
            (StoreStats.mk (StoreStats.hits s) (StoreStats.misses s)
               (StoreStats.keys s - 1)
               (StoreStats.ksize s - getKeyLength key)
               (StoreStats.vsize s - getValLength (v w))))
  | None => (0, c)
  end.

(** ttl is too old and is not 0 *)
Definition expired (now : Z) (w : Wrapped V) : bool :=
  negb (t w =? 0) && (t w <? now).

(** [_check(key, data)]: [false] when the entry had expired, in which
    case it is deleted. *)
Definition check (key : string) (w : Wrapped V) (now : Z) (c : Cache V)
  : bool * Cache V :=
  if expired now w then (false, snd (del key c)) else (true, c).

Definition bump_hits (c : Cache V) : Cache V :=
  let s := stats c in
  mkCache (options c) (data c)
    (StoreStats.mk (StoreStats.hits s + 1) (StoreStats.misses s)
       (StoreStats.keys s) (StoreStats.ksize s) (StoreStats.vsize s)).

Definition bump_misses (c : Cache V) : Cache V :=
  let s := stats c in
  mkCache (options c) (data c)
    (StoreStats.mk (StoreStats.hits s) (StoreStats.misses s + 1)
       (StoreStats.keys s) (StoreStats.ksize s) (StoreStats.vsize s)).

Definition get (key : string) (now : Z) (c : Cache V) : option V * Cache V :=
  match data c !! key with
  | Some w =>
      let '(live, c') := check key w now c in
      if live then (Some (v w), bump_hits c') else (None, bump_misses c')
  | None => (None, bump_misses c)
  end.

(** [_wrap]: the expiry time of a value stored at [now] for [ttl] seconds. *)
Definition livetime (opts : StoreOptions.t) (ttl now : Z) : Z :=
  if ttl =? 0 then 0 else now + ttl * 1000.

(** [Object.keys(this.data)] *)
Definition keys (c : Cache V) : list string := (map_to_list (data c)).*1.

(** [this.options.maxKeys > -1 && this.stats.keys >= this.options.maxKeys] *)
Definition is_full (c : Cache V) : bool :=
  (-1 <? StoreOptions.maxKeys (options c))
  && (StoreOptions.maxKeys (options c) <=? StoreStats.keys (stats c)).

(** The store with room for one more entry, unless the write is refused. *)
Definition make_room (c : Cache V) : option (Cache V) :=
  if is_full c then
    match on_full with
    | Refuse => None
    | Evict victim =>
        match victim (keys c) with
        | Some key => let c' := snd (del key c) in if is_full c' then None else Some c'
        | None => None
        end
    end
  else Some c.

(** The write itself: wrap the value and count a new key. *)
Definition put (key : string) (value : V) (ttl now : Z) (c : Cache V) : Cache V :=
  let s := stats c in
  let w := mkWrapped value (livetime (options c) ttl now) in
  match data c !! key with
  | Some old =>
      mkCache (options c) (<[key := w]> (data c))
        (StoreStats.mk (StoreStats.hits s) (StoreStats.misses s)
           (StoreStats.keys s) (StoreStats.ksize s)
           (StoreStats.vsize s - getValLength (v old) + getValLength value))
  | None =>
      mkCache (options c) (<[key := w]> (data c))
        (StoreStats.mk (StoreStats.hits s) (StoreStats.misses s)
           (StoreStats.keys s + 1)
           (StoreStats.ksize s + getKeyLength key)
           (StoreStats.vsize s + getValLength value))
  end.

Definition set (key : string) (value : V) (ttl now : Z) (c : Cache V)
  : Result bool * Cache V :=
  match make_room c with
  | Some c' => (Ok true, put key value ttl now c')
  | None => (Throw ECACHEFULL, c)
  end.

Definition has (key : string) (now : Z) (c : Cache V) : bool * Cache V :=
  match data c !! key with
  | Some w => check key w now c
  | None => (false, c)
  end.

Definition flushAll (c : Cache V) : Cache V :=
  mkCache (options c) ∅ StoreStats.zero.

Definition getStats (c : Cache V) : StoreStats.t := stats c.

(** [_checkData], run by the [checkperiod] timer: drop what has expired. *)
Definition checkData (now : Z) (c : Cache V) : Cache V :=
  foldr (fun kw c => snd (check kw.1 kw.2 now c)) c (map_to_list (data c)).

(** The store as [DocumentationCache] sees it. *)
Definition store : CacheStore (Cache V) V := {|
  store_new := new;
  store_get key now c := let '(r, c') := get key now c in (Ok r, c');
  store_set := set;
  store_has key now c := let '(r, c') := has key now c in (Ok r, c');
  store_del key c := let '(n, c') := del key c in (Ok n, c');
  store_flushAll c := (Ok (), flushAll c);
  store_keys c := Ok (keys c);
  store_getStats c := Ok (getStats c);
|}.

End Ops.

End NodeCache.

Module CacheEntry.
Record t (T : Type) := mk { data : T; timestamp : Z; ttl : Z }.
Arguments mk {T} data timestamp ttl.
Arguments data {T} _.
Arguments timestamp {T} _.
Arguments ttl {T} _.
End CacheEntry.

(** ** src/cache/index.ts *)
Module DocumentationCache.

Record Options := mkOptions {
  stdTTL : option Z;
  checkperiod : option Z;
  maxKeys : option Z;
}.

Record t (S : Type) := mkCache { cache : S; defaultTTL : Z }.
Arguments mkCache {S} cache defaultTTL.
Arguments cache {S} _.
Arguments defaultTTL {S} _.

Record Stats := mkStats { keys : Z; hits : Z; misses : Z; ksize : Z; vsize : Z }.

Section Methods.
Context {T S : Type} `{CacheStore S (CacheEntry.t T)}.

Definition constructor (options : option Options) : t S :=
  let defaultTTL := JS.num_or (options ≫= stdTTL) 3600 in
  mkCache
    (store_new
       (StoreOptions.mk defaultTTL
          (JS.num_or (options ≫= checkperiod) 600)
          (JS.num_or (options ≫= maxKeys) 1000)
          false))
    defaultTTL.

Definition get (key : string) (now : Z) (c : t S) : Result (option T) * t S :=
  let '(r, s') := store_get key now (cache c) in
  (try_catch
     (entry ← r;
      match entry with
      | Some entry => mret (Some (CacheEntry.data entry))
      | None => mret None
      end)
     (fun error => mret None),
   mkCache s' (defaultTTL c)).

Definition set (key : string) (value : T) (ttl : option Z) (now : Z) (c : t S)
  : Result bool * t S :=
  let entry := CacheEntry.mk value now (JS.num_or ttl (defaultTTL c)) in
  let '(r, s') := store_set key entry (JS.num_or ttl (defaultTTL c)) now (cache c) in
  (try_catch
     (success ← r; mret success)
     (fun error => mret false),
   mkCache s' (defaultTTL c)).

Definition has (key : string) (now : Z) (c : t S) : Result bool * t S :=
  let '(r, s') := store_has key now (cache c) in
  (r, mkCache s' (defaultTTL c)).

Definition delete (key : string) (c : t S) : Result bool * t S :=
  let '(r, s') := store_del key (cache c) in
  ((fun n => 0 <? n) <$> r, mkCache s' (defaultTTL c)).

Definition clear (c : t S) : Result unit * t S :=
  let '(r, s') := store_flushAll (cache c) in
  (r, mkCache s' (defaultTTL c)).

Definition getStats (c : t S) : Result Stats :=
  ks ← store_keys (cache c);
  st ← store_getStats (cache c);
  mret (mkStats (Z.of_nat (length ks)) (StoreStats.hits st) (StoreStats.misses st)
          (StoreStats.ksize st) (StoreStats.vsize st)).

End Methods.

End DocumentationCache.

(** ** src/types/index.ts, the documentation shapes *)
Module CodeExample.
Record t := mk { name : string; code : string; output : option string }.
End CodeExample.

Module PackageDoc.
Record t := mk {
  name : string;
  importPath : string;
  version : option string;
  synopsis : string;
  overview : option string;
  readme : option string;
  subdirectories : option (list string);
  imports : option (list string);
}.
End PackageDoc.

Module FunctionDoc.
Record t := mk {
  name : string;
  signature : string;
  documentation : string;
  examples : option (list CodeExample.t);
  packagePath : string;
}.
End FunctionDoc.

Module MethodDoc.
Record t := mk {
  name : string;
  signature : string;
  documentation : string;
  receiver : option string;
}.
End MethodDoc.

Module TypeDoc.
Record t := mk {
  name : string;
  definition : string;
  documentation : string;
  methods : option (list MethodDoc.t);
  packagePath : string;
}.
End TypeDoc.

Module SearchResult.
Record t := mk { path : string; name : string; synopsis : string }.
End SearchResult.

(** ** The parsed page, as the extractor queries it *)
Module Dom.

(** One step of an [.each(...)] loop: the element the callback receives,
    or an exception raised while it is being read. *)
Inductive Visit (A : Type) : Type :=
| Elem (a : A)
| Raise (e : Exn).
Arguments Elem {A} a.
Arguments Raise {A} e.

(** [$(selector).each((_, el) => body)], with the variables the callback
    assigns threaded as [s]. *)
Fixpoint each {A St} (body : St -> A -> Result St) (l : list (Visit A)) (s : St)
  : Result St :=
  match l with
  | [] => Ok s
  | Elem a :: l' => s' ← body s a; each body l' s'
  | Raise e :: _ => Throw e
  end.

(** A [.Documentation-exampleDetails] element: the [.text()] of its
    header, its code block and its output block. *)
Record ExampleDetails := mkExampleDetails {
  exampleDetailsHeader : string;
  exampleCode : string;
  exampleOutput : string;
}.

(** A [[data-kind="function"]] element. *)
Record Function := mkFunction {
  (* [.Documentation-functionHeader h4], attribute [id] *)
  header_id : option string;
  (* [.Documentation-declaration pre], text *)
  declaration : string;
  (* first [.Documentation-content], text *)
  content : string;
  (* [.Documentation-exampleDetails] *)
  exampleDetails : list (Visit ExampleDetails);
}.

(** An element matched by one of the search selectors. *)
Record Snippet := mkSnippet {
  (* first [a]: attribute [href] and text *)
  a_href : option string;
  a_text : string;
  (* [.SearchSnippet-header], [h2], [.SearchSnippet-synopsis], first [p],
     [[data-test-id="snippet-synopsis"]]: text *)
  snippet_header : string;
  h2 : string;
  snippet_synopsis : string;
  p : string;
  test_synopsis : string;
}.

(** What [cheerio.load(html)] answers to the queries of the extractor. *)
Record Page := mkPage {
  functions : list (Visit Function);
  select : string -> list (Visit Snippet);
}.

(** A [[data-kind="type"]] element. *)
Record TypeDecl := mkTypeDecl {
  (* [.Documentation-typeHeader h4], attribute [id] *)
  type_header_id : option string;
  (* [.Documentation-declaration pre], text *)
  type_declaration : string;
  (* first [.Documentation-content], text *)
  type_content : string;
}.

(** A [[data-kind="method"]] element. *)
Record Method := mkMethod {
  (* [.Documentation-functionHeader h4], attribute [id] *)
  method_header_id : option string;
  (* [.Documentation-declaration pre], text *)
  method_declaration : string;
  (* first [.Documentation-content], text *)
  method_content : string;
}.

(** A [.Documentation-example] element: the [.text()] of its header, its
    code block and its output block. *)
Record Example := mkExample {
  exampleHeader : string;
  example_code : string;
  example_output : string;
}.

(** What [cheerio.load(html)] answers to the queries of [getPackageDoc],
    [getTypeDoc] and [getPackageExamples]; a query outside a loop either
    answers or raises. *)
Record Document := mkDocument {
  (* [$('meta[name=description]').attr('content')] *)
  meta_description : Result (option string);
  (* [$('.Documentation-overview p').first().text()] *)
  overview_p : Result string;
  (* [$('.Documentation-overview').html()], [None] for [null] *)
  overview_html : Result (option string);
  (* [$('#readme').html()] *)
  readme_html : Result (option string);
  (* [$('.Directories-list a')], each with its [.text()] *)
  directories : list (Visit string);
  (* [$('.Documentation-imports a')], each with its [.text()] *)
  imports : list (Visit string);
  (* [$('.Documentation-version').text()] *)
  version_text : Result string;
  (* [$('[data-kind=type]')] *)
  types : list (Visit TypeDecl);
  (* [$('[data-kind=method]')] *)
  methods : list (Visit Method);
  (* [$('.Documentation-example')] *)
  examples : list (Visit Example);
}.

End Dom.

(** The libraries the extractor calls. *)
Class Web := {
  (* [cheerio.load(html)] *)
  cheerio_load : string -> Dom.Page;
  (* throws a [URIError] on a lone surrogate *)
  encodeURIComponent : string -> Result string;
}.

(** [cheerio.load(html)], for the three methods that read a [Dom.Document]. *)
Class WebDocument := {
  cheerio_load_document : string -> Dom.Document;
}.

(** ** src/fetcher/index.ts *)
Module GoDocFetcher.

Definition baseUrl : string := "https://pkg.go.dev".

Definition fetchHTML (url : string) (net : Http.Outcome) : Result string :=
  try_catch
    (response ← Http.await net;
     if negb (Http.ok response) then
       if Http.status response =? 404 then
         Throw (GoDocError ("Package not found: " +:+ url) "NOT_FOUND")
       else
         Throw (Error ("HTTP " +:+ Str.of_Z (Http.status response) +:+ ": "
                       +:+ Http.statusText response))
     else Http.text response)
    (fun error =>
       if decide (exn_name error = "AbortError") then
         Throw (GoDocError ("Request timeout: " +:+ url) "TIMEOUT")
       else if JS.truthy (exn_code error) then Throw error
       else Throw (GoDocErrorWith ("Network error: " +:+ exn_message error)
                     "NETWORK_ERROR" error)).

(** [version ? `${baseUrl}/${packagePath}@${version}` : `${baseUrl}/${packagePath}`] *)
Definition packageUrl (packagePath : string) (version : JSValue) : string :=
  if JS.truthy version then baseUrl +:+ "/" +:+ packagePath +:+ "@" +:+ JS.toString version
  else baseUrl +:+ "/" +:+ packagePath.

(** [x || undefined] *)
Definition or_undefined (x : string) : option string :=
  if Str.truthy x then Some x else None.

(** [l.length > 0 ? l : undefined] *)
Definition nonempty_or_undefined {A} (l : list A) : option (list A) :=
  match l with
  | [] => None
  | _ => Some l
  end.

(** The three variables the function scan assigns. *)
Record Found := mkFound {
  signature : string;
  documentation : string;
  examples : list CodeExample.t;
}.

Definition scan_example (examples : list CodeExample.t) (ex : Dom.ExampleDetails)
  : Result (list CodeExample.t) :=
  let exampleName := Str.trim (Dom.exampleDetailsHeader ex) in
  let code := Str.trim (Dom.exampleCode ex) in
  let output := Str.trim (Dom.exampleOutput ex) in
  if Str.truthy code then
    mret (examples ++ [CodeExample.mk (Str.or exampleName "Example") code (or_undefined output)])
  else mret examples.

Definition scan_function (functionName : string) (acc : Found) (el : Dom.Function)
  : Result Found :=
  if decide (Dom.header_id el = Some functionName) then
    examples' ← Dom.each scan_example (Dom.exampleDetails el) (examples acc);
    mret (mkFound (Str.trim (Dom.declaration el)) (Str.trim (Dom.content el)) examples')
  else mret acc.

Definition not_found_message (functionName packagePath : string) : string :=
  "Function " +:+ functionName +:+ " not found in " +:+ packagePath.

(** The [try] block of [getFunctionDoc]. *)
Definition extractFunctionDoc (page : Dom.Page) (packagePath functionName : string)
  : Result FunctionDoc.t :=
  found ← Dom.each (scan_function functionName) (Dom.functions page) (mkFound EmptyString EmptyString []);
  if negb (Str.truthy (signature found)) then
    Throw (GoDocError (not_found_message functionName packagePath) "NOT_FOUND")
  else
    mret (FunctionDoc.mk functionName (signature found) (documentation found)
            (nonempty_or_undefined (examples found)) packagePath).

Section WithWeb.
Context `{Web}.

Definition getFunctionDoc (packagePath functionName : string) (version : JSValue)
    (net : Http.Outcome) : Result FunctionDoc.t :=
  html ← fetchHTML (packageUrl packagePath version) net;
  let page := cheerio_load html in
  try_catch
    (extractFunctionDoc page packagePath functionName)
    (fun error =>
       if JS.strict_eq_string (exn_code error) "NOT_FOUND" then Throw error
       else Throw (GoDocErrorWith "Failed to parse function documentation"
                     "PARSE_ERROR" error)).

End WithWeb.

(** The double-quote character inside a selector. *)
Definition dquote : string := String (ascii_of_nat 34) EmptyString.

Definition searchSelectors : list string :=
  [".SearchSnippet";
   "[data-test-id=" +:+ dquote +:+ "snippet-title" +:+ dquote +:+ "]";
   ".SearchResult";
   "article"].

(** [href.replace(/^\//, '')] *)
Definition strip_leading_slash (href : string) : string :=
  match href with
  | String c rest => if decide (c = "/"%char) then rest else href
  | EmptyString => href
  end.

(** [s.split(sep)[0]] *)
Definition first_segment (sep : ascii) (s : string) : string :=
  match Str.split sep s with
  | x :: _ => x
  | [] => EmptyString
  end.

(** [s.split(sep).pop()] *)
Definition last_segment (sep : ascii) (s : string) : string :=
  List.last (Str.split sep s) EmptyString.

Definition snippet_path (el : Dom.Snippet) : string :=
  let href := Str.or (default EmptyString (Dom.a_href el)) EmptyString in
  first_segment "@"%char (strip_leading_slash href).

Definition snippet_name (el : Dom.Snippet) : string :=
  Str.or (Str.trim (Dom.a_text el))
    (Str.or (Str.trim (Dom.snippet_header el))
       (Str.or (Str.trim (Dom.h2 el))
          (Str.or (last_segment "/"%char (snippet_path el)) EmptyString))).

Definition snippet_synopsis (el : Dom.Snippet) : string :=
  Str.or (Str.trim (Dom.snippet_synopsis el))
    (Str.or (Str.trim (Dom.p el))
       (Str.or (Str.trim (Dom.test_synopsis el)) "No description available")).

(** [results.find(r => r.path === path)] *)
Definition has_path (path : string) (results : list SearchResult.t) : bool :=
  existsb (fun r => bool_decide (SearchResult.path r = path)) results.

(** The callback of the search scan, on the variables [results] and [found]. *)
Definition scan_snippet (acc : list SearchResult.t * bool) (el : Dom.Snippet)
  : Result (list SearchResult.t * bool) :=
  let '(results, found) := acc in
  let path := snippet_path el in
  let name := snippet_name el in
  let synopsis := snippet_synopsis el in
  if Str.truthy path && Str.truthy name && negb (has_path path results) then
    mret (results ++ [SearchResult.mk path name synopsis], true)
  else mret (results, found).

(** [for (const selector of searchSelectors) { ...; if (found) break; }] *)
Fixpoint search_loop (page : Dom.Page) (selectors : list string)
    (acc : list SearchResult.t * bool) : Result (list SearchResult.t * bool) :=
  match selectors with
  | [] => Ok acc
  | selector :: rest =>
      Dom.each scan_snippet (Dom.select page selector) acc ≫=
      fun acc' : list SearchResult.t * bool =>
        if snd acc' then Ok acc' else search_loop page rest acc'
  end.

(** The [try] block of [searchPackages]. *)
Definition extractSearchResults (page : Dom.Page) : Result (list SearchResult.t) :=
  acc ← search_loop page searchSelectors ([], false);
  mret (fst acc).

Section SearchWithWeb.
Context `{Web}.

(** [`${this.baseUrl}/search?q=${encodeURIComponent(query)}&limit=${limit}`] *)
Definition searchUrl (query : string) (limit : Z) : Result string :=
  encoded ← encodeURIComponent query;
  mret (baseUrl +:+ "/search?q=" +:+ encoded +:+ "&limit=" +:+ Str.of_Z limit).

Definition searchPackages (query : string) (limit : Z) (net : Http.Outcome)
  : Result (list SearchResult.t) :=
  url ← searchUrl query limit;
  html ← fetchHTML url net;
  let page := cheerio_load html in
  try_catch
    (extractSearchResults page)
    (fun error =>
       Throw (GoDocErrorWith "Failed to search packages" "PARSE_ERROR" error)).

End SearchWithWeb.

(** *** [getPackageDoc] *)

(** [packagePath.split('/').pop() || packagePath] *)
Definition package_name (packagePath : string) : string :=
  Str.or (last_segment "/"%char packagePath) packagePath.

(** Callback of the two link scans:
    [const dir = $(el).text().trim(); if (dir) subdirectories.push(dir)] *)
Definition scan_link (links : list string) (text : string) : Result (list string) :=
  let dir := Str.trim text in
  if Str.truthy dir then mret (links ++ [dir]) else mret links.

(** [$(...).html() || undefined] *)
Definition html_or_undefined (html : option string) : option string :=
  html ≫= or_undefined.

(** The [try] block of [getPackageDoc].  [version] is read into the
    document, so it is taken at its declared type, a string or
    [undefined]. *)
Definition extractPackageDoc (page : Dom.Document) (packagePath : string)
    (version : option string) : Result PackageDoc.t :=
  let name := package_name packagePath in
  content ← Dom.meta_description page;
  synopsis ←
    (if Str.truthy (default EmptyString content) then mret (default EmptyString content)
     else
       p ← Dom.overview_p page;
       mret (Str.or (Str.trim p) "No description available"));
  overview ← Dom.overview_html page;
  readme ← Dom.readme_html page;
  subdirectories ← Dom.each scan_link (Dom.directories page) [];
  imports ← Dom.each scan_link (Dom.imports page) [];
  versionText ← Dom.version_text page;
  let extractedVersion :=
    if Str.truthy (Str.trim versionText) then Some (Str.trim versionText) else version in
  mret (PackageDoc.mk name packagePath extractedVersion synopsis
          (html_or_undefined overview) (html_or_undefined readme)
          (nonempty_or_undefined subdirectories) (nonempty_or_undefined imports)).

(** *** [getTypeDoc] *)

(** The two variables the type scan assigns. *)
Record FoundType := mkFoundType {
  definition : string;
  type_documentation : string;
}.

Definition scan_type (typeName : string) (acc : FoundType) (el : Dom.TypeDecl)
  : Result FoundType :=
  if decide (Dom.type_header_id el = Some typeName) then
    mret (mkFoundType (Str.trim (Dom.type_declaration el)) (Str.trim (Dom.type_content el)))
  else mret acc.

(** [`${typeName}.`] *)
Definition method_prefix (typeName : string) : string := typeName +:+ ".".

Definition scan_method (typeName : string) (methods : list MethodDoc.t) (el : Dom.Method)
  : Result (list MethodDoc.t) :=
  let methodId := Str.or (default EmptyString (Dom.method_header_id el)) EmptyString in
  if Str.truthy methodId && Str.startsWith (method_prefix typeName) methodId then
    let methodName := Str.remove_first (method_prefix typeName) methodId in
    let methodSignature := Str.trim (Dom.method_declaration el) in
    let methodDoc := Str.trim (Dom.method_content el) in
    if Str.truthy methodSignature then
      mret (methods ++ [MethodDoc.mk methodName methodSignature methodDoc (Some typeName)])
    else mret methods
  else mret methods.

Definition type_not_found_message (typeName packagePath : string) : string :=
  "Type " +:+ typeName +:+ " not found in " +:+ packagePath.

(** The [try] block of [getTypeDoc]. *)
Definition extractTypeDoc (page : Dom.Document) (packagePath typeName : string)
  : Result TypeDoc.t :=
  found ← Dom.each (scan_type typeName) (Dom.types page) (mkFoundType EmptyString EmptyString);
  methods ← Dom.each (scan_method typeName) (Dom.methods page) [];
  if negb (Str.truthy (definition found)) then
    Throw (GoDocError (type_not_found_message typeName packagePath) "NOT_FOUND")
  else
    mret (TypeDoc.mk typeName (definition found) (type_documentation found)
            (nonempty_or_undefined methods) packagePath).

(** *** [getPackageExamples] *)

Definition scan_package_example (examples : list CodeExample.t) (el : Dom.Example)
  : Result (list CodeExample.t) :=
  let name := Str.trim (Dom.exampleHeader el) in
  let code := Str.trim (Dom.example_code el) in
  let output := Str.trim (Dom.example_output el) in
  if Str.truthy code then
    mret (examples ++ [CodeExample.mk (Str.or name "Example") code (or_undefined output)])
  else mret examples.

(** The [try] block of [getPackageExamples]. *)
Definition extractPackageExamples (page : Dom.Document) : Result (list CodeExample.t) :=
  Dom.each scan_package_example (Dom.examples page) [].

Section DocumentsWithWeb.
Context `{WebDocument}.

Definition getPackageDoc (packagePath : string) (version : option string)
    (net : Http.Outcome) : Result PackageDoc.t :=
  html ← fetchHTML (packageUrl packagePath (from_option JString JUndefined version)) net;
  let page := cheerio_load_document html in
  try_catch
    (extractPackageDoc page packagePath version)
    (fun error =>
       Throw (GoDocErrorWith "Failed to parse package documentation" "PARSE_ERROR" error)).

Definition getTypeDoc (packagePath typeName : string) (version : JSValue)
    (net : Http.Outcome) : Result TypeDoc.t :=
  html ← fetchHTML (packageUrl packagePath version) net;
  let page := cheerio_load_document html in
  try_catch
    (extractTypeDoc page packagePath typeName)
    (fun error =>
       if JS.strict_eq_string (exn_code error) "NOT_FOUND" then Throw error
       else Throw (GoDocErrorWith "Failed to parse type documentation"
                     "PARSE_ERROR" error)).

Definition getPackageExamples (packagePath : string) (version : JSValue)
    (net : Http.Outcome) : Result (list CodeExample.t) :=
  html ← fetchHTML (packageUrl packagePath version) net;
  let page := cheerio_load_document html in
  try_catch
    (extractPackageExamples page)
    (fun error =>
       Throw (GoDocErrorWith "Failed to get package examples" "PARSE_ERROR" error)).

End DocumentsWithWeb.

End GoDocFetcher.

(** ** src/index.ts *)
Module Server.

(** What the handlers put in the cache and serialise into the response;
    [NullP] is the [null] that [getPackageVersions] may return. *)
Inductive Payload : Type :=
| PackageDocP (doc : PackageDoc.t)
| FunctionDocP (doc : FunctionDoc.t)
| TypeDocP (doc : TypeDoc.t)
| SearchResultsP (results : list SearchResult.t)
| ExamplesP (examples : list CodeExample.t)
| VersionsP (versions : PackageVersions.t)
| NullP.

(** [!!doc] for what [cache.get] returned ([None] is [undefined]). *)
Definition truthy (doc : option Payload) : bool :=
  match doc with
  | None | Some NullP => false
  | Some _ => true
  end.

(** The public methods of [GoDocFetcher], each standing for the outcome of
    awaiting the call. *)
Class Extractor := {
  getPackageDoc : string -> JSValue -> Result PackageDoc.t;
  getFunctionDoc : string -> string -> JSValue -> Result FunctionDoc.t;
  getTypeDoc : string -> string -> JSValue -> Result TypeDoc.t;
  searchPackages : string -> Z -> Result (list SearchResult.t);
  getPackageExamples : string -> JSValue -> Result (list CodeExample.t);
}.

(** The tool call of a request, with its arguments. *)
Inductive ToolCall : Type :=
| get_package_doc (package : string) (version : option string)
| get_function_doc (package functionName : string) (version : option string)
| get_type_doc (package typeName : string) (version : option string)
| search_packages (query : string) (limit : option Z)
| get_package_examples (package : string) (version : option string)
| get_package_versions (package : string)
| unknown_tool (name : string).

(** The calls a handler makes on its collaborators, in order. *)
Inductive Call : Type :=
| CallGetLatestVersion (packagePath : string)
| CallGetPackageVersions (packagePath : string)
| CallCacheGet (key : string)
| CallCacheSet (key : string) (value : Payload) (ttl : option Z)
| CallGetPackageDoc (packagePath : string) (version : JSValue)
| CallGetFunctionDoc (packagePath functionName : string) (version : JSValue)
| CallGetTypeDoc (packagePath typeName : string) (version : JSValue)
| CallSearchPackages (query : string) (limit : Z)
| CallGetPackageExamples (packagePath : string) (version : JSValue).

(** [ErrorCode] of the MCP SDK *)
Definition InvalidRequest : Z := -32600.
Definition MethodNotFound : Z := -32601.
Definition InvalidParams : Z := -32602.
Definition InternalError : Z := -32603.

Definition McpError (code : Z) (message : string) : Exn :=
  mkExn "McpError" message (JNumber code) None.

Definition handleError (error : Exn) : Exn :=
  if JS.strict_eq_string (exn_code error) "NOT_FOUND" then
    McpError InvalidRequest (exn_message error)
  else if JS.strict_eq_string (exn_code error) "TIMEOUT" then
    McpError InternalError "Request timeout"
  else McpError InternalError "An error occurred while fetching documentation".

(** *** Cache keys *)

(** [version ? `${kind}:${packagePath}@${version}` : `${kind}:${packagePath}`] *)
Definition package_cacheKey (kind packagePath : string) (version : JSValue) : string :=
  if JS.truthy version then kind +:+ ":" +:+ packagePath +:+ "@" +:+ JS.toString version
  else kind +:+ ":" +:+ packagePath.

(** [version ? `${kind}:${packagePath}@${version}:${symbol}`
             : `${kind}:${packagePath}:${symbol}`] *)
Definition symbol_cacheKey (kind packagePath : string) (version : JSValue)
    (symbol : string) : string :=
  if JS.truthy version then
    kind +:+ ":" +:+ packagePath +:+ "@" +:+ JS.toString version +:+ ":" +:+ symbol
  else kind +:+ ":" +:+ packagePath +:+ ":" +:+ symbol.

(** [`search:${query}:${limit}`] *)
Definition search_cacheKey (query : string) (limit : Z) : string :=
  "search:" +:+ query +:+ ":" +:+ Str.of_Z limit.

(** [`versions:${packagePath}`] *)
Definition versions_cacheKey (packagePath : string) : string :=
  "versions:" +:+ packagePath.

(** [args.version as string | undefined] *)
Definition version_arg (version : option string) : JSValue :=
  match version with
  | Some v => JString v
  | None => JUndefined
  end.

(** The shared components and the log of calls. *)
Record World (S : Type) := mkWorld {
  cache : DocumentationCache.t S;
  moduleIndex : ModuleIndexFetcher.State;
  calls : list Call;
}.
Arguments mkWorld {S} cache moduleIndex calls.
Arguments cache {S} _.
Arguments moduleIndex {S} _.
Arguments calls {S} _.

(** What one request meets outside the process: the clock at its three
    reads and the answer of the index endpoint, should it be asked. *)
Record Env := mkEnv {
  now_resolve : Z;
  index_net : Http.Outcome;
  now_lookup : Z;
  now_store : Z;
}.

(** A handler step: runs on the world, returns or throws. *)
Definition M (S A : Type) : Type := World S -> Result A * World S.

#[global] Instance M_ret {S} : MRet (M S) := fun A a w => (Ok a, w).
#[global] Instance M_bind {S} : MBind (M S) := fun A B f m w =>
  match m w with
  | (Ok a, w') => f a w'
  | (Throw e, w') => (Throw e, w')
  end.

#[global] Instance M_fmap {S} : FMap (M S) := fun A B f m w =>
  match m w with
  | (Ok a, w') => (Ok (f a), w')
  | (Throw e, w') => (Throw e, w')
  end.

Definition throw {S A} (e : Exn) : M S A := fun w => (Throw e, w).

Definition catch {S A} (body : M S A) (handler : Exn -> M S A) : M S A := fun w =>
  match body w with
  | (Ok a, w') => (Ok a, w')
  | (Throw e, w') => handler e w'
  end.

Section Handlers.
Context `{Platform} `{Extractor} {S : Type} `{CacheStore S (CacheEntry.t Payload)}.
Variable env : Env.

(** [await fetcher.method(...)] *)
Definition await {A} (c : Call) (outcome : Result A) : M S A := fun w =>
  (outcome, mkWorld (cache w) (moduleIndex w) (calls w ++ [c])).

Definition moduleIndex_getLatestVersion (packagePath : string) : M S JSValue := fun w =>
  let '(r, st', _) :=
    ModuleIndexFetcher.getLatestVersion packagePath
      (now_resolve env) (index_net env) (moduleIndex w) in
  (r, mkWorld (cache w) st' (calls w ++ [CallGetLatestVersion packagePath])).

Definition moduleIndex_getPackageVersions (packagePath : string)
  : M S (option PackageVersions.t) := fun w =>
  let '(r, st', _) :=
    ModuleIndexFetcher.getPackageVersions packagePath
      (now_resolve env) (index_net env) (moduleIndex w) in
  (r, mkWorld (cache w) st' (calls w ++ [CallGetPackageVersions packagePath])).

Definition cache_get (key : string) : M S (option Payload) := fun w =>
  let '(r, c') := DocumentationCache.get key (now_lookup env) (cache w) in
  (r, mkWorld c' (moduleIndex w) (calls w ++ [CallCacheGet key])).

Definition cache_set (key : string) (value : Payload) (ttl : option Z)
  : M S bool := fun w =>
  let '(r, c') := DocumentationCache.set key value ttl (now_store env) (cache w) in
  (r, mkWorld c' (moduleIndex w) (calls w ++ [CallCacheSet key value ttl])).

(** [if (version === 'latest') version = (await getLatestVersion(p)) || undefined] *)
Definition resolve (packagePath : string) (version : JSValue) : M S JSValue :=
  if JS.strict_eq_string version "latest" then
    latest ← moduleIndex_getLatestVersion packagePath;
    mret (JS.or latest JUndefined)
  else mret version.

(** [let doc = cache.get(key); if (!doc) { doc = await fetch; cache.set(key, doc, ttl) }] *)
Definition get_or_fetch (cacheKey : string) (ttl : option Z) (fetch : M S Payload)
  : M S Payload :=
  doc ← cache_get cacheKey;
  if truthy doc then mret (default NullP doc)
  else
    doc ← fetch;
    _ ← cache_set cacheKey doc ttl;
    mret doc.

(** [(args.limit as number) || 10] *)
Definition limit_arg (limit : option Z) : Z := JS.num_or limit 10.

(** The [switch] inside the [try]. *)
Definition dispatch (call : ToolCall) : M S Payload :=
  match call with
  | get_package_doc packagePath version =>
      version ← resolve packagePath (version_arg version);
      let cacheKey := package_cacheKey "package" packagePath version in
      get_or_fetch cacheKey None
        (PackageDocP <$> await (CallGetPackageDoc packagePath version)
                           (getPackageDoc packagePath version))
  | get_function_doc packagePath functionName version =>
      version ← resolve packagePath (version_arg version);
      let cacheKey := symbol_cacheKey "function" packagePath version functionName in
      get_or_fetch cacheKey None
        (FunctionDocP <$> await (CallGetFunctionDoc packagePath functionName version)
                            (getFunctionDoc packagePath functionName version))
  | get_type_doc packagePath typeName version =>
      version ← resolve packagePath (version_arg version);
      let cacheKey := symbol_cacheKey "type" packagePath version typeName in
      get_or_fetch cacheKey None
        (TypeDocP <$> await (CallGetTypeDoc packagePath typeName version)
                        (getTypeDoc packagePath typeName version))
  | search_packages query limit =>
      let limit := limit_arg limit in
      let cacheKey := search_cacheKey query limit in
      get_or_fetch cacheKey (Some 300)
        (SearchResultsP <$> await (CallSearchPackages query limit)
                              (searchPackages query limit))
  | get_package_examples packagePath version =>
      version ← resolve packagePath (version_arg version);
      let cacheKey := package_cacheKey "examples" packagePath version in
      get_or_fetch cacheKey None
        (ExamplesP <$> await (CallGetPackageExamples packagePath version)
                         (getPackageExamples packagePath version))
  | get_package_versions packagePath =>
      let cacheKey := versions_cacheKey packagePath in
      versions ← get_or_fetch cacheKey (Some 300)
                   (from_option VersionsP NullP <$>
                      moduleIndex_getPackageVersions packagePath);
      match versions with
      | NullP =>
          throw (McpError InvalidRequest
                   ("No versions found for package: " +:+ packagePath))
      | _ => mret versions
      end
  | unknown_tool name =>
      throw (McpError MethodNotFound ("Unknown tool: " +:+ name))
  end.

(** The [CallToolRequestSchema] handler; [None] is a request without
    [arguments]. *)
Definition callTool (request : option ToolCall) : M S Payload :=
  match request with
  | None => throw (McpError InvalidParams "Missing arguments")
  | Some call => catch (dispatch call) (fun error => throw (handleError error))
  end.

(** The cache key a call uses once its version is resolved. *)
Definition cacheKey_of (call : ToolCall) (version : JSValue) : option string :=
  match call with
  | get_package_doc packagePath _ => Some (package_cacheKey "package" packagePath version)
  | get_function_doc packagePath functionName _ =>
      Some (symbol_cacheKey "function" packagePath version functionName)
  | get_type_doc packagePath typeName _ =>
      Some (symbol_cacheKey "type" packagePath version typeName)
  | search_packages query limit => Some (search_cacheKey query (limit_arg limit))
  | get_package_examples packagePath _ =>
      Some (package_cacheKey "examples" packagePath version)
  | get_package_versions packagePath => Some (versions_cacheKey packagePath)
  | unknown_tool _ => None
  end.

End Handlers.

End Server.

(** ** A platform to run the code on

    The properties below hold for any [Platform].  To evaluate the code on
    the feeds of the test suite, [JSON.parse] and [Date] are provided here
    for the fragment those feeds use: one flat object with string members
    free of escapes (or the literal [null]), and UTC timestamps of the form
    [YYYY-MM-DDTHH:MM:SSZ]. *)
Module Sample.

Inductive Token : Type :=
| TLBrace | TRBrace | TColon | TComma
| TStr (s : string)
| TBad.

Definition json_ws (c : ascii) : bool :=
  let n := nat_of_ascii c in
  (n =? 9)%nat || (n =? 10)%nat || (n =? 13)%nat || (n =? 32)%nat.

(** [cur] holds the reversed characters of the string being read. *)
Fixpoint lex (s : string) (cur : option string) : list Token :=
  match s with
  | EmptyString =>
      match cur with
      | Some _ => [TBad]
      | None => []
      end
  | String c s' =>
      match cur with
      | Some acc =>
          if (nat_of_ascii c =? 34)%nat then TStr (String.rev acc) :: lex s' None
          else if (nat_of_ascii c =? 92)%nat || (nat_of_ascii c <? 32)%nat then [TBad]
          else lex s' (Some (String c acc))
      | None =>
          if json_ws c then lex s' None
          else if (nat_of_ascii c =? 34)%nat then lex s' (Some EmptyString)
          else if decide (c = "{"%char) then TLBrace :: lex s' None
          else if decide (c = "}"%char) then TRBrace :: lex s' None
          else if decide (c = ":"%char) then TColon :: lex s' None
          else if decide (c = ","%char) then TComma :: lex s' None
          else [TBad]
      end
  end.

Fixpoint members (ts : list Token) : option (list (string * JSValue)) :=
  match ts with
  | TStr k :: TColon :: TStr v :: rest =>
      match rest with
      | [TRBrace] => Some [(k, JString v)]
      | TComma :: rest' => ms ← members rest'; Some ((k, JString v) :: ms)
      | _ => None
      end
  | _ => None
  end.

Definition parse_tokens (ts : list Token) : option JSValue :=
  match ts with
  | [TLBrace; TRBrace] => Some (JObject [])
  | TLBrace :: rest => JObject <$> members rest
  | _ => None
  end.

Definition parse (text : string) : Result JSValue :=
  if decide (Str.trimEnd (Str.trimStart text) = "null") then Ok JNull
  else
    match parse_tokens (lex text None) with
    | Some v => Ok v
    | None => Throw (SyntaxError "Unexpected token in JSON")
    end.

Definition digit (c : ascii) : option Z :=
  let n := nat_of_ascii c in
  if ((48 <=? n) && (n <=? 57))%nat then Some (Z.of_nat n - 48) else None.

Definition num2 (a b : ascii) : option Z :=
  x ← digit a; y ← digit b; Some (10 * x + y).

Definition num4 (a b c d : ascii) : option Z :=
  x ← num2 a b; y ← num2 c d; Some (100 * x + y).

Definition leap (y : Z) : bool :=
  ((y mod 4 =? 0) && negb (y mod 100 =? 0)) || (y mod 400 =? 0).

Definition days_in_month (y m : Z) : Z :=
  if m =? 2 then (if leap y then 29 else 28)
  else if (m =? 4) || (m =? 6) || (m =? 9) || (m =? 11) then 30
  else 31.

(** Days from 1970-01-01 to the civil date [y-m-d]. *)
Definition days_from_civil (y m d : Z) : Z :=
  let y' := if m <=? 2 then y - 1 else y in
  let era := y' / 400 in
  let yoe := y' - era * 400 in
  let mp := if 2 <? m then m - 3 else m + 9 in
  let doy := (153 * mp + 2) / 5 + d - 1 in
  let doe := yoe * 365 + yoe / 4 - yoe / 100 + doy in
  era * 146097 + doe - 719468.

Definition parse_iso (s : string) : option Z :=
  match String.list_ascii_of_string s with
  | [y1; y2; y3; y4; s1; m1; m2; s2; d1; d2; sT; h1; h2; s3; i1; i2; s4; c1; c2; sZ] =>
      if bool_decide ([s1; s2; sT; s3; s4; sZ]
                      = ["-"; "-"; "T"; ":"; ":"; "Z"]%char) then
        y ← num4 y1 y2 y3 y4;
        m ← num2 m1 m2;
        d ← num2 d1 d2;
        h ← num2 h1 h2;
        i ← num2 i1 i2;
        c ← num2 c1 c2;
        if (1 <=? m) && (m <=? 12) && (1 <=? d) && (d <=? days_in_month y m)
           && (h <=? 23) && (i <=? 59) && (c <=? 59)
        then Some ((((days_from_civil y m d * 24 + h) * 60 + i) * 60 + c) * 1000)
        else None
      else None
  | _ => None
  end.

Definition getTime (v : JSValue) : option Z :=
  match v with
  | JUndefined => None
  | JNull => Some 0
  | JBool b => Some (if b then 1 else 0)
  | JNumber n => if Z.abs n <=? 8640000000000000 then Some n else None
  | JString s => parse_iso s
  | JArray _ | JObject _ => parse_iso (JS.toString v)
  end.

Definition platform : Platform :=
  {| JSON_parse := parse; Date_getTime := getTime |}.

Definition dq : string := GoDocFetcher.dquote.

(** [{"Path":p,"Version":v,"Timestamp":t}] *)
Definition feed_line (p v t : string) : string :=
  "{" +:+ dq +:+ "Path" +:+ dq +:+ ":" +:+ dq +:+ p +:+ dq +:+ ","
  +:+ dq +:+ "Version" +:+ dq +:+ ":" +:+ dq +:+ v +:+ dq +:+ ","
  +:+ dq +:+ "Timestamp" +:+ dq +:+ ":" +:+ dq +:+ t +:+ dq +:+ "}".

Definition lines (l : list string) : string :=
  JS.join (String Str.LF EmptyString) l.

Definition response (body : string) : Http.Outcome :=
  Http.Resolves (Http.mkResponse true 200 "OK" (Ok body)).

(** A row whose three fields are strings. *)
Definition row (p v t : string) : ModuleVersion.t :=
  ModuleVersion.mk (JString p) (JString v) (JString t).

End Sample.

(** ** Vocabulary of the properties *)
Module Feed.
Section WithPlatform.
Context `{Platform}.

(** The rows one line of the feed contributes. *)
Definition line_rows (line : string) : list ModuleVersion.t :=
  match ModuleIndexFetcher.parse_line line with
  | Ok m => [m]
  | Throw _ => []
  end.

(** The lines of a response body, as [fetchIndex] cuts them. *)
Definition lines_of (body : string) : list string :=
  Str.split Str.LF (Str.trim body).

(** The rows of the index that belong to [packagePath], as version entries. *)
Definition entries_of (index : list ModuleVersion.t) (packagePath : string)
  : list VersionEntry.t :=
  map (fun m => VersionEntry.mk (ModuleVersion.version m) (ModuleVersion.timestamp m))
    (List.filter (fun m => JS.strict_eq_string (ModuleVersion.path m) packagePath) index).

Definition time_of (v : VersionEntry.t) : option Z :=
  Date_getTime (VersionEntry.timestamp v).

(** [b] is not newer than [a], as far as their timestamps tell. *)
Definition not_newer (a b : VersionEntry.t) : Prop :=
  forall ta tb, time_of a = Some ta -> time_of b = Some tb -> tb <= ta.

(** Sorted newest-timestamp-first. *)
Definition newest_first_sorted (l : list VersionEntry.t) : Prop :=
  StronglySorted not_newer l.

(** A version string that contains no hyphen. *)
Definition hyphen_free (v : VersionEntry.t) : Prop :=
  exists s, VersionEntry.version v = JString s /\ Str.includes "-" s = false.

(** [e] is the newest of the entries of [l] that satisfy [P]. *)
Definition newest_such (P : VersionEntry.t -> Prop) (l : list VersionEntry.t)
    (e : VersionEntry.t) : Prop :=
  e ∈ l /\ P e /\ forall e', e' ∈ l -> P e' -> not_newer e e'.

(** The selection rule of [latest]: the newest hyphen-free version, and
    the newest version of all when none is hyphen-free. *)
Definition latest_rule (l : list VersionEntry.t) (latest : JSValue) : Prop :=
  ((exists e, e ∈ l /\ hyphen_free e) ->
   exists e, newest_such hyphen_free l e /\ latest = VersionEntry.version e)
  /\ ((forall e, e ∈ l -> ~ hyphen_free e) ->
      exists e, newest_such (fun _ => True) l e /\ latest = VersionEntry.version e).

(** What [getPackageVersions] is to return for a path that has rows. *)
Definition versions_result (index : list ModuleVersion.t) (packagePath : string)
    (r : Result (option PackageVersions.t)) : Prop :=
  exists pv,
    r = Ok (Some pv)
    /\ PackageVersions.path pv = packagePath
    /\ PackageVersions.versions pv ≡ₚ entries_of index packagePath
    /\ newest_first_sorted (PackageVersions.versions pv)
    /\ latest_rule (PackageVersions.versions pv) (PackageVersions.latest pv).

(** A row the sort and the stable filter can read: its version is a
    string and its timestamp parses as a date. *)
Definition readable (e : VersionEntry.t) : Prop :=
  (exists s, VersionEntry.version e = JString s) /\ is_Some (time_of e).

End WithPlatform.
End Feed.

(** The four kinds of [GoDocError.code]. *)
Definition error_kinds : list JSValue :=
  [JString "NOT_FOUND"; JString "PARSE_ERROR"; JString "NETWORK_ERROR"; JString "TIMEOUT"].

(** * Properties *)

(** ** Sorting by a date key *)
Section SortByKey.
Context {A : Type} (key : A -> option Z).

(** The comparator [(a, b) => key(b) - key(a)], [NaN] when a key is. *)
Definition by_key_desc (a b : A) : option Z :=
  tb ← key b; ta ← key a; Some (tb - ta).

Definition key_not_above (a b : A) : Prop :=
  forall ta tb, key a = Some ta -> key b = Some tb -> tb <= ta.

Lemma insert_perm (cmp : A -> A -> option Z) x l : Arr.insert cmp x l ≡ₚ x :: l.
Proof.
  induction l as [|y l IH]; simpl; [done|].
  destruct (Arr.after cmp x y); [|done].
  rewrite IH. apply Permutation_swap.
Qed.

Lemma sort_perm (cmp : A -> A -> option Z) l : Arr.sort cmp l ≡ₚ l.
Proof.
  induction l as [|x l IH]; simpl; [done|].
  by rewrite insert_perm, IH.
Qed.

Lemma key_not_above_refl a : key_not_above a a.
Proof. intros ta tb Ha Hb. rewrite Ha in Hb. injection Hb as ->. lia. Qed.

Lemma insert_sorted x l :
  Forall (fun a => is_Some (key a)) (x :: l) ->
  StronglySorted key_not_above l ->
  StronglySorted key_not_above (Arr.insert by_key_desc x l).
Proof.
  intros Hdef%Forall_cons_1 Hs. destruct Hdef as [[tx Hx] Hdef].
  induction Hs as [|y l Hs IH Hy]; simpl.
  - repeat constructor.
  - apply Forall_cons_1 in Hdef as [[ty Hty] Hdef].
    unfold Arr.after, by_key_desc. rewrite Hty, Hx. simpl.
    destruct (0 <? ty - tx) eqn:Hcmp.
    + apply Z.ltb_lt in Hcmp.
      constructor; [by apply IH|].
      rewrite insert_perm. constructor; [|done].
      intros ? ? Ha Hb. rewrite Hty in Ha. rewrite Hx in Hb.
      injection Ha as <-. injection Hb as <-. lia.
    + apply Z.ltb_ge in Hcmp.
      constructor; [by constructor|].
      constructor.
      * intros ? ? Ha Hb. rewrite Hx in Ha. rewrite Hty in Hb.
        injection Ha as <-. injection Hb as <-. lia.
      * rewrite Forall_forall in Hy, Hdef |- *.
        intros e He ta te Ha Hb. rewrite Hx in Ha. injection Ha as <-.
        specialize (Hy e He ty te Hty Hb). lia.
Qed.

Lemma sort_sorted l :
  Forall (fun a => is_Some (key a)) l ->
  StronglySorted key_not_above (Arr.sort by_key_desc l).
Proof.
  induction 1 as [|x l Hx Hl IH]; simpl; [constructor|].
  apply insert_sorted; [|done].
  constructor; [done|]. by rewrite sort_perm.
Qed.

(** In a sorted list, the first element that passes a filter is above
    every element that passes it. *)
Lemma filter_head_sorted (p : A -> bool) l s rest :
  StronglySorted key_not_above l ->
  List.filter p l = s :: rest ->
  s ∈ l /\ p s = true /\ forall e, e ∈ l -> p e = true -> key_not_above s e.
Proof.
  induction 1 as [|x l Hs IH Hx]; simpl; [done|].
  destruct (p x) eqn:Hpx.
  - intros [= <- <-]. split; [left|]. split; [done|].
    intros e [->|He]%elem_of_cons _; [apply key_not_above_refl|].
    rewrite Forall_forall in Hx. by apply Hx.
  - intros Hf. destruct (IH Hf) as (Hin & Hps & Hmax).
    split; [by right|]. split; [done|].
    intros e [->|He]%elem_of_cons Hpe; [congruence|]. by apply Hmax.
Qed.

End SortByKey.

(** ** The module index: parsing the feed *)
Section IndexFeed.
Context `{Platform}.
Import ModuleIndexFetcher Feed.

Lemma push_lines_acc lines acc :
  fold_left push_line lines acc = acc ++ flat_map line_rows lines.
Proof.
  revert acc. induction lines as [|line lines IH]; intros acc; simpl.
  - by rewrite app_nil_r.
  - rewrite IH. unfold push_line, line_rows.
    destruct (parse_line line); simpl; [by rewrite <- app_assoc|done].
Qed.

Lemma parse_lines_rows lines : parse_lines lines = flat_map line_rows lines.
Proof. unfold parse_lines. by rewrite push_lines_acc. Qed.

Lemma parse_lines_app l1 l2 :
  parse_lines (l1 ++ l2) = parse_lines l1 ++ parse_lines l2.
Proof. rewrite !parse_lines_rows. apply flat_map_app. Qed.

Lemma line_rows_unparsable line e : JSON_parse line = Throw e -> line_rows line = [].
Proof. intros He. unfold line_rows, parse_line. by rewrite He. Qed.

Lemma line_rows_object line members :
  JSON_parse line = Ok (JObject members) ->
  exists m, line_rows line = [m].
Proof.
  intros Hp. unfold line_rows, parse_line, field. rewrite Hp. simpl.
  repeat match goal with |- context [if ?b then _ else _] => destruct b end;
    simpl; eauto.
Qed.

Lemma line_rows_length line : (length (line_rows line) <= 1)%nat.
Proof. unfold line_rows. destruct (parse_line line); simpl; lia. Qed.

Lemma fetchIndex_ok resp body :
  Http.ok resp = true -> Http.text resp = Ok body ->
  fetchIndex (Http.Resolves resp) = Ok (flat_map line_rows (lines_of body)).
Proof.
  intros Hok Hbody. unfold fetchIndex. simpl. rewrite Hok, Hbody. simpl.
  by rewrite parse_lines_rows.
Qed.

Lemma index_catch_plain (body : Result (list ModuleVersion.t)) e :
  try_catch body
    (fun error =>
       if decide (exn_name error = "AbortError") then
         Throw (Error "Module index fetch timeout")
       else
         Throw (Error ("Failed to fetch module index: " +:+ exn_message error)))
  = Throw e ->
  exn_code e = JUndefined.
Proof. destruct body; simpl; [done|]. case_decide; intros [= <-]; done. Qed.

(** Whatever [fetchIndex] throws carries no [code]. *)
Lemma fetchIndex_throws_plain net e :
  fetchIndex net = Throw e -> exn_code e = JUndefined.
Proof. unfold fetchIndex. apply index_catch_plain. Qed.

Lemma fetchIndex_rejected e : exists e', fetchIndex (Http.Rejects e) = Throw e'.
Proof. unfold fetchIndex. simpl. case_decide; eauto. Qed.

Lemma fetchIndex_http_error resp :
  Http.ok resp = false -> exists e', fetchIndex (Http.Resolves resp) = Throw e'.
Proof. intros Hok. unfold fetchIndex. simpl. rewrite Hok. simpl. eauto. Qed.

Lemma fetchIndex_body_error resp e :
  Http.ok resp = true -> Http.text resp = Throw e ->
  exists e', fetchIndex (Http.Resolves resp) = Throw e'.
Proof.
  intros Hok Hbody. unfold fetchIndex. simpl. rewrite Hok, Hbody. simpl.
  case_decide; eauto.
Qed.

(** C3.  Once the feed has been fetched, [fetchIndex] returns, whatever
    the lines are: the rows are the rows of the lines that parse, in
    order, each line on its own (at most one row a line), and a line
    that [JSON.parse] rejects adds none.  A rejected or aborted fetch, an
    HTTP error status or an unreadable body fail the whole call.  A
    malformed line between two lines that parse to objects leaves exactly
    2 rows. *)
Theorem fetchIndex_skips_malformed_lines :
  (forall resp body,
      Http.ok resp = true -> Http.text resp = Ok body ->
      fetchIndex (Http.Resolves resp) = Ok (flat_map line_rows (lines_of body)))
  /\ (forall line, (length (line_rows line) <= 1)%nat)
  /\ (forall line e, JSON_parse line = Throw e -> line_rows line = [])
  /\ (forall before bad after e,
         JSON_parse bad = Throw e ->
         parse_lines (before ++ bad :: after) = parse_lines before ++ parse_lines after)
  /\ (forall e, exists e', fetchIndex (Http.Rejects e) = Throw e')
  /\ (forall resp, Http.ok resp = false ->
                   exists e', fetchIndex (Http.Resolves resp) = Throw e')
  /\ (forall resp e, Http.ok resp = true -> Http.text resp = Throw e ->
                     exists e', fetchIndex (Http.Resolves resp) = Throw e')
  /\ (forall resp body first bad last o1 o3 e,
         Http.ok resp = true -> Http.text resp = Ok body ->
         lines_of body = [first; bad; last] ->
         JSON_parse first = Ok (JObject o1) ->
         JSON_parse bad = Throw e ->
         JSON_parse last = Ok (JObject o3) ->
         exists rows, fetchIndex (Http.Resolves resp) = Ok rows /\ length rows = 2%nat).
Proof.
  split; [apply fetchIndex_ok|].
  split; [apply line_rows_length|].
  split; [apply line_rows_unparsable|].
  split.
  { intros before bad after e He.
    rewrite parse_lines_app. f_equal.
    change (bad :: after) with ([bad] ++ after). rewrite parse_lines_app.
    rewrite (parse_lines_rows [bad]). simpl.
    by rewrite (line_rows_unparsable _ _ He). }
  split; [apply fetchIndex_rejected|].
  split; [apply fetchIndex_http_error|].
  split; [apply fetchIndex_body_error|].
  intros resp body first bad last o1 o3 e Hok Hbody Hlines H1 H2 H3.
  eexists. split; [by apply fetchIndex_ok|].
  rewrite Hlines. simpl.
  destruct (line_rows_object _ _ H1) as [m1 ->].
  destruct (line_rows_object _ _ H3) as [m3 ->].
  by rewrite (line_rows_unparsable _ _ H2).
Qed.

End IndexFeed.

(** The feed of the test suite: a malformed line between two good ones. *)
Definition malformedIndex : string :=
  Sample.lines
    [Sample.feed_line "good/package" "v1.0.0" "2023-01-01T00:00:00Z";
     "this is not json";
     Sample.feed_line "another/package" "v1.0.0" "2023-01-01T00:00:00Z"].

Lemma fetchIndex_skips_malformed_lines_witness :
  exists rows,
    @ModuleIndexFetcher.fetchIndex Sample.platform (Sample.response malformedIndex) = Ok rows
    /\ length rows = 2%nat.
Proof.
  pose proof (@fetchIndex_skips_malformed_lines Sample.platform) as H.
  destruct H as (_ & _ & _ & _ & _ & _ & _ & H).
  eapply (H _ malformedIndex); [reflexivity|reflexivity| vm_compute; reflexivity | ..];
    vm_compute; reflexivity.
Defined.

(** ** The module index: the cached snapshot *)
Section IndexSnapshot.
Context `{Platform}.
Import ModuleIndexFetcher.

Lemma getIndex_stale now net st :
  fresh now st = false ->
  getIndex now net st =
    match fetchIndex net with
    | Ok fetched =>
        (Ok fetched, {| cachedIndex := Some fetched; lastFetchTime := now |}, true)
    | Throw e => (Throw e, st, true)
    end.
Proof.
  unfold fresh, getIndex. destruct (cachedIndex st); [|done].
  by intros ->.
Qed.

Lemma getIndex_fresh now net st :
  fresh now st = true ->
  exists index, cachedIndex st = Some index /\ getIndex now net st = (Ok index, st, false).
Proof.
  unfold fresh, getIndex. destruct (cachedIndex st) as [index|]; [|done].
  intros ->. eauto.
Qed.

Lemma stale_later now now' st :
  fresh now st = false -> now <= now' -> fresh now' st = false.
Proof.
  unfold fresh. destruct (cachedIndex st); [|done].
  rewrite !Z.ltb_ge. lia.
Qed.

(** C10.  When [getIndex] has to refresh (no snapshot, or one that is an
    hour old) and the fetch fails, the call throws the error of the
    fetch, never the old snapshot, and leaves the snapshot and the time
    of the last fetch as they were; a later call asks the network again
    and returns what that fetch gives. *)
Theorem getIndex_failed_refresh now net st e now' net' :
  fresh now st = false ->
  fetchIndex net = Throw e ->
  now <= now' ->
  getIndex now net st = (Throw e, st, true)
  /\ (getIndex now' net' st).2 = true
  /\ (getIndex now' net' st).1.1 = fetchIndex net'.
Proof.
  intros Hstale Hfail Hlater.
  pose proof (stale_later _ _ _ Hstale Hlater) as Hstale'.
  rewrite !getIndex_stale by done. rewrite Hfail.
  split; [done|]. by destruct (fetchIndex net').
Qed.

End IndexSnapshot.

(** A snapshot fetched at time 0, one row. *)
Definition old_snapshot : ModuleIndexFetcher.State :=
  ModuleIndexFetcher.mkState (Some [Sample.row "fmt" "v1.0.0" "2023-01-01T00:00:00Z"]) 0.

Lemma getIndex_failed_refresh_witness :
  @ModuleIndexFetcher.getIndex Sample.platform 3600000
    (Http.Rejects (Error "Network error")) old_snapshot
  = (Throw (Error "Failed to fetch module index: Network error"), old_snapshot, true)
  /\ (@ModuleIndexFetcher.getIndex Sample.platform 3600001
        (Sample.response malformedIndex) old_snapshot).2 = true
  /\ (@ModuleIndexFetcher.getIndex Sample.platform 3600001
        (Sample.response malformedIndex) old_snapshot).1.1
     = @ModuleIndexFetcher.fetchIndex Sample.platform (Sample.response malformedIndex).
Proof.
  apply (@getIndex_failed_refresh Sample.platform 3600000
           (Http.Rejects (Error "Network error")) old_snapshot
           (Error "Failed to fetch module index: Network error")
           3600001 (Sample.response malformedIndex)).
  - reflexivity.
  - reflexivity.
  - lia.
Defined.

(** ** The module index: error kinds *)
Section IndexErrors.
Context `{Platform}.
Import ModuleIndexFetcher.

(** C4 (what the code does).  No error that [fetchIndex] throws carries
    one of the four kinds: each is a plain [Error] without a [code].  So
    is what [getIndex] lets through.  An aborted fetch ends as the plain
    ["Module index fetch timeout"], which the request handler then
    reports with its generic message and not as a timeout. *)
Theorem fetchIndex_errors_untagged :
  (forall net,
      match fetchIndex net with
      | Throw e => exn_code e = JUndefined /\ exn_code e ∉ error_kinds
      | Ok _ => True
      end)
  /\ (forall now net st,
         match (getIndex now net st).1.1 with
         | Throw e => exn_code e ∉ error_kinds
         | Ok _ => True
         end)
  /\ fetchIndex (Http.Rejects Http.AbortError)
     = Throw (Error "Module index fetch timeout")
  /\ Server.handleError (Error "Module index fetch timeout")
     = Server.McpError Server.InternalError
         "An error occurred while fetching documentation"
  /\ Server.handleError (GoDocError "Request timeout: https://pkg.go.dev/fmt" "TIMEOUT")
     = Server.McpError Server.InternalError "Request timeout".
Proof.
  assert (Hplain : forall net e, fetchIndex net = Throw e -> exn_code e ∉ error_kinds).
  { intros net e He. rewrite (fetchIndex_throws_plain _ _ He).
    unfold error_kinds. rewrite !not_elem_of_cons. repeat split; try done.
    apply not_elem_of_nil. }
  split.
  { intros net. destruct (fetchIndex net) as [|e] eqn:He; [done|].
    split; [by eapply fetchIndex_throws_plain | by eapply Hplain]. }
  split.
  { intros now net st. unfold getIndex.
    destruct (cachedIndex st) as [index|];
      [destruct (now - lastFetchTime st <? indexCacheTTL); [done|]|];
      destruct (fetchIndex net) as [|e] eqn:He; simpl; try done; by eapply Hplain. }
  done.
Qed.

End IndexErrors.

(** ** The module index: versions of a package *)
Section IndexVersions.
Context `{Platform}.
Import ModuleIndexFetcher Feed.

(** [is_stable] on an entry whose version is a string. *)
Definition stable_string (e : VersionEntry.t) : bool :=
  match VersionEntry.version e with
  | JString s => negb (Str.includes "-" s)
  | _ => false
  end.

Lemma filterM_is_stable l :
  Forall readable l ->
  Arr.filterM is_stable l = Ok (List.filter stable_string l).
Proof.
  induction 1 as [|e l [[s Hs] _] _ IH]; simpl; [done|].
  rewrite IH. unfold is_stable, stable_string. rewrite Hs. simpl.
  by destruct (Str.includes "-" s).
Qed.

Lemma stable_string_hyphen_free e : stable_string e = true <-> hyphen_free e.
Proof.
  unfold stable_string, hyphen_free. split.
  - destruct (VersionEntry.version e) as [| | | |s| |]; try done.
    intros Hs%negb_true_iff. eauto.
  - intros (s & -> & ->). done.
Qed.

Lemma newest_first_sort l :
  Forall readable l -> newest_first_sorted (Arr.sort newest_first l).
Proof.
  intros Hl. apply (sort_sorted time_of).
  eapply Forall_impl; [exact Hl|]. by intros e [_ ?].
Qed.

Lemma packageVersions_latest index packagePath :
  entries_of index packagePath <> [] ->
  Forall readable (entries_of index packagePath) ->
  versions_result index packagePath (packageVersions index packagePath).
Proof.
  intros Hrows Hread. unfold packageVersions. fold (entries_of index packagePath).
  set (entries := entries_of index packagePath) in *.
  pose proof (sort_perm newest_first entries) as Hperm.
  pose proof (newest_first_sort entries Hread) as Hsorted.
  assert (Hread' : Forall readable (Arr.sort newest_first entries)) by by rewrite Hperm.
  destruct (Arr.sort newest_first entries) as [|newest versions] eqn:Hsort.
  { apply Permutation_nil_l in Hperm. by rewrite Hperm in Hrows. }
  rewrite (filterM_is_stable _ Hread').
  destruct (List.filter stable_string (newest :: versions)) as [|s rest] eqn:Hf;
    (eexists; split; [reflexivity|];
     cbn [PackageVersions.latest PackageVersions.versions PackageVersions.path];
     split; [done|]; split; [done|]; split; [done|]).
  - split.
    + intros (e & He & Hfree). apply stable_string_hyphen_free in Hfree.
      assert (e ∈ List.filter stable_string (newest :: versions)) as Hin.
      { apply list_elem_of_In, filter_In. by rewrite <- list_elem_of_In. }
      rewrite Hf in Hin. by apply elem_of_nil in Hin.
    + intros _. exists newest. split; [|done].
      split; [left|]. split; [done|].
      intros e [->|He]%elem_of_cons _; [apply key_not_above_refl|].
      apply StronglySorted_inv in Hsorted as [_ Hall].
      rewrite Forall_forall in Hall. by apply Hall.
  - destruct (filter_head_sorted time_of stable_string _ _ _ Hsorted Hf)
      as (Hin & Hs & Hmax).
    split.
    + intros _. exists s. split; [|done].
      split; [done|]. split; [by apply stable_string_hyphen_free|].
      intros e He Hfree. apply Hmax; [done|]. by apply stable_string_hyphen_free.
    + intros Hnone. exfalso. apply (Hnone s Hin). by apply stable_string_hyphen_free.
Qed.

(** C1, as the code has it.  For a path with at least one row, all of
    whose rows carry a string version and a timestamp that parses as a
    date, [getPackageVersions] returns the rows of the path sorted newest
    first, with [latest] the newest version without a hyphen, or the
    newest of all when every version has one. *)
Theorem getPackageVersions_latest packagePath now net st index :
  (getIndex now net st).1.1 = Ok index ->
  entries_of index packagePath <> [] ->
  Forall readable (entries_of index packagePath) ->
  versions_result index packagePath (getPackageVersions packagePath now net st).1.1.
Proof.
  intros Hindex Hrows Hread. unfold getPackageVersions.
  destruct (getIndex now net st) as [[r st'] asked]. simpl in *. subst r. simpl.
  by apply packageVersions_latest.
Qed.

End IndexVersions.

(** The feed of the test suite for one package. *)
Definition ginIndex : string :=
  Sample.lines
    [Sample.feed_line "github.com/gin-gonic/gin" "v1.9.0" "2023-01-01T00:00:00Z";
     Sample.feed_line "github.com/gin-gonic/gin" "v2.0.0-beta.1" "2023-12-01T00:00:00Z";
     Sample.feed_line "fmt" "v1.0.0" "2023-01-01T00:00:00Z";
     Sample.feed_line "github.com/gin-gonic/gin" "v1.9.1" "2023-06-01T00:00:00Z"].

Definition ginRows : list ModuleVersion.t :=
  [Sample.row "github.com/gin-gonic/gin" "v1.9.0" "2023-01-01T00:00:00Z";
   Sample.row "github.com/gin-gonic/gin" "v2.0.0-beta.1" "2023-12-01T00:00:00Z";
   Sample.row "fmt" "v1.0.0" "2023-01-01T00:00:00Z";
   Sample.row "github.com/gin-gonic/gin" "v1.9.1" "2023-06-01T00:00:00Z"].

Lemma getPackageVersions_latest_witness :
  @Feed.versions_result Sample.platform ginRows "github.com/gin-gonic/gin"
    (@ModuleIndexFetcher.getPackageVersions Sample.platform "github.com/gin-gonic/gin"
       0 (Sample.response ginIndex) ModuleIndexFetcher.initial).1.1.
Proof.
  apply (@getPackageVersions_latest Sample.platform).
  - vm_compute. reflexivity.
  - discriminate.
  - repeat (constructor; [split; [eexists; reflexivity | eexists; vm_compute; reflexivity]|]).
    constructor.
Defined.

(** On that feed the stable v1.9.1 wins over the newer pre-release. *)
Example gin_latest :
  PackageVersions.latest <$>
    (@ModuleIndexFetcher.packageVersions Sample.platform ginRows "github.com/gin-gonic/gin"
       ≫= from_option Ok (Throw (Error "null")))
  = Ok (JString "v1.9.1").
Proof. vm_compute. reflexivity. Qed.

(** A feed in which one row of the package has a timestamp that is no date. *)
Definition undatedIndex : string :=
  Sample.lines
    [Sample.feed_line "p" "v1.0.0" "2020-01-01T00:00:00Z";
     Sample.feed_line "p" "v1.1.0" "n/a";
     Sample.feed_line "p" "v1.2.0" "2023-01-01T00:00:00Z"].

Definition undatedRows : list ModuleVersion.t :=
  [Sample.row "p" "v1.0.0" "2020-01-01T00:00:00Z";
   Sample.row "p" "v1.1.0" "n/a";
   Sample.row "p" "v1.2.0" "2023-01-01T00:00:00Z"].

(** A feed whose only line has no [Version] member. *)
Definition versionlessIndex : string :=
  "{" +:+ Sample.dq +:+ "Path" +:+ Sample.dq +:+ ":" +:+ Sample.dq +:+ "q" +:+ Sample.dq
  +:+ "," +:+ Sample.dq +:+ "Timestamp" +:+ Sample.dq +:+ ":" +:+ Sample.dq
  +:+ "2023-01-01T00:00:00Z" +:+ Sample.dq +:+ "}".

Definition versionlessRows : list ModuleVersion.t :=
  [ModuleVersion.mk (JString "q") JUndefined (JString "2023-01-01T00:00:00Z")].

(** C1 as stated fails on both.  On the first every comparison with the
    undated row is [NaN], the sort leaves v1.0.0 (2020) ahead of v1.2.0
    (2023), and [latest] is v1.0.0.  On the second the path has a row and
    the call throws, [includes] being read from [undefined]. *)
Lemma getPackageVersions_unreadable_rows :
  ((@ModuleIndexFetcher.getIndex Sample.platform 0 (Sample.response undatedIndex)
      ModuleIndexFetcher.initial).1.1 = Ok undatedRows
   /\ @Feed.entries_of undatedRows "p" <> []
   /\ PackageVersions.latest <$>
        ((@ModuleIndexFetcher.getPackageVersions Sample.platform "p" 0
            (Sample.response undatedIndex) ModuleIndexFetcher.initial).1.1
           ≫= from_option Ok (Throw (Error "null")))
      = Ok (JString "v1.0.0")
   /\ ~ @Feed.versions_result Sample.platform undatedRows "p"
          (@ModuleIndexFetcher.getPackageVersions Sample.platform "p" 0
             (Sample.response undatedIndex) ModuleIndexFetcher.initial).1.1)
  /\ ((@ModuleIndexFetcher.getIndex Sample.platform 0 (Sample.response versionlessIndex)
         ModuleIndexFetcher.initial).1.1 = Ok versionlessRows
      /\ @Feed.entries_of versionlessRows "q" <> []
      /\ (@ModuleIndexFetcher.getPackageVersions Sample.platform "q" 0
            (Sample.response versionlessIndex) ModuleIndexFetcher.initial).1.1
         = Throw (TypeError
                    "Cannot read properties of null or undefined (reading 'includes')")
      /\ ~ @Feed.versions_result Sample.platform versionlessRows "q"
             (@ModuleIndexFetcher.getPackageVersions Sample.platform "q" 0
                (Sample.response versionlessIndex) ModuleIndexFetcher.initial).1.1).
Proof.
  split.
  - split; [vm_compute; reflexivity|].
    split; [vm_compute; discriminate|].
    split; [vm_compute; reflexivity|].
    intros (pv & Heq & _ & _ & Hsorted & _).
    vm_compute in Heq. injection Heq as <-.
    unfold Feed.newest_first_sorted in Hsorted. simpl in Hsorted.
    apply StronglySorted_inv in Hsorted as [_ Hall].
    apply Forall_cons_1 in Hall as [_ Hall]. apply Forall_cons_1 in Hall as [Hlast _].
    specialize (Hlast 1577836800000 1672531200000 eq_refl eq_refl). lia.
  - split; [vm_compute; reflexivity|].
    split; [vm_compute; discriminate|].
    split; [vm_compute; reflexivity|].
    intros (pv & Heq & _). vm_compute in Heq. discriminate Heq.
Qed.

(** ** The documentation cache *)

(** The cache over node-cache; a stored [CacheEntry] is an object of three
    members, which node-cache sizes at 80 each. *)
Definition nodeCacheStore (on_full : NodeCache.FullPolicy) (T : Type)
  : CacheStore (NodeCache.Cache (CacheEntry.t T)) (CacheEntry.t T) :=
  NodeCache.store on_full (fun _ => 240).

(** The store of the unit tests, whose [get] and [set] are mocked to throw. *)
Definition throwingStore (T : Type) : CacheStore unit (CacheEntry.t T) := {|
  store_new _ := ();
  store_get _ _ s := (Throw (Error "Internal error"), s);
  store_set _ _ _ _ s := (Throw (Error "Internal error"), s);
  store_has _ _ s := (Ok false, s);
  store_del _ s := (Ok 0, s);
  store_flushAll s := (Ok (), s);
  store_keys _ := Ok [];
  store_getStats _ := Ok StoreStats.zero;
|}.

(** What may happen to a cache: a call of one of its methods at some clock
    reading, or a run of the store's expiry timer. *)
Inductive CacheOp (T : Type) : Type :=
| OpGet (key : string) (now : Z)
| OpSet (key : string) (value : T) (ttl : option Z) (now : Z)
| OpHas (key : string) (now : Z)
| OpDelete (key : string)
| OpClear
| OpGetStats
| OpTimer (now : Z).
Arguments OpGet {T} key now.
Arguments OpSet {T} key value ttl now.
Arguments OpHas {T} key now.
Arguments OpDelete {T} key.
Arguments OpClear {T}.
Arguments OpGetStats {T}.
Arguments OpTimer {T} now.

Definition NodeDocCache (T : Type) : Type :=
  DocumentationCache.t (NodeCache.Cache (CacheEntry.t T)).

Definition cache_step (on_full : NodeCache.FullPolicy) {T}
    (c : NodeDocCache T) (op : CacheOp T) : NodeDocCache T :=
  match op with
  | OpGet key now => (@DocumentationCache.get T _ (nodeCacheStore on_full T) key now c).2
  | OpSet key value ttl now =>
      (@DocumentationCache.set T _ (nodeCacheStore on_full T) key value ttl now c).2
  | OpHas key now => (@DocumentationCache.has T _ (nodeCacheStore on_full T) key now c).2
  | OpDelete key => (@DocumentationCache.delete T _ (nodeCacheStore on_full T) key c).2
  | OpClear => (@DocumentationCache.clear T _ (nodeCacheStore on_full T) c).2
  | OpGetStats => c
  | OpTimer now =>
      DocumentationCache.mkCache
        (NodeCache.checkData (fun _ => 240) now (DocumentationCache.cache c))
        (DocumentationCache.defaultTTL c)
  end.

Definition cache_run (on_full : NodeCache.FullPolicy) {T}
    (ops : list (CacheOp T)) (c : NodeDocCache T) : NodeDocCache T :=
  fold_left (cache_step on_full) ops c.

(** [getStats().keys] *)
Definition stats_keys {T} (c : NodeDocCache T) : Result Z :=
  DocumentationCache.keys
    <$> @DocumentationCache.getStats T _ (nodeCacheStore NodeCache.Refuse T) c.

Section CacheNeverThrows.
Context {T S : Type} `{CacheStore S (CacheEntry.t T)}.
Import DocumentationCache.

Lemma get_returns key now (c : t S) : returns (get key now c).1.
Proof.
  unfold get. destruct (store_get key now (cache c)) as [[[entry|]|e] s']; simpl;
    by eexists.
Qed.

Lemma get_store_throws key now (c : t S) e :
  (store_get key now (cache c)).1 = Throw e -> (get key now c).1 = Ok None.
Proof.
  unfold get. destruct (store_get key now (cache c)) as [r s']. simpl.
  by intros ->.
Qed.

Lemma set_returns key value ttl now (c : t S) : returns (set key value ttl now c).1.
Proof.
  unfold set.
  destruct (store_set key _ _ now (cache c)) as [[b|e] s']; simpl; by eexists.
Qed.

Lemma set_store_throws key value ttl now (c : t S) e :
  (store_set key (CacheEntry.mk value now (JS.num_or ttl (defaultTTL c)))
     (JS.num_or ttl (defaultTTL c)) now (cache c)).1 = Throw e ->
  (set key value ttl now c).1 = Ok false.
Proof.
  unfold set.
  destruct (store_set key _ _ now (cache c)) as [r s']. simpl. by intros ->.
Qed.

End CacheNeverThrows.

Section NodeCacheFull.
Context {T : Type}.
Import DocumentationCache.

(** The store holds [maxKeys] entries or more. *)
Definition full (c : NodeDocCache T) : Prop :=
  -1 < StoreOptions.maxKeys (NodeCache.options (cache c))
  /\ StoreOptions.maxKeys (NodeCache.options (cache c))
     <= StoreStats.keys (NodeCache.stats (cache c)).

Lemma is_full_full (c : NodeDocCache T) : NodeCache.is_full (cache c) = true <-> full c.
Proof.
  unfold NodeCache.is_full, full. rewrite andb_true_iff, Z.ltb_lt, Z.leb_le. done.
Qed.

(** node-cache refuses the write: [set] answers [false], nothing changes. *)
Lemma set_full key value ttl now (c : NodeDocCache T) :
  full c ->
  @set T _ (nodeCacheStore NodeCache.Refuse T) key value ttl now c = (Ok false, c).
Proof.
  intros Hfull%is_full_full. unfold set. simpl.
  unfold NodeCache.set, NodeCache.make_room. rewrite Hfull. simpl. by destruct c.
Qed.

Lemma num_or_nonzero ttl d : d <> 0 -> JS.num_or ttl d <> 0.
Proof.
  intros Hd. unfold JS.num_or. destruct ttl as [n|]; [|done].
  destruct (n =? 0) eqn:Hn; [done|]. by apply Z.eqb_neq in Hn.
Qed.

(** On a store with room, [set] leaves the envelope under the key, to
    expire [ttl] seconds later, or the default when no [ttl] is given. *)
Lemma set_stores on_full key value ttl now (c : NodeDocCache T) :
  ~ full c ->
  defaultTTL c <> 0 ->
  let c' := (@set T _ (nodeCacheStore on_full T) key value ttl now c).2 in
  NodeCache.data (cache c') !! key
  = Some (NodeCache.mkWrapped
            (CacheEntry.mk value now (JS.num_or ttl (defaultTTL c)))
            (now + JS.num_or ttl (defaultTTL c) * 1000)).
Proof.
  intros Hroom Hd. unfold set. simpl. unfold NodeCache.set, NodeCache.make_room.
  destruct (NodeCache.is_full (cache c)) eqn:Hfull.
  { exfalso. by apply Hroom, is_full_full. }
  simpl. unfold NodeCache.put, NodeCache.livetime.
  pose proof (num_or_nonzero ttl _ Hd) as Hnz. apply Z.eqb_neq in Hnz. rewrite Hnz.
  destruct (NodeCache.data (cache c) !! key); simpl; apply lookup_insert_eq.
Qed.

End NodeCacheFull.

(** C5.  Whatever the store under the cache does, [get] and [set] return:
    [get] answers [undefined] when the store throws, and [set] answers
    [false] when the store throws; over node-cache, a [set] on a full
    store, which node-cache rejects with [ECACHEFULL], answers [false] and
    leaves the cache as it was. *)
Theorem cache_get_set_never_throw :
  (forall (T S : Type) (store : CacheStore S (CacheEntry.t T))
          (key : string) (value : T) (ttl : option Z) (now : Z)
          (c : DocumentationCache.t S),
      returns (DocumentationCache.get key now c).1
      /\ (forall e, (store_get key now (DocumentationCache.cache c)).1 = Throw e ->
                    (DocumentationCache.get key now c).1 = Ok None)
      /\ returns (DocumentationCache.set key value ttl now c).1
      /\ (forall e,
             (store_set key
                (CacheEntry.mk value now
                   (JS.num_or ttl (DocumentationCache.defaultTTL c)))
                (JS.num_or ttl (DocumentationCache.defaultTTL c))
                now (DocumentationCache.cache c)).1 = Throw e ->
             (DocumentationCache.set key value ttl now c).1 = Ok false))
  /\ (forall (T : Type) (key : string) (value : T) (ttl : option Z) (now : Z)
             (c : NodeDocCache T),
         full c ->
         @DocumentationCache.set T _ (nodeCacheStore NodeCache.Refuse T)
           key value ttl now c = (Ok false, c)).
Proof.
  split.
  - intros T S store key value ttl now c.
    split; [apply get_returns|]. split; [apply get_store_throws|].
    split; [apply set_returns|]. apply set_store_throws.
  - intros T. apply set_full.
Qed.

(** On the mocked store of the unit tests. *)
Lemma cache_get_set_never_throw_witness :
  (@DocumentationCache.get nat unit (throwingStore nat) "any-key" 0
     (@DocumentationCache.constructor nat unit (throwingStore nat) None)).1 = Ok None
  /\ (@DocumentationCache.set nat unit (throwingStore nat) "any-key" 7%nat None 0
        (@DocumentationCache.constructor nat unit (throwingStore nat) None)).1 = Ok false.
Proof.
  destruct cache_get_set_never_throw as [H _].
  destruct (H nat unit (throwingStore nat) "any-key" 7%nat None 0
              (@DocumentationCache.constructor nat unit (throwingStore nat) None))
    as (_ & Hget & _ & Hset).
  split.
  - apply (Hget (Error "Internal error")). reflexivity.
  - apply (Hset (Error "Internal error")). reflexivity.
Defined.

(** ** The capacity bound *)
Section Capacity.
Context {T : Type}.
Variable on_full : NodeCache.FullPolicy.
Local Abbreviation V := (CacheEntry.t T).
Local Abbreviation len := (fun _ : V => 240).

(** The key counter of the store tells the number of entries, and stays
    within [maxKeys] when a limit is set. *)
Definition counted (c : NodeCache.Cache V) : Prop :=
  StoreStats.keys (NodeCache.stats c) = Z.of_nat (size (NodeCache.data c))
  /\ (-1 < StoreOptions.maxKeys (NodeCache.options c) ->
      StoreStats.keys (NodeCache.stats c) <= StoreOptions.maxKeys (NodeCache.options c)).

Lemma counted_new opts : counted (NodeCache.new opts).
Proof. split; simpl; [by rewrite map_size_empty | lia]. Qed.

Lemma counted_del key c : counted c -> counted (NodeCache.del len key c).2.
Proof.
  intros [Hk Hmax]. unfold NodeCache.del.
  destruct (NodeCache.data c !! key) as [w|] eqn:Hw; [|done].
  split; simpl.
  - rewrite map_size_delete, Hw, Hk.
    assert (size (NodeCache.data c) <> 0%nat).
    { apply map_size_ne_0_lookup. eauto. }
    lia.
  - intros Hlim. specialize (Hmax Hlim). lia.
Qed.

Lemma options_del key c :
  NodeCache.options (NodeCache.del len key c).2 = NodeCache.options c.
Proof. unfold NodeCache.del. by destruct (NodeCache.data c !! key). Qed.

Lemma counted_check key w now c : counted c -> counted (NodeCache.check len key w now c).2.
Proof.
  intros Hc. unfold NodeCache.check.
  destruct (NodeCache.expired now w); [by apply counted_del|done].
Qed.

Lemma options_check key w now c :
  NodeCache.options (NodeCache.check len key w now c).2 = NodeCache.options c.
Proof.
  unfold NodeCache.check. destruct (NodeCache.expired now w); [apply options_del|done].
Qed.

Lemma counted_get key now c : counted c -> counted (NodeCache.get len key now c).2.
Proof.
  intros Hc. unfold NodeCache.get.
  destruct (NodeCache.data c !! key) as [w|]; [|done].
  pose proof (counted_check key w now c Hc) as Hc'.
  pose proof (options_check key w now c) as Ho.
  destruct (NodeCache.check len key w now c) as [[] c']; simpl in *;
    destruct Hc' as [? ?]; split; simpl; done.
Qed.

Lemma options_get key now c :
  NodeCache.options (NodeCache.get len key now c).2 = NodeCache.options c.
Proof.
  unfold NodeCache.get. destruct (NodeCache.data c !! key) as [w|]; [|done].
  pose proof (options_check key w now c) as Ho.
  by destruct (NodeCache.check len key w now c) as [[] c'].
Qed.

Lemma counted_has key now c : counted c -> counted (NodeCache.has len key now c).2.
Proof.
  intros Hc. unfold NodeCache.has.
  destruct (NodeCache.data c !! key) as [w|]; [by apply counted_check|done].
Qed.

Lemma options_has key now c :
  NodeCache.options (NodeCache.has len key now c).2 = NodeCache.options c.
Proof.
  unfold NodeCache.has.
  destruct (NodeCache.data c !! key) as [w|]; [apply options_check|done].
Qed.

(** Room is made, if at all, within the count and the options. *)
Lemma counted_make_room c c' :
  counted c ->
  NodeCache.make_room on_full len c = Some c' ->
  counted c' /\ NodeCache.options c' = NodeCache.options c /\ NodeCache.is_full c' = false.
Proof.
  intros Hc. unfold NodeCache.make_room.
  destruct (NodeCache.is_full c) eqn:Hfull; [|by intros [= <-]].
  destruct on_full as [|victim]; [done|].
  destruct (victim (NodeCache.keys c)) as [key|]; [|done].
  destruct (NodeCache.is_full (NodeCache.del len key c).2) eqn:Hfull'; [done|].
  intros [= <-]. split; [by apply counted_del|]. split; [apply options_del|done].
Qed.

Lemma counted_put key value ttl now c :
  counted c -> NodeCache.is_full c = false ->
  counted (NodeCache.put len key value ttl now c).
Proof.
  intros [Hk Hmax] Hfull. unfold NodeCache.put. unfold NodeCache.is_full in Hfull.
  destruct (NodeCache.data c !! key) as [old|] eqn:Hold; split; simpl.
  - rewrite map_size_insert_Some by eauto. done.
  - done.
  - rewrite map_size_insert_None by done. lia.
  - intros Hlim. apply andb_false_iff in Hfull as [Hf|Hf].
    + apply Z.ltb_ge in Hf. lia.
    + apply Z.leb_gt in Hf. lia.
Qed.

Lemma options_put key value ttl now c :
  NodeCache.options (NodeCache.put len key value ttl now c) = NodeCache.options c.
Proof. unfold NodeCache.put. by destruct (NodeCache.data c !! key). Qed.

Lemma counted_set key value ttl now c :
  counted c ->
  counted (NodeCache.set on_full len key value ttl now c).2
  /\ NodeCache.options (NodeCache.set on_full len key value ttl now c).2
     = NodeCache.options c.
Proof.
  intros Hc. unfold NodeCache.set.
  destruct (NodeCache.make_room on_full len c) as [c'|] eqn:Hroom; [|done].
  destruct (counted_make_room c c' Hc Hroom) as (Hc' & Ho & Hfull). simpl.
  split; [by apply counted_put|]. by rewrite options_put.
Qed.

Lemma counted_flushAll c :
  -1 < StoreOptions.maxKeys (NodeCache.options c) -> counted (NodeCache.flushAll c).
Proof. intros Hlim. split; simpl; [by rewrite map_size_empty | lia]. Qed.

Lemma counted_checkData now c :
  counted c ->
  counted (NodeCache.checkData len now c)
  /\ NodeCache.options (NodeCache.checkData len now c) = NodeCache.options c.
Proof.
  intros Hc. unfold NodeCache.checkData.
  induction (map_to_list (NodeCache.data c)) as [|[k w] l [IHc IHo]]; simpl; [done|].
  split; [by apply counted_check|]. by rewrite options_check.
Qed.

(** The store of a cache built with a limit keeps within it. *)
Definition bounded (n : Z) (c : NodeDocCache T) : Prop :=
  StoreOptions.maxKeys (NodeCache.options (DocumentationCache.cache c)) = n
  /\ counted (DocumentationCache.cache c).

Lemma bounded_step n c op : 0 < n -> bounded n c -> bounded n (cache_step on_full c op).
Proof.
  intros Hn [Ho Hc].
  destruct op as [key now|key value ttl now|key now|key| | |now]; simpl.
  - unfold DocumentationCache.get. simpl.
    pose proof (counted_get key now _ Hc) as Hc'.
    pose proof (options_get key now (DocumentationCache.cache c)) as Ho'.
    destruct (NodeCache.get _ key now _) as [r c']; simpl in *.
    split; simpl; congruence.
  - unfold DocumentationCache.set. simpl.
    destruct (counted_set key
                (CacheEntry.mk value now
                   (JS.num_or ttl (DocumentationCache.defaultTTL c)))
                (JS.num_or ttl (DocumentationCache.defaultTTL c))
                now _ Hc) as [Hc' Ho'].
    destruct (NodeCache.set _ _ key _ _ now _) as [r c']; simpl in *.
    split; simpl; congruence.
  - unfold DocumentationCache.has. simpl.
    pose proof (counted_has key now _ Hc) as Hc'.
    pose proof (options_has key now (DocumentationCache.cache c)) as Ho'.
    destruct (NodeCache.has _ key now _) as [r c']; simpl in *.
    split; simpl; congruence.
  - unfold DocumentationCache.delete. simpl.
    pose proof (counted_del key _ Hc) as Hc'.
    pose proof (options_del key (DocumentationCache.cache c)) as Ho'.
    destruct (NodeCache.del _ key _) as [r c']; simpl in *.
    split; simpl; congruence.
  - split; simpl; [done|]. apply counted_flushAll. lia.
  - done.
  - destruct (counted_checkData now _ Hc) as [Hc' Ho'].
    split; simpl; congruence.
Qed.

Lemma bounded_run n ops c : 0 < n -> bounded n c -> bounded n (cache_run on_full ops c).
Proof.
  intros Hn. revert c. unfold cache_run.
  induction ops as [|op ops IH]; intros c Hb; simpl; [done|].
  apply IH. by apply bounded_step.
Qed.

Lemma bounded_constructor ttl period n :
  0 < n ->
  bounded n (@DocumentationCache.constructor T _ (nodeCacheStore on_full T)
               (Some (DocumentationCache.mkOptions ttl period (Some n)))).
Proof.
  intros Hn. split; simpl.
  - destruct (n =? 0) eqn:Hz; [apply Z.eqb_eq in Hz; lia|done].
  - apply counted_new.
Qed.

Lemma stats_keys_bounded n c :
  0 < n -> bounded n c -> exists k, stats_keys c = Ok k /\ 0 <= k <= n.
Proof.
  intros Hn [Ho [Hk Hmax]]. unfold stats_keys, DocumentationCache.getStats. simpl.
  eexists. split; [reflexivity|]. simpl.
  unfold NodeCache.keys. rewrite length_fmap, length_map_to_list.
  rewrite <- Hk. split; [lia|]. rewrite <- Ho. apply Hmax. lia.
Qed.

(** C8, as the code has it.  A cache constructed with a positive
    [maxKeys] never reports more keys than that, whatever methods are
    called on it, at whatever times, whenever the expiry timer of the
    store runs, and whether the store refuses a write when it is full or
    evicts an entry for it. *)
Theorem cache_keys_within_maxKeys ttl period n (ops : list (CacheOp T)) :
  0 < n ->
  exists k,
    stats_keys
      (cache_run on_full ops
         (@DocumentationCache.constructor T _ (nodeCacheStore on_full T)
            (Some (DocumentationCache.mkOptions ttl period (Some n)))))
    = Ok k
    /\ k <= n.
Proof.
  intros Hn.
  destruct (stats_keys_bounded n
              (cache_run on_full ops
                 (@DocumentationCache.constructor T _ (nodeCacheStore on_full T)
                    (Some (DocumentationCache.mkOptions ttl period (Some n))))) Hn)
    as (k & Hk & Hle).
  - apply bounded_run; [done|]. by apply bounded_constructor.
  - exists k. split; [done|lia].
Qed.

End Capacity.

(** The eviction test of the suite: four entries into a cache of three. *)
Definition four_sets : list (CacheOp string) :=
  [OpSet "key1" "value1" None 0; OpSet "key2" "value2" None 1;
   OpSet "key3" "value3" None 2; OpSet "key4" "value4" None 3].

Lemma cache_keys_within_maxKeys_witness :
  0 < 3
  /\ exists k,
      stats_keys
        (cache_run NodeCache.Refuse four_sets
           (@DocumentationCache.constructor string _
              (nodeCacheStore NodeCache.Refuse string)
              (Some (DocumentationCache.mkOptions (Some 60) None (Some 3)))))
      = Ok k
      /\ k <= 3.
Proof.
  split; [lia|].
  apply (@cache_keys_within_maxKeys string NodeCache.Refuse (Some 60) None 3 four_sets).
  lia.
Defined.

(** There the fourth [set] is refused and three keys are held; a store
    that evicted, say, the first key it lists would hold three as well. *)
Example four_sets_keys :
  stats_keys
    (cache_run NodeCache.Refuse four_sets
       (@DocumentationCache.constructor string _ (nodeCacheStore NodeCache.Refuse string)
          (Some (DocumentationCache.mkOptions (Some 60) None (Some 3)))))
  = Ok 3
  /\ stats_keys
       (cache_run (NodeCache.Evict head) four_sets
          (@DocumentationCache.constructor string _
             (nodeCacheStore (NodeCache.Evict head) string)
             (Some (DocumentationCache.mkOptions (Some 60) None (Some 3)))))
     = Ok 3.
Proof. split; vm_compute; reflexivity. Qed.

(** C8 as stated fails for a configured maximum of 0: [0 || 1000] makes
    the limit 1000, and one [set] already holds more keys than 0. *)
Lemma cache_keys_exceed_zero_maxKeys :
  stats_keys
    (cache_run NodeCache.Refuse [OpSet "key1" "value1" None 0]
       (@DocumentationCache.constructor string _ (nodeCacheStore NodeCache.Refuse string)
          (Some (DocumentationCache.mkOptions None None (Some 0)))))
  = Ok 1
  /\ ~ 1 <= 0.
Proof. split; [vm_compute; reflexivity | lia]. Qed.

(** ** Strings: facts used below *)
Section StringFacts.

Lemma truthy_nonempty s : Str.truthy s = true <-> s <> EmptyString.
Proof. destruct s; simpl; split; done. Qed.

Lemma truthy_empty s : Str.truthy s = false <-> s = EmptyString.
Proof. destruct s; simpl; split; done. Qed.

Lemma prefix_app s t : String.prefix s (s +:+ t) = true.
Proof.
  induction s as [|c s IH]; simpl; [by destruct t|].
  destruct (Ascii.ascii_dec c c); [done|congruence].
Qed.

Lemma includes_prefix s u : String.prefix s u = true -> Str.includes s u = true.
Proof. intros Hp. destruct u; cbn [Str.includes]; by rewrite Hp. Qed.

Lemma includes_here s t : Str.includes s (s +:+ t) = true.
Proof. apply includes_prefix, prefix_app. Qed.

Lemma includes_later r s t : Str.includes s t = true -> Str.includes s (r +:+ t) = true.
Proof.
  intros Ht. induction r as [|c r IH]; simpl; [done|].
  rewrite IH. apply orb_true_r.
Qed.

Lemma includes_middle r s t : Str.includes s (r +:+ s +:+ t) = true.
Proof. apply includes_later, includes_here. Qed.

Lemma prefix_refl s : String.prefix s s = true.
Proof.
  induction s as [|c s IH]; simpl; [done|].
  destruct (Ascii.ascii_dec c c); [done|congruence].
Qed.

Lemma includes_end r s : Str.includes s (r +:+ s) = true.
Proof. apply includes_later, includes_prefix, prefix_refl. Qed.

Lemma not_found_names_function functionName packagePath :
  Str.includes functionName
    (GoDocFetcher.not_found_message functionName packagePath) = true.
Proof. unfold GoDocFetcher.not_found_message. apply (includes_middle "Function "). Qed.

Lemma not_found_names_package functionName packagePath :
  Str.includes packagePath
    (GoDocFetcher.not_found_message functionName packagePath) = true.
Proof.
  unfold GoDocFetcher.not_found_message.
  apply (includes_later "Function "), includes_later, includes_end.
Qed.

(** *** What [trim] leaves *)

Lemma prefix_length p s : String.prefix p s = true -> (String.length p <= String.length s)%nat.
Proof.
  revert s. induction p as [|c p IH]; intros s; [simpl; lia|].
  destruct s as [|d s]; simpl; [done|]. destruct (Ascii.ascii_dec c d); [|done].
  intros Hp%IH. lia.
Qed.

Lemma drop_length n s : String.length (Str.drop n s) = (String.length s - n)%nat.
Proof.
  revert s. induction n as [|n IH]; intros s; simpl; [lia|].
  destruct s as [|c s]; simpl; [done|apply IH].
Qed.

Lemma skip_shorter codes s s' :
  Forall (fun code => code <> EmptyString) codes ->
  Str.skip codes s = Some s' ->
  (String.length s' < String.length s)%nat.
Proof.
  intros Hcodes. unfold Str.skip.
  destruct (List.find _ codes) as [code|] eqn:Hfind; simpl; [|done].
  intros [= <-]. apply find_some in Hfind as [Hin Hp].
  apply prefix_length in Hp. rewrite drop_length.
  assert (code <> EmptyString) as Hne.
  { rewrite Forall_forall in Hcodes. apply Hcodes. by apply list_elem_of_In. }
  destruct code; [done|]. simpl in *. lia.
Qed.

Lemma skip_run_done codes fuel s :
  Forall (fun code => code <> EmptyString) codes ->
  (String.length s <= fuel)%nat ->
  Str.skip codes (Str.skip_run codes fuel s) = None.
Proof.
  intros Hcodes. revert s. induction fuel as [|fuel IH]; intros s Hlen; simpl.
  - destruct (Str.skip codes s) as [s'|] eqn:Hs; [|done].
    apply skip_shorter in Hs; [lia|done].
  - destruct (Str.skip codes s) as [s'|] eqn:Hs; [|done].
    apply IH. apply skip_shorter in Hs; [lia|done].
Qed.

Lemma rev_app_length s t :
  String.length (String.rev_app s t) = (String.length s + String.length t)%nat.
Proof.
  revert t. induction s as [|c s IH]; intros t; simpl; [done|].
  rewrite IH. simpl. lia.
Qed.

Lemma white_space_codes :
  Forall (fun code => code <> EmptyString) (Str.utf8 <$> Str.white_space)
  /\ Forall (fun code => code <> EmptyString)
       ((fun u => String.rev (Str.utf8 u)) <$> Str.white_space).
Proof. split; vm_compute; repeat constructor; discriminate. Qed.

(** The fuel of [trimStart] and [trimEnd] is enough: no white space is
    left at the end they trim. *)
Lemma trimStart_done s : Str.skip (Str.utf8 <$> Str.white_space) (Str.trimStart s) = None.
Proof. apply skip_run_done; [apply white_space_codes|done]. Qed.

Lemma trimEnd_done s :
  exists r, Str.trimEnd s = String.rev r
            /\ Str.skip ((fun u => String.rev (Str.utf8 u)) <$> Str.white_space) r = None.
Proof.
  eexists. split; [reflexivity|].
  apply skip_run_done; [apply white_space_codes|].
  unfold String.rev. rewrite rev_app_length. simpl. lia.
Qed.

(** Text made of one white-space character is blank. *)
Lemma trim_white_space :
  Forall (fun u => Str.trim (Str.utf8 u) = EmptyString) Str.white_space.
Proof. vm_compute. repeat constructor. Qed.

(** A declaration padded with no-break spaces, a byte-order mark and a
    line end. *)
Example trim_padded :
  Str.trim (Str.utf8 0xA0 +:+ " " +:+ Str.utf8 0xFEFF +:+ "func F()" +:+ Str.utf8 0x2003
            +:+ String Str.LF EmptyString)
  = "func F()".
Proof. vm_compute. reflexivity. Qed.

End StringFacts.

(** ** The extractor: looking a function up *)

(** A page that answers every [cheerio.load] (to run the extractor on a
    page given as data). *)
Definition webOf (page : Dom.Page) : Web :=
  {| cheerio_load := fun _ => page; encodeURIComponent := fun s => Ok s |}.

Section EachLoop.
Context {A St : Type}.

(** A property of the loop variables that every completed iteration
    keeps holds when the loop completes. *)
Lemma each_invariant (P : St -> Prop) (body : St -> A -> Result St) l s r :
  P s ->
  (forall s a s', Dom.Elem a ∈ l -> P s -> body s a = Ok s' -> P s') ->
  Dom.each body l s = Ok r ->
  P r.
Proof.
  revert s. induction l as [|[a|e] l IH]; intros s Hs Hstep; simpl.
  - by intros [= <-].
  - destruct (body s a) as [s'|e] eqn:Hb; simpl; [|done].
    apply IH.
    + eapply Hstep; [left|done|done].
    + intros ? ? ? Hin. apply Hstep. by right.
  - done.
Qed.

End EachLoop.

Section FunctionLookup.
Import GoDocFetcher.

(** The signature is empty or comes from an element named [functionName]. *)
Definition from_match (functions : list (Dom.Visit Dom.Function)) (functionName : string)
    (found : Found) : Prop :=
  signature found = EmptyString
  \/ exists el, Dom.Elem el ∈ functions
                /\ Dom.header_id el = Some functionName
                /\ signature found = Str.trim (Dom.declaration el).

Lemma scan_function_from_match functions functionName found :
  Dom.each (scan_function functionName) functions (mkFound EmptyString EmptyString [])
  = Ok found ->
  from_match functions functionName found.
Proof.
  apply (each_invariant (from_match functions functionName)); [by left|].
  intros s a s' Hin Hs. unfold scan_function.
  case_decide as Hid; [|by intros [= <-]].
  destruct (Dom.each scan_example (Dom.exampleDetails a) (examples s)); simpl; [|done].
  intros [= <-]. right. eauto.
Qed.

Lemma scan_function_no_signature functions functionName found :
  (forall el, Dom.Elem el ∈ functions -> Dom.header_id el = Some functionName ->
              Str.trim (Dom.declaration el) = EmptyString) ->
  Dom.each (scan_function functionName) functions (mkFound EmptyString EmptyString [])
  = Ok found ->
  signature found = EmptyString.
Proof.
  intros Hnone Hscan.
  destruct (scan_function_from_match _ _ _ Hscan) as [?|(el & Hin & Hid & ->)];
    [done|by apply Hnone].
Qed.

Context `{Web}.

(** C6.  On a fetched page: a returned [FunctionDoc] has a non-empty
    signature, read from an element whose id is the function name; when
    the scan completes and no such element has a non-empty signature, the
    call throws a [NOT_FOUND] error whose message contains the function
    name and the package path; and an exception [e] of the extraction is
    thrown on as it is when its code is [NOT_FOUND], and wrapped as the
    [details] of a [PARSE_ERROR] otherwise. *)
Theorem getFunctionDoc_lookup packagePath functionName version net html :
  fetchHTML (packageUrl packagePath version) net = Ok html ->
  let page := cheerio_load html in
  let call := getFunctionDoc packagePath functionName version net in
  (forall doc,
      call = Ok doc ->
      FunctionDoc.signature doc <> EmptyString
      /\ exists el, Dom.Elem el ∈ Dom.functions page
                    /\ Dom.header_id el = Some functionName
                    /\ FunctionDoc.signature doc = Str.trim (Dom.declaration el))
  /\ (forall found,
         Dom.each (scan_function functionName) (Dom.functions page)
           (mkFound EmptyString EmptyString []) = Ok found ->
         (forall el, Dom.Elem el ∈ Dom.functions page ->
                     Dom.header_id el = Some functionName ->
                     Str.trim (Dom.declaration el) = EmptyString) ->
         call = Throw (GoDocError (not_found_message functionName packagePath) "NOT_FOUND")
         /\ Str.includes functionName (not_found_message functionName packagePath) = true
         /\ Str.includes packagePath (not_found_message functionName packagePath) = true)
  /\ (forall e,
         extractFunctionDoc page packagePath functionName = Throw e ->
         call = Throw (if JS.strict_eq_string (exn_code e) "NOT_FOUND" then e
                       else GoDocErrorWith "Failed to parse function documentation"
                              "PARSE_ERROR" e)).
Proof.
  intros Hfetch page call. subst call. unfold getFunctionDoc. rewrite Hfetch.
  simpl. fold page. split; [|split].
  - intros doc Hdoc. unfold extractFunctionDoc in Hdoc.
    destruct (Dom.each _ (Dom.functions page) _) as [found|e] eqn:Hscan; simpl in Hdoc.
    + destruct (Str.truthy (signature found)) eqn:Hsig; simpl in Hdoc; [|done].
      injection Hdoc as <-. simpl. apply truthy_nonempty in Hsig.
      split; [done|].
      by destruct (scan_function_from_match _ _ _ Hscan) as [Hempty|?].
    + by destruct (JS.strict_eq_string (exn_code e) "NOT_FOUND").
  - intros found Hscan Hnone. split; [|split].
    + unfold extractFunctionDoc. rewrite Hscan. simpl.
      by rewrite (scan_function_no_signature _ _ _ Hnone Hscan).
    + exact (not_found_names_function functionName packagePath).
    + exact (not_found_names_package functionName packagePath).
  - intros e He. rewrite He. simpl.
    by destruct (JS.strict_eq_string (exn_code e) "NOT_FOUND").
Qed.

End FunctionLookup.

(** A page with two functions, the second without a declaration. *)
Definition fmtPage : Dom.Page :=
  Dom.mkPage
    [Dom.Elem (Dom.mkFunction (Some "Printf")
                 " func Printf(format string, a ...any) (n int, err error) "
                 "Printf formats according to a format specifier." []);
     Dom.Elem (Dom.mkFunction (Some "Println") "  " "Println formats using the defaults." [])]
    (fun _ => []).

Lemma getFunctionDoc_lookup_witness :
  @GoDocFetcher.getFunctionDoc (webOf fmtPage) "fmt" "Println" JUndefined
    (Sample.response "<html></html>")
  = Throw (GoDocError "Function Println not found in fmt" "NOT_FOUND").
Proof.
  destruct (@getFunctionDoc_lookup (webOf fmtPage) "fmt" "Println" JUndefined
              (Sample.response "<html></html>") "<html></html>" eq_refl)
    as (_ & Hnone & _).
  eapply Hnone.
  - vm_compute. reflexivity.
  - intros el Hin Hid.
    apply elem_of_cons in Hin as [[= ->]|Hin]; [discriminate Hid|].
    apply elem_of_cons in Hin as [[= ->]|Hin]; [reflexivity|].
    by apply elem_of_nil in Hin.
Defined.

(** On that page [Printf] is found, with its signature trimmed. *)
Example getFunctionDoc_Printf :
  FunctionDoc.signature <$>
    @GoDocFetcher.getFunctionDoc (webOf fmtPage) "fmt" "Printf" JUndefined
      (Sample.response "<html></html>")
  = Ok "func Printf(format string, a ...any) (n int, err error)".
Proof. vm_compute. reflexivity. Qed.

(** A declaration that holds a no-break space and nothing else is blank:
    the function is not found. *)
Example getFunctionDoc_blank_declaration :
  @GoDocFetcher.getFunctionDoc
    (webOf (Dom.mkPage
              [Dom.Elem (Dom.mkFunction (Some "Printf") (Str.utf8 0xA0)
                           "Printf formats according to a format specifier." [])]
              (fun _ => [])))
    "fmt" "Printf" JUndefined (Sample.response "<html></html>")
  = Throw (GoDocError "Function Printf not found in fmt" "NOT_FOUND").
Proof. vm_compute. reflexivity. Qed.

(** ** The extractor: search results *)
Section SearchSelectors.
Import GoDocFetcher.

(** The scan of the matches of one selector, from empty results. *)
Definition scan_selector (page : Dom.Page) (selector : string)
  : Result (list SearchResult.t * bool) :=
  Dom.each scan_snippet (Dom.select page selector) ([], false).

(** A match the scan accepts into empty results. *)
Definition acceptable (el : Dom.Snippet) : bool :=
  Str.truthy (snippet_path el) && Str.truthy (snippet_name el).

(** The extraction as the design document words it: stop at the first
    selector that matches any element at all. *)
Fixpoint stop_at_first_match (page : Dom.Page) (selectors : list string)
  : Result (list SearchResult.t) :=
  match selectors with
  | [] => Ok []
  | selector :: rest =>
      match Dom.select page selector with
      | [] => stop_at_first_match page rest
      | _ => acc ← scan_selector page selector; mret (fst acc)
      end
  end.

(** The test of the scan on a match, given the results so far. *)
Definition accepted (results : list SearchResult.t) (el : Dom.Snippet) : bool :=
  acceptable el && negb (has_path (snippet_path el) results).

Lemma scan_snippet_eq results found el :
  scan_snippet (results, found) el =
    Ok (if accepted results el
        then (results ++ [SearchResult.mk (snippet_path el) (snippet_name el)
                            (snippet_synopsis el)], true)
        else (results, found)).
Proof. unfold scan_snippet, accepted, acceptable. by destruct (_ && _ && _). Qed.

Local Arguments scan_snippet : simpl never.

Lemma scan_found_stays l results r :
  Dom.each scan_snippet l (results, true) = Ok r -> snd r = true.
Proof.
  revert results. induction l as [|[el|e] l IH]; intros results; simpl.
  - by intros [= <-].
  - rewrite scan_snippet_eq. simpl. destruct (accepted results el); apply IH.
  - done.
Qed.

(** A completed scan that accepted nothing leaves no results. *)
Lemma scan_nothing_found l results :
  Dom.each scan_snippet l ([], false) = Ok (results, false) -> results = [].
Proof.
  induction l as [|[el|e] l IH]; simpl.
  - by intros [= <-].
  - rewrite scan_snippet_eq. simpl. destruct (accepted [] el); [|done].
    intros Hr. by apply scan_found_stays in Hr.
  - done.
Qed.

(** A scan without exceptions accepts something exactly when a match has
    a non-empty path and a non-empty name. *)
Lemma scan_accepts_first l results found :
  Dom.each scan_snippet l ([], false) = Ok (results, found) ->
  found = true <-> exists el, Dom.Elem el ∈ l /\ acceptable el = true.
Proof.
  induction l as [|[el|e] l IH]; simpl.
  - intros [= <- <-]. split; [done|].
    intros (el & Hin & _). by apply elem_of_nil in Hin.
  - rewrite scan_snippet_eq. simpl. unfold accepted. simpl. rewrite andb_true_r.
    destruct (acceptable el) eqn:Hel.
    + intros Hr. apply scan_found_stays in Hr. simpl in Hr. subst found.
      split; [|done]. intros _. exists el. split; [left|done].
    + intros Hr. rewrite (IH Hr). split.
      * intros (el' & Hin & Hel'). exists el'. split; [by right|done].
      * intros (el' & Hin & Hel').
        apply elem_of_cons in Hin as [[= ->]|Hin]; [congruence|eauto].
  - done.
Qed.

Lemma search_loop_skip page selectors rest :
  (forall s, s ∈ selectors -> scan_selector page s = Ok ([], false)) ->
  search_loop page (selectors ++ rest) ([], false) = search_loop page rest ([], false).
Proof.
  induction selectors as [|s selectors IH]; intros Hskip; simpl; [done|].
  pose proof (Hskip s ltac:(left)) as Hs. unfold scan_selector in Hs.
  rewrite Hs. simpl. apply IH. intros ? ?. apply Hskip. by right.
Qed.

Lemma extract_stops page before selector after results :
  searchSelectors = before ++ selector :: after ->
  (forall s, s ∈ before -> scan_selector page s = Ok ([], false)) ->
  scan_selector page selector = Ok (results, true) ->
  extractSearchResults page = Ok results.
Proof.
  intros Hsplit Hbefore Hsel. unfold extractSearchResults. rewrite Hsplit.
  rewrite search_loop_skip by done. simpl.
  unfold scan_selector in Hsel. by rewrite Hsel.
Qed.

Lemma extract_nothing page :
  (forall s, s ∈ searchSelectors -> scan_selector page s = Ok ([], false)) ->
  extractSearchResults page = Ok [].
Proof.
  intros Hall. unfold extractSearchResults.
  pose proof (search_loop_skip page searchSelectors [] Hall) as Hskip.
  rewrite app_nil_r in Hskip. by rewrite Hskip.
Qed.

Context `{Web}.

(** C7, as the code has it.  On a fetched page, the search stops at the
    first of the four selectors whose scan accepts a result, which takes
    a match with a non-empty path and a non-empty name: the results are
    those of that selector alone.  Selectors whose scan accepts nothing
    are passed over, whatever they match; when no selector accepts
    anything the results are empty. *)
Theorem searchPackages_first_accepting_selector query limit net url html :
  searchUrl query limit = Ok url ->
  fetchHTML url net = Ok html ->
  let page := cheerio_load html in
  (forall before selector after results,
      searchSelectors = before ++ selector :: after ->
      (forall s, s ∈ before -> scan_selector page s = Ok ([], false)) ->
      scan_selector page selector = Ok (results, true) ->
      searchPackages query limit net = Ok results)
  /\ ((forall s, s ∈ searchSelectors -> scan_selector page s = Ok ([], false)) ->
      searchPackages query limit net = Ok [])
  /\ (forall selector results found,
         scan_selector page selector = Ok (results, found) ->
         (found = true <->
          exists el, Dom.Elem el ∈ Dom.select page selector /\ acceptable el = true)
         /\ (found = false -> results = [])).
Proof.
  intros Hurl Hfetch page. unfold searchPackages. rewrite Hurl. simpl.
  rewrite Hfetch. simpl. fold page.
  split; [|split].
  - intros before selector after results Hsel Hbefore Hscan.
    by rewrite (extract_stops page before selector after results).
  - intros Hall. by rewrite extract_nothing.
  - intros selector results found Hscan. split.
    + by eapply scan_accepts_first.
    + intros ->. by eapply scan_nothing_found.
Qed.

End SearchSelectors.

(** A results page on which [.SearchSnippet] matches a box without a link
    and the package sits in an [article]. *)
Definition linklessSnippet : Dom.Snippet :=
  Dom.mkSnippet None EmptyString "Sponsored" EmptyString EmptyString EmptyString EmptyString.

Definition fmtArticle : Dom.Snippet :=
  Dom.mkSnippet (Some "/fmt@go1.21.0") " fmt " EmptyString EmptyString EmptyString
    "Package fmt implements formatted I/O." EmptyString.

Definition resultsPage : Dom.Page :=
  Dom.mkPage []
    (fun selector =>
       if decide (selector = ".SearchSnippet") then [Dom.Elem linklessSnippet]
       else if decide (selector = "article") then [Dom.Elem fmtArticle]
       else []).

Definition fmtResult : SearchResult.t :=
  SearchResult.mk "fmt" "fmt" "Package fmt implements formatted I/O.".

Lemma searchPackages_first_accepting_selector_witness :
  @GoDocFetcher.searchPackages (webOf resultsPage) "fmt" 10 (Sample.response "<html></html>")
  = Ok [fmtResult].
Proof.
  destruct (@searchPackages_first_accepting_selector (webOf resultsPage) "fmt" 10
              (Sample.response "<html></html>")
              "https://pkg.go.dev/search?q=fmt&limit=10" "<html></html>" eq_refl eq_refl)
    as (Hstop & _ & _).
  apply (Hstop [".SearchSnippet";
                "[data-test-id=" +:+ GoDocFetcher.dquote +:+ "snippet-title"
                +:+ GoDocFetcher.dquote +:+ "]";
                ".SearchResult"] "article" []).
  - reflexivity.
  - intros s Hs.
    repeat (apply elem_of_cons in Hs as [->|Hs]; [vm_compute; reflexivity|]).
    by apply elem_of_nil in Hs.
  - vm_compute. reflexivity.
Defined.

(** C7 as stated fails on that page: the first selector matches an
    element, so the search should stop there with nothing; the code goes on
    and returns the result of the fourth selector. *)
Lemma searchPackages_passes_over_matches :
  Dom.select resultsPage ".SearchSnippet" <> []
  /\ stop_at_first_match resultsPage GoDocFetcher.searchSelectors = Ok []
  /\ @GoDocFetcher.searchPackages (webOf resultsPage) "fmt" 10
       (Sample.response "<html></html>") = Ok [fmtResult]
  /\ @GoDocFetcher.searchPackages (webOf resultsPage) "fmt" 10
       (Sample.response "<html></html>")
     <> stop_at_first_match resultsPage GoDocFetcher.searchSelectors.
Proof.
  split; [vm_compute; discriminate|].
  split; [vm_compute; reflexivity|].
  split; [vm_compute; reflexivity|].
  vm_compute. discriminate.
Qed.

(** ** The request handlers: vocabulary *)
Module Scheme.
Import Server.


(** The key scheme as the design document gives it:
    [<kind>:<path>], [<kind>:<path>@<version>], [<kind>:<path>:<symbol>],
    [<kind>:<path>@<version>:<symbol>]. *)
Definition key (kind path : string) (version symbol : option string) : string :=
  match version, symbol with
  | None, None => kind +:+ ":" +:+ path
  | Some v, None => kind +:+ ":" +:+ path +:+ "@" +:+ v
  | None, Some s => kind +:+ ":" +:+ path +:+ ":" +:+ s
  | Some v, Some s => kind +:+ ":" +:+ path +:+ "@" +:+ v +:+ ":" +:+ s
  end.

(** The version qualifier of a key: the resolved version, if there is one. *)
Definition qualifier (version : JSValue) : option string :=
  if JS.truthy version then Some (JS.toString version) else None.




(** The package path of a call whose [version] argument is ["latest"]. *)
Definition asks_latest (call : ToolCall) : option string :=
  match call with
  | get_package_doc p (Some v) | get_function_doc p _ (Some v)
  | get_type_doc p _ (Some v) | get_package_examples p (Some v) =>
      if decide (v = "latest") then Some p else None
  | _ => None
  end.

(** The extractor call of a document request, and its outcome. *)
Definition extraction `{Extractor} (call : ToolCall) (version : JSValue)
  : option (Call * Result Payload) :=
  match call with
  | get_package_doc p _ =>
      Some (CallGetPackageDoc p version, PackageDocP <$> getPackageDoc p version)
  | get_function_doc p f _ =>
      Some (CallGetFunctionDoc p f version, FunctionDocP <$> getFunctionDoc p f version)
  | get_type_doc p t _ =>
      Some (CallGetTypeDoc p t version, TypeDocP <$> getTypeDoc p t version)
  | get_package_examples p _ =>
      Some (CallGetPackageExamples p version, ExamplesP <$> getPackageExamples p version)
  | search_packages q l =>
      Some (CallSearchPackages q (limit_arg l),
            SearchResultsP <$> searchPackages q (limit_arg l))
  | get_package_versions _ | unknown_tool _ => None
  end.

End Scheme.

(** ** The request handlers: cache keys *)
Section HandlerKeys.
Context `{Platform} `{Server.Extractor} {S : Type}
        `{CacheStore S (CacheEntry.t Server.Payload)}.
Variable env : Server.Env.
Import Server Scheme.

Lemma bind_run {A B} (m : M S A) (f : A -> M S B) w :
  (m ≫= f) w =
    match m w with
    | (Ok a, w') => f a w'
    | (Throw e, w') => (Throw e, w')
    end.
Proof. reflexivity. Qed.

Lemma fmap_await_run {A} (f : A -> Payload) (c : Call) (o : Result A) (w : World S) :
  (f <$> await c o) w
  = (f <$> o, mkWorld (cache w) (moduleIndex w) (calls w ++ [c])).
Proof. unfold fmap, M_fmap, await. by destruct o. Qed.
















End HandlerKeys.

(** ** The request handlers: resolve, look up, fetch, store *)
Section HandlerFlow.
Context `{Platform} `{Server.Extractor} {S : Type}
        `{CacheStore S (CacheEntry.t Server.Payload)}.
Variable env : Server.Env.
Import Server Scheme.

Lemma resolve_latest p (w : World S) latest st' asked :
  ModuleIndexFetcher.getLatestVersion p (now_resolve env) (index_net env) (moduleIndex w)
  = (Ok latest, st', asked) ->
  resolve env p (JString "latest") w
  = (Ok (JS.or latest JUndefined),
     mkWorld (cache w) st' (calls w ++ [CallGetLatestVersion p])).
Proof.
  intros Hl. unfold resolve. simpl. rewrite bind_run.
  unfold moduleIndex_getLatestVersion. by rewrite Hl.
Qed.

Lemma get_or_fetch_hit key ttl fetch (w : World S) doc :
  (DocumentationCache.get key (now_lookup env) (cache w)).1 = Ok (Some doc) ->
  doc <> NullP ->
  get_or_fetch env key ttl fetch w
  = (Ok doc,
     mkWorld (DocumentationCache.get key (now_lookup env) (cache w)).2
       (moduleIndex w) (calls w ++ [CallCacheGet key])).
Proof.
  intros Hget Hdoc. unfold get_or_fetch. rewrite bind_run. unfold cache_get.
  destruct (DocumentationCache.get key (now_lookup env) (cache w)) as [r c1].
  simpl in *. subst r. by destruct doc.
Qed.

Lemma get_or_fetch_miss {A} key ttl (f : A -> Payload) xcall (outcome : Result A)
    (w : World S) d0 a :
  (DocumentationCache.get key (now_lookup env) (cache w)).1 = Ok d0 ->
  truthy d0 = false ->
  outcome = Ok a ->
  get_or_fetch env key ttl (f <$> await xcall outcome) w
  = (Ok (f a),
     mkWorld
       (DocumentationCache.set key (f a) ttl (now_store env)
          (DocumentationCache.get key (now_lookup env) (cache w)).2).2
       (moduleIndex w)
       (calls w ++ [CallCacheGet key; xcall; CallCacheSet key (f a) ttl])).
Proof.
  intros Hget Hmiss ->. unfold get_or_fetch. rewrite bind_run. unfold cache_get.
  destruct (DocumentationCache.get key (now_lookup env) (cache w)) as [r c1].
  simpl in *. subst r. rewrite Hmiss.
  rewrite bind_run, fmap_await_run. simpl.
  rewrite bind_run. unfold cache_set. simpl.
  destruct (set_returns key (f a) ttl (now_store env) c1) as [b Hb].
  destruct (DocumentationCache.set key (f a) ttl (now_store env) c1) as [r c3].
  simpl in *. subst r. simpl. by rewrite <- !app_assoc.
Qed.

(** The handlers only wrap errors: a returned document goes through. *)
Lemma callTool_returns call (w : World S) doc w' :
  dispatch env call w = (Ok doc, w') -> callTool env (Some call) w = (Ok doc, w').
Proof. intros Hd. unfold callTool, catch. by rewrite Hd. Qed.

Lemma asks_latest_cases call p :
  asks_latest call = Some p ->
  call = get_package_doc p (Some "latest")
  \/ (exists f, call = get_function_doc p f (Some "latest"))
  \/ (exists t, call = get_type_doc p t (Some "latest"))
  \/ call = get_package_examples p (Some "latest").
Proof.
  destruct call as [q [v|]|q f [v|]|q t [v|]|q l|q [v|]|q|name]; simpl; try done;
    case_decide; try done; intros [= <-]; subst v; eauto 6.
Qed.

(** C2.  A request whose version is ["latest"] first asks the index
    client for the latest version of the package; with the answer (or
    with no version, when the answer is empty) it builds its cache key
    and looks the cache up.  On a hit it returns the cached document and
    calls nothing else.  On a miss it calls the extractor with the
    resolved version, hands the result to [cache.set] under the same key
    without a TTL, so that the default applies, and returns it.  A search
    or a versions request that misses stores its result with a TTL of
    300 seconds. *)
Theorem latest_request_get_or_fetch :
  (forall call p (w : World S) latest st' asked,
      asks_latest call = Some p ->
      ModuleIndexFetcher.getLatestVersion p (now_resolve env) (index_net env)
        (moduleIndex w) = (Ok latest, st', asked) ->
      let version := JS.or latest JUndefined in
      let resolved := mkWorld (cache w) st' (calls w ++ [CallGetLatestVersion p]) in
      exists key xcall outcome,
        cacheKey_of call version = Some key
        /\ extraction call version = Some (xcall, outcome)
        /\ (JS.truthy latest = false -> version = JUndefined /\ qualifier version = None)
        /\ (forall doc,
               (DocumentationCache.get key (now_lookup env) (cache w)).1 = Ok (Some doc) ->
               doc <> NullP ->
               callTool env (Some call) w
               = (Ok doc,
                  mkWorld (DocumentationCache.get key (now_lookup env) (cache w)).2 st'
                    (calls resolved ++ [CallCacheGet key])))
        /\ (forall d0 doc,
               (DocumentationCache.get key (now_lookup env) (cache w)).1 = Ok d0 ->
               truthy d0 = false ->
               outcome = Ok doc ->
               callTool env (Some call) w
               = (Ok doc,
                  mkWorld
                    (DocumentationCache.set key doc None (now_store env)
                       (DocumentationCache.get key (now_lookup env) (cache w)).2).2
                    st'
                    (calls resolved
                       ++ [CallCacheGet key; xcall; CallCacheSet key doc None]))))
  /\ (forall query limit (w : World S) d0 results,
         let key := search_cacheKey query (limit_arg limit) in
         (DocumentationCache.get key (now_lookup env) (cache w)).1 = Ok d0 ->
         truthy d0 = false ->
         searchPackages query (limit_arg limit) = Ok results ->
         callTool env (Some (search_packages query limit)) w
         = (Ok (SearchResultsP results),
            mkWorld
              (DocumentationCache.set key (SearchResultsP results) (Some 300)
                 (now_store env)
                 (DocumentationCache.get key (now_lookup env) (cache w)).2).2
              (moduleIndex w)
              (calls w ++ [CallCacheGet key; CallSearchPackages query (limit_arg limit);
                           CallCacheSet key (SearchResultsP results) (Some 300)])))
  /\ (forall p (w : World S) d0 versions st' asked,
         let key := versions_cacheKey p in
         (DocumentationCache.get key (now_lookup env) (cache w)).1 = Ok d0 ->
         truthy d0 = false ->
         ModuleIndexFetcher.getPackageVersions p (now_resolve env) (index_net env)
           (moduleIndex w) = (Ok (Some versions), st', asked) ->
         callTool env (Some (get_package_versions p)) w
         = (Ok (VersionsP versions),
            mkWorld
              (DocumentationCache.set key (VersionsP versions) (Some 300)
                 (now_store env)
                 (DocumentationCache.get key (now_lookup env) (cache w)).2).2
              st'
              (calls w ++ [CallCacheGet key; CallGetPackageVersions p;
                           CallCacheSet key (VersionsP versions) (Some 300)])))
  /\ (forall on_full (c : NodeDocCache Payload) key value ttl now,
         ~ full c ->
         DocumentationCache.defaultTTL c <> 0 ->
         let seconds :=
           JS.num_or ttl (DocumentationCache.defaultTTL c) in
         NodeCache.data
           (DocumentationCache.cache
              (@DocumentationCache.set Payload _ (nodeCacheStore on_full Payload)
                 key value ttl now c).2) !! key
         = Some (NodeCache.mkWrapped (CacheEntry.mk value now seconds)
                   (now + seconds * 1000))
         /\ (ttl = None -> seconds = DocumentationCache.defaultTTL c)
         /\ (ttl = Some 300 -> seconds = 300)).
Proof.
  split; [|split; [|split]].
  - intros call p w latest st' asked Hask Hlatest version resolved.
    pose proof (resolve_latest p w latest st' asked Hlatest) as Hres.
    fold version resolved in Hres.
    assert (Hnone : JS.truthy latest = false ->
                    version = JUndefined /\ qualifier version = None).
    { intros Hl. subst version. unfold JS.or. by rewrite Hl. }
    destruct (asks_latest_cases call p Hask) as [ -> | [ [f ->] | [ [t ->] | -> ] ] ];
      do 3 eexists;
      (split; [reflexivity|]); (split; [reflexivity|]); (split; [exact Hnone|]);
      (split;
       [ intros doc Hget Hdoc; apply callTool_returns; cbn [dispatch version_arg];
         rewrite bind_run, Hres; by apply get_or_fetch_hit
       | intros d0 doc Hget Hmiss Hout; apply callTool_returns;
         cbn [dispatch version_arg]; rewrite bind_run, Hres ]).
    + destruct (getPackageDoc p version) as [d|e] eqn:Hx; [|done].
      injection Hout as <-.
      apply (get_or_fetch_miss _ None PackageDocP _ (Ok d) resolved d0 d Hget Hmiss eq_refl).
    + destruct (getFunctionDoc p f version) as [d|e] eqn:Hx; [|done].
      injection Hout as <-.
      apply (get_or_fetch_miss _ None FunctionDocP _ (Ok d) resolved d0 d Hget Hmiss eq_refl).
    + destruct (getTypeDoc p t version) as [d|e] eqn:Hx; [|done].
      injection Hout as <-.
      apply (get_or_fetch_miss _ None TypeDocP _ (Ok d) resolved d0 d Hget Hmiss eq_refl).
    + destruct (getPackageExamples p version) as [d|e] eqn:Hx; [|done].
      injection Hout as <-.
      apply (get_or_fetch_miss _ None ExamplesP _ (Ok d) resolved d0 d Hget Hmiss eq_refl).
  - intros query limit w d0 results key Hget Hmiss Hout.
    apply callTool_returns. cbn [dispatch].
    by apply (get_or_fetch_miss _ (Some 300) SearchResultsP _ _ w d0 results).
  - intros p w d0 versions st' asked key Hget Hmiss Hpv.
    apply callTool_returns. cbn [dispatch]. rewrite bind_run.
    unfold get_or_fetch. rewrite bind_run. unfold cache_get.
    fold key.
    destruct (DocumentationCache.get key (now_lookup env) (cache w)) as [r c1].
    simpl in *. subst r. rewrite Hmiss.
    rewrite bind_run. unfold fmap, M_fmap, moduleIndex_getPackageVersions. simpl.
    rewrite Hpv. simpl. rewrite bind_run. unfold cache_set. simpl.
    destruct (set_returns key (VersionsP versions) (Some 300) (now_store env) c1)
      as [b Hb].
    destruct (DocumentationCache.set key (VersionsP versions) (Some 300)
                (now_store env) c1) as [r c3].
    simpl in *. subst r. simpl. by rewrite <- !app_assoc.
  - intros on_full c key value ttl now Hroom Hd seconds.
    split; [by apply set_stores|]. subst seconds. split; by intros ->.
Qed.

End HandlerFlow.

(** An extractor that serves the two sample pages. *)
Definition sampleExtractor : Server.Extractor := {|
  Server.getPackageDoc p v :=
    Ok (PackageDoc.mk (GoDocFetcher.last_segment "/" p) p (Scheme.qualifier v)
          "No description available" None None None None);
  Server.getFunctionDoc p f v :=
    @GoDocFetcher.getFunctionDoc (webOf fmtPage) p f v (Sample.response "<html></html>");
  Server.getTypeDoc p t v :=
    Throw (GoDocError ("Type " +:+ t +:+ " not found in " +:+ p) "NOT_FOUND");
  Server.searchPackages q l :=
    @GoDocFetcher.searchPackages (webOf resultsPage) q l (Sample.response "<html></html>");
  Server.getPackageExamples p v := Ok [];
|}.

Definition sampleEnv : Server.Env :=
  Server.mkEnv 0 (Sample.response ginIndex) 1 2.

(** A server that has just started. *)
Definition startWorld : Server.World (NodeCache.Cache (CacheEntry.t Server.Payload)) :=
  Server.mkWorld
    (@DocumentationCache.constructor Server.Payload _ (nodeCacheStore NodeCache.Refuse Server.Payload) None)
    ModuleIndexFetcher.initial [].

Definition ginDoc : PackageDoc.t :=
  PackageDoc.mk "gin" "github.com/gin-gonic/gin" (Some "v1.9.1")
    "No description available" None None None None.

Lemma latest_request_get_or_fetch_witness :
  let run :=
    @Server.callTool Sample.platform sampleExtractor _ (nodeCacheStore NodeCache.Refuse Server.Payload)
      sampleEnv
      (Some (Server.get_package_doc "github.com/gin-gonic/gin" (Some "latest")))
      startWorld in
  run.1 = Ok (Server.PackageDocP ginDoc)
  /\ Server.calls run.2
     = [Server.CallGetLatestVersion "github.com/gin-gonic/gin";
        Server.CallCacheGet "package:github.com/gin-gonic/gin@v1.9.1";
        Server.CallGetPackageDoc "github.com/gin-gonic/gin" (JString "v1.9.1");
        Server.CallCacheSet "package:github.com/gin-gonic/gin@v1.9.1"
          (Server.PackageDocP ginDoc) None].
Proof.
  destruct (@latest_request_get_or_fetch Sample.platform sampleExtractor _
              (nodeCacheStore NodeCache.Refuse Server.Payload) sampleEnv) as [Hlatest _].
  destruct (Hlatest (Server.get_package_doc "github.com/gin-gonic/gin" (Some "latest"))
              "github.com/gin-gonic/gin" startWorld (JString "v1.9.1")
              (ModuleIndexFetcher.mkState (Some ginRows) 0) true eq_refl)
    as (key & xcall & outcome & Hkey & Hx & _ & _ & Hmiss).
  { vm_compute. reflexivity. }
  injection Hkey as <-. injection Hx as <- <-.
  rewrite (Hmiss None (Server.PackageDocP ginDoc)); [|reflexivity..].
  split; reflexivity.
Defined.

(** A versions request for a package without rows: the [null] answer is
    stored for 300 seconds like any other, and the request then fails; the
    error it raises passes through [handleError] like the others. *)
Example versions_request_without_rows :
  let run :=
    @Server.callTool Sample.platform sampleExtractor _ (nodeCacheStore NodeCache.Refuse Server.Payload)
      sampleEnv (Some (Server.get_package_versions "no/such/package")) startWorld in
  run.1 = Throw (Server.McpError Server.InternalError
                   "An error occurred while fetching documentation")
  /\ Server.calls run.2
     = [Server.CallCacheGet "versions:no/such/package";
        Server.CallGetPackageVersions "no/such/package";
        Server.CallCacheSet "versions:no/such/package" Server.NullP (Some 300)].
Proof. vm_compute. split; reflexivity. Qed.

(** The same request once more, on a cache that holds the
    document: nothing is fetched. *)
Example latest_request_hit :
  let first :=
    @Server.callTool Sample.platform sampleExtractor _ (nodeCacheStore NodeCache.Refuse Server.Payload)
      sampleEnv
      (Some (Server.get_package_doc "github.com/gin-gonic/gin" (Some "latest")))
      startWorld in
  let second :=
    @Server.callTool Sample.platform sampleExtractor _ (nodeCacheStore NodeCache.Refuse Server.Payload)
      (Server.mkEnv 10 (Http.Rejects (Error "offline")) 11 12)
      (Some (Server.get_package_doc "github.com/gin-gonic/gin" (Some "latest")))
      (Server.mkWorld (Server.cache first.2) (Server.moduleIndex first.2) []) in
  second.1 = Ok (Server.PackageDocP ginDoc)
  /\ Server.calls second.2
     = [Server.CallGetLatestVersion "github.com/gin-gonic/gin";
        Server.CallCacheGet "package:github.com/gin-gonic/gin@v1.9.1"].
Proof. vm_compute. split; reflexivity. Qed.

(** * The rest of the extractor *)

(** ** Strings: prefixes, segments, single characters *)
Section SegmentFacts.

Lemma append_cons c s t : String c s +:+ t = String c (s +:+ t).
Proof. reflexivity. Qed.

Lemma append_nil t : EmptyString +:+ t = t.
Proof. reflexivity. Qed.

Lemma prefix_drop p s :
  String.prefix p s = true -> p +:+ Str.drop (String.length p) s = s.
Proof.
  revert s. induction p as [|c p IH]; intros s; [done|].
  destruct s as [|d s]; [done|].
  cbn [String.prefix String.length Str.drop]. rewrite append_cons.
  destruct (Ascii.ascii_dec c d) as [->|]; [|done].
  intros Hp. by rewrite IH.
Qed.

(** Taking a prefix out and putting it back. *)
Lemma remove_first_prefix p s :
  Str.startsWith p s = true -> p +:+ Str.remove_first p s = s.
Proof.
  unfold Str.startsWith. intros Hp.
  destruct s; cbn [Str.remove_first]; rewrite Hp; by apply prefix_drop.
Qed.

Lemma includes_char_cons c d s :
  Str.includes (String c EmptyString) (String d s)
  = bool_decide (c = d) || Str.includes (String c EmptyString) s.
Proof.
  cbn [Str.includes String.prefix].
  destruct (Ascii.ascii_dec c d) as [->|Hne].
  - rewrite bool_decide_eq_true_2 by done. by destruct s.
  - by rewrite bool_decide_eq_false_2.
Qed.


(** The piece before the first separator holds no separator. *)
Lemma first_segment_no_sep sep s :
  Str.includes (String sep EmptyString) (GoDocFetcher.first_segment sep s) = false.
Proof.
  unfold GoDocFetcher.first_segment.
  induction s as [|c s IH]; cbn [Str.split]; [done|].
  case_decide as Hc; [done|].
  destruct (Str.split sep s) as [|x xs];
    rewrite includes_char_cons, bool_decide_eq_false_2 by congruence; done.
Qed.




Lemma or_nonempty_r a b : b <> EmptyString -> Str.or a b <> EmptyString.
Proof. unfold Str.or. destruct a; simpl; done. Qed.

Lemma or_undefined_nonempty x : GoDocFetcher.or_undefined x <> Some EmptyString.
Proof. by destruct x. Qed.

Lemma or_undefined_some x y :
  GoDocFetcher.or_undefined x = Some y -> y = x /\ y <> EmptyString.
Proof. destruct x; simpl; [done|]. by intros [= <-]. Qed.

Lemma nonempty_or_undefined_some {A} (l l' : list A) :
  GoDocFetcher.nonempty_or_undefined l = Some l' -> l' = l /\ l <> [].
Proof. destruct l; simpl; [done|]. by intros [= <-]. Qed.

Lemma strict_eq_string_true v s :
  JS.strict_eq_string v s = true -> v = JString s.
Proof.
  destruct v; simpl; try done. intros Hs%bool_decide_eq_true. by subst.
Qed.

End SegmentFacts.

(** ** What the extractor throws *)

(** An error that carries a [code]. *)
Definition coded (e : Exn) : Prop := JS.truthy (exn_code e) = true.

(** The error [fetchHTML] makes of a response that is not ok and not 404,
    before its own [catch] wraps it. *)
Definition http_error (resp : Http.Response) : Exn :=
  Error ("HTTP " +:+ Str.of_Z (Http.status resp) +:+ ": " +:+ Http.statusText resp).

(** The request fails with [e]: [fetch] rejects with it, or the answer is
    ok and reading its body rejects with it. *)
Definition request_fails (net : Http.Outcome) (e : Exn) : Prop :=
  net = Http.Rejects e
  \/ exists resp, net = Http.Resolves resp /\ Http.ok resp = true /\ Http.text resp = Throw e.

(** What [fetchHTML] throws for [url], and when: its timeout for a failure
    named [AbortError]; its not-found for a 404 answer; a network error
    around a cause without a code, a failure of the request or the error
    made of another status; a failure of the request that came with a code,
    as it is. *)
Definition fetch_error (url : string) (net : Http.Outcome) (e : Exn) : Prop :=
  (e = GoDocError ("Request timeout: " +:+ url) "TIMEOUT"
   /\ exists e0, request_fails net e0 /\ exn_name e0 = "AbortError")
  \/ (e = GoDocError ("Package not found: " +:+ url) "NOT_FOUND"
      /\ exists resp, net = Http.Resolves resp /\ Http.ok resp = false
                      /\ Http.status resp = 404)
  \/ (exists cause,
         e = GoDocErrorWith ("Network error: " +:+ exn_message cause) "NETWORK_ERROR" cause
         /\ ~ coded cause
         /\ exn_name cause <> "AbortError"
         /\ (request_fails net cause
             \/ exists resp, net = Http.Resolves resp /\ Http.ok resp = false
                             /\ Http.status resp <> 404 /\ cause = http_error resp))
  \/ (request_fails net e /\ exn_name e <> "AbortError" /\ coded e).

Section FetchErrors.
Import GoDocFetcher.

(** The [catch] of [fetchHTML], on a failure of the request. *)
Lemma fetchHTML_request_fails url net e0 :
  request_fails net e0 ->
  fetchHTML url net
  = if decide (exn_name e0 = "AbortError") then
      Throw (GoDocError ("Request timeout: " +:+ url) "TIMEOUT")
    else if JS.truthy (exn_code e0) then Throw e0
    else Throw (GoDocErrorWith ("Network error: " +:+ exn_message e0) "NETWORK_ERROR" e0).
Proof.
  unfold fetchHTML. intros [->|(resp & -> & Hok & Ht)]; simpl; [done|].
  by rewrite Hok, Ht.
Qed.

Lemma fetchHTML_throws url net e :
  fetchHTML url net = Throw e -> coded e /\ fetch_error url net e.
Proof.
  destruct net as [resp|e0].
  - destruct (Http.ok resp) eqn:Hok.
    + destruct (Http.text resp) as [html|e0] eqn:Ht.
      { unfold fetchHTML. simpl. by rewrite Hok, Ht. }
      assert (request_fails (Http.Resolves resp) e0) as Hfail by (right; by exists resp).
      rewrite (fetchHTML_request_fails url _ _ Hfail).
      case_decide as Hn.
      * intros [= <-]. split; [done|]. left. split; [done|]. by exists e0.
      * destruct (JS.truthy (exn_code e0)) eqn:Hc; intros [= <-].
        -- split; [done|]. do 3 right. done.
        -- split; [done|]. right; right; left. exists e0. unfold coded.
           split; [done|]. split; [congruence|]. split; [done|by left].
    + unfold fetchHTML. simpl. rewrite Hok. simpl.
      destruct (Http.status resp =? 404) eqn:Hs; simpl; intros [= <-].
      * split; [done|]. right; left. split; [done|]. exists resp.
        split; [done|]. split; [done|]. by apply Z.eqb_eq.
      * split; [done|]. right; right; left. exists (http_error resp).
        split; [reflexivity|]. split; [done|]. split; [done|]. right. exists resp.
        split; [done|]. split; [done|]. split; [by apply Z.eqb_neq|done].
  - assert (request_fails (Http.Rejects e0) e0) as Hfail by by left.
    rewrite (fetchHTML_request_fails url _ _ Hfail).
    case_decide as Hn.
    + intros [= <-]. split; [done|]. left. split; [done|]. by exists e0.
    + destruct (JS.truthy (exn_code e0)) eqn:Hc; intros [= <-].
      * split; [done|]. do 3 right. done.
      * split; [done|]. right; right; left. exists e0. unfold coded.
        split; [done|]. split; [congruence|]. split; [done|by left].
Qed.

Lemma fetchHTML_aborted url e0 :
  exn_name e0 = "AbortError" ->
  fetchHTML url (Http.Rejects e0) = Throw (GoDocError ("Request timeout: " +:+ url) "TIMEOUT").
Proof. intros Hn. unfold fetchHTML. simpl. by rewrite decide_True. Qed.

Lemma fetchHTML_not_ok url resp :
  Http.ok resp = false ->
  fetchHTML url (Http.Resolves resp)
  = Throw (if Http.status resp =? 404
           then GoDocError ("Package not found: " +:+ url) "NOT_FOUND"
           else GoDocErrorWith ("Network error: " +:+ exn_message (http_error resp))
                  "NETWORK_ERROR" (http_error resp)).
Proof.
  intros Hok. unfold fetchHTML. simpl. rewrite Hok. simpl.
  by destruct (Http.status resp =? 404).
Qed.

Lemma fetchHTML_returns url net html :
  fetchHTML url net = Ok html
  <-> exists resp, net = Http.Resolves resp /\ Http.ok resp = true /\ Http.text resp = Ok html.
Proof.
  unfold fetchHTML. split.
  - destruct net as [resp|e0]; simpl.
    + destruct (Http.ok resp) eqn:Hok; simpl.
      * destruct (Http.text resp) as [h|e0] eqn:Ht; simpl.
        -- intros [= <-]. by exists resp.
        -- case_decide; [done|]. by destruct (JS.truthy (exn_code e0)).
      * by destruct (Http.status resp =? 404).
    + case_decide; [done|]. by destruct (JS.truthy (exn_code e0)).
  - intros (resp & -> & Hok & Ht). simpl. by rewrite Hok, Ht.
Qed.

(** X1.  Every error [fetchHTML] throws carries a code, and which one is
    settled by how the request went.  When [fetch] rejects, or the body
    of an ok answer cannot be read, with an error named [AbortError], it
    is a [TIMEOUT] naming the URL, whatever code the abort error has;
    with another error that has a code, that error untouched; with
    another error without a code, a [NETWORK_ERROR] with that error as
    its [details].  An answer that is not ok gives a [NOT_FOUND] naming
    the URL for status 404 and, for any other status, a [NETWORK_ERROR]
    around the [HTTP <status>: <text>] error.  Nothing else is thrown, and
    the body is returned exactly when the answer is ok and its body can be
    read. *)
Theorem fetchHTML_errors_coded url :
  (forall net e, fetchHTML url net = Throw e -> coded e /\ fetch_error url net e)
  /\ (forall net e0,
         request_fails net e0 ->
         exn_name e0 = "AbortError" ->
         fetchHTML url net = Throw (GoDocError ("Request timeout: " +:+ url) "TIMEOUT"))
  /\ (forall net e0,
         request_fails net e0 ->
         exn_name e0 <> "AbortError" ->
         coded e0 ->
         fetchHTML url net = Throw e0)
  /\ (forall net e0,
         request_fails net e0 ->
         exn_name e0 <> "AbortError" ->
         ~ coded e0 ->
         fetchHTML url net
         = Throw (GoDocErrorWith ("Network error: " +:+ exn_message e0) "NETWORK_ERROR" e0))
  /\ (forall resp,
         Http.ok resp = false ->
         fetchHTML url (Http.Resolves resp)
         = Throw (if Http.status resp =? 404
                  then GoDocError ("Package not found: " +:+ url) "NOT_FOUND"
                  else GoDocErrorWith ("Network error: " +:+ exn_message (http_error resp))
                         "NETWORK_ERROR" (http_error resp)))
  /\ (forall net html,
         fetchHTML url net = Ok html
         <-> exists resp,
             net = Http.Resolves resp /\ Http.ok resp = true /\ Http.text resp = Ok html).
Proof.
  split; [apply fetchHTML_throws|].
  split.
  { intros net e0 Hfail Hn. rewrite (fetchHTML_request_fails url _ _ Hfail).
    by rewrite decide_True. }
  split.
  { intros net e0 Hfail Hn Hc. rewrite (fetchHTML_request_fails url _ _ Hfail).
    rewrite decide_False by done. unfold coded in Hc. by rewrite Hc. }
  split.
  { intros net e0 Hfail Hn Hc. rewrite (fetchHTML_request_fails url _ _ Hfail).
    rewrite decide_False by done. unfold coded in Hc.
    by destruct (JS.truthy (exn_code e0)). }
  split; [apply fetchHTML_not_ok|].
  apply fetchHTML_returns.
Qed.

End FetchErrors.

(** A server error, and a body read cut off by the timer, as [fetchHTML]
    reports them. *)
Lemma fetchHTML_errors_coded_witness :
  GoDocFetcher.fetchHTML "https://pkg.go.dev/fmt"
    (Http.Resolves (Http.mkResponse false 500 "Internal Server Error" (Ok EmptyString)))
  = Throw (GoDocErrorWith "Network error: HTTP 500: Internal Server Error" "NETWORK_ERROR"
             (Error "HTTP 500: Internal Server Error"))
  /\ GoDocFetcher.fetchHTML "https://pkg.go.dev/fmt"
       (Http.Resolves (Http.mkResponse true 200 "OK" (Throw Http.AbortError)))
     = Throw (GoDocError "Request timeout: https://pkg.go.dev/fmt" "TIMEOUT").
Proof.
  destruct (fetchHTML_errors_coded "https://pkg.go.dev/fmt") as (_ & Habort & _ & _ & Hhttp & _).
  split.
  - apply (Hhttp (Http.mkResponse false 500 "Internal Server Error" (Ok EmptyString))).
    reflexivity.
  - apply (Habort _ Http.AbortError); [|reflexivity].
    right. eexists. split; [reflexivity|]. split; reflexivity.
Defined.

(** A page that answers every [cheerio.load] of the three methods. *)
Definition documentOf (page : Dom.Document) : WebDocument :=
  {| cheerio_load_document := fun _ => page |}.

Section EachElems.
Context {A St : Type}.


Lemma each_elems (body : St -> A -> Result St) elems s :
  Dom.each body (Dom.Elem <$> elems) s = Arr.forOf body elems s.
Proof.
  revert s. induction elems as [|a elems IH]; intros s; simpl; [done|].
  destruct (body s a); simpl; [apply IH|done].
Qed.

End EachElems.

Section MethodErrors.
Context `{Web} `{WebDocument}.
Import GoDocFetcher.

(** An error of the extraction, wrapped by the [catch] of a method. *)
Definition parse_error (message : string) (e : Exn) : Prop :=
  exists cause, e = GoDocErrorWith message "PARSE_ERROR" cause.

Lemma bind_fetch_throws {A} url net (k : string -> Result A) e :
  (GoDocFetcher.fetchHTML url net ≫= k) = Throw e ->
  GoDocFetcher.fetchHTML url net = Throw e
  \/ exists html, GoDocFetcher.fetchHTML url net = Ok html /\ k html = Throw e.
Proof.
  destruct (GoDocFetcher.fetchHTML url net) as [html|e0]; simpl.
  - intros He. right. by exists html.
  - intros [= <-]. by left.
Qed.

Lemma wrap_throws {A} (body : Result A) message e :
  try_catch body (fun error => Throw (GoDocErrorWith message "PARSE_ERROR" error)) = Throw e ->
  coded e /\ parse_error message e.
Proof.
  destruct body as [a|e0]; simpl; [done|]. intros [= <-]. split; [done|]. by exists e0.
Qed.

Lemma rethrow_throws {A} (body : Result A) message e :
  try_catch body
    (fun error =>
       if JS.strict_eq_string (exn_code error) "NOT_FOUND" then Throw error
       else Throw (GoDocErrorWith message "PARSE_ERROR" error)) = Throw e ->
  coded e /\ (exn_code e = JString "NOT_FOUND" \/ parse_error message e).
Proof.
  destruct body as [a|e0]; simpl; [done|].
  destruct (JS.strict_eq_string (exn_code e0) "NOT_FOUND") eqn:Hc; intros [= <-].
  - apply strict_eq_string_true in Hc. unfold coded. rewrite Hc. split; [done|by left].
  - split; [done|]. right. by exists e0.
Qed.

(** X2.  Whatever [getPackageDoc], [getFunctionDoc], [getTypeDoc] or
    [getPackageExamples] throws carries a code.  It is an error of
    [fetchHTML] for the URL of the request, passed on untouched, or an
    exception of the extraction wrapped as the [details] of a
    [PARSE_ERROR]; only the function and the type lookup let an exception
    of the extraction through, when its code is [NOT_FOUND].
    [searchPackages] builds its URL before its [try]: what
    [encodeURIComponent] throws on the query leaves it as it is, code or
    no code, before any page is fetched; once the URL is built its errors
    are as those of the other methods.  [cheerio.load], which parses any
    string, does not throw. *)
Theorem GoDocFetcher_errors_coded :
  (forall packagePath version net e,
      getPackageDoc packagePath version net = Throw e ->
      coded e
      /\ (fetchHTML (packageUrl packagePath (from_option JString JUndefined version)) net
          = Throw e
          \/ parse_error "Failed to parse package documentation" e))
  /\ (forall packagePath functionName version net e,
         getFunctionDoc packagePath functionName version net = Throw e ->
         coded e
         /\ (fetchHTML (packageUrl packagePath version) net = Throw e
             \/ exn_code e = JString "NOT_FOUND"
             \/ parse_error "Failed to parse function documentation" e))
  /\ (forall packagePath typeName version net e,
         getTypeDoc packagePath typeName version net = Throw e ->
         coded e
         /\ (fetchHTML (packageUrl packagePath version) net = Throw e
             \/ exn_code e = JString "NOT_FOUND"
             \/ parse_error "Failed to parse type documentation" e))
  /\ (forall query limit net e,
         searchPackages query limit net = Throw e ->
         encodeURIComponent query = Throw e
         \/ (coded e
             /\ exists url,
                 searchUrl query limit = Ok url
                 /\ (fetchHTML url net = Throw e
                     \/ parse_error "Failed to search packages" e)))
  /\ (forall query limit net e,
         encodeURIComponent query = Throw e ->
         searchPackages query limit net = Throw e)
  /\ (forall packagePath version net e,
         getPackageExamples packagePath version net = Throw e ->
         coded e
         /\ (fetchHTML (packageUrl packagePath version) net = Throw e
             \/ parse_error "Failed to get package examples" e)).
Proof.
  split; [|split; [|split; [|split; [|split]]]].
  all: intros until e; intros He.
  - apply bind_fetch_throws in He as [He|(html & _ & He)].
    + pose proof (fetchHTML_throws _ _ _ He) as [Hc _]. split; [exact Hc|by left].
    + apply wrap_throws in He as [? ?]. eauto.
  - apply bind_fetch_throws in He as [He|(html & _ & He)].
    + pose proof (fetchHTML_throws _ _ _ He) as [Hc _]. split; [exact Hc|by left].
    + apply rethrow_throws in He as [? [?|?]]; eauto.
  - apply bind_fetch_throws in He as [He|(html & _ & He)].
    + pose proof (fetchHTML_throws _ _ _ He) as [Hc _]. split; [exact Hc|by left].
    + apply rethrow_throws in He as [? [?|?]]; eauto.
  - unfold searchPackages, searchUrl in *.
    destruct (encodeURIComponent query) as [encoded|e0]; simpl in *; [|left; congruence].
    right.
    apply bind_fetch_throws in He as [He|(html & _ & He)].
    + pose proof (fetchHTML_throws _ _ _ He) as [Hc _]. split; [exact Hc|eauto].
    + apply wrap_throws in He as [? ?]. eauto.
  - unfold searchPackages, searchUrl. by rewrite He.
  - apply bind_fetch_throws in He as [He|(html & _ & He)].
    + pose proof (fetchHTML_throws _ _ _ He) as [Hc _]. split; [exact Hc|by left].
    + apply wrap_throws in He as [? ?]. eauto.
Qed.

End MethodErrors.

(** A page on which nothing is found. *)
Definition emptyDocument : Dom.Document :=
  Dom.mkDocument (Ok None) (Ok EmptyString) (Ok None) (Ok None) [] [] (Ok EmptyString)
    [] [] [].

(** An encoder that refuses a query with the surrogate U+D800 in it, which
    is a lone one in the query below, and leaves the others as they are. *)
Definition refusingWeb (page : Dom.Page) : Web :=
  {| cheerio_load := fun _ => page;
     encodeURIComponent := fun s =>
       if Str.includes (Str.utf8 0xD800) s then Throw (URIError "URI malformed")
       else Ok s |}.

(** A type lookup on a page without types ends in a coded error; a search
    for a lone surrogate ends in the encoder's error, which has no code. *)
Lemma GoDocFetcher_errors_coded_witness :
  (@GoDocFetcher.getTypeDoc (documentOf emptyDocument) "fmt" "Stringer" JUndefined
     (Sample.response "<html></html>")
   = Throw (GoDocError "Type Stringer not found in fmt" "NOT_FOUND")
   /\ coded (GoDocError "Type Stringer not found in fmt" "NOT_FOUND"))
  /\ (@GoDocFetcher.searchPackages (refusingWeb resultsPage) (Str.utf8 0xD800) 10
        (Sample.response "<html></html>")
      = Throw (URIError "URI malformed")
      /\ exn_code (URIError "URI malformed") = JUndefined).
Proof.
  destruct (@GoDocFetcher_errors_coded (refusingWeb resultsPage) (documentOf emptyDocument))
    as (_ & _ & Htype & _ & Hencode & _).
  split; [split; [reflexivity|]|split; [|reflexivity]].
  - apply (Htype "fmt" "Stringer" JUndefined (Sample.response "<html></html>")).
    reflexivity.
  - apply Hencode. reflexivity.
Defined.

(** ** The extractor: the package page *)
Section PackagePage.
Import GoDocFetcher.

Lemma bind_ok {A B} (m : Result A) (k : A -> Result B) b :
  m ≫= k = Ok b -> exists a, m = Ok a /\ k a = Ok b.
Proof. destruct m as [a|e]; simpl; [|done]. intros Hk. by exists a. Qed.

Lemma try_catch_ok {A} (body : Result A) handler a :
  (forall e, handler e <> Ok a) -> try_catch body handler = Ok a -> body = Ok a.
Proof. intros Hh. destruct body as [a'|e]; simpl; [done|]. intros He. by apply Hh in He. Qed.









Context `{WebDocument}.


End PackagePage.




(** ** The extractor: looking a type up *)
Section TypeLookup.
Import GoDocFetcher.

(** The element carries the id [typeName]. *)
Definition named (typeName : string) (el : Dom.TypeDecl) : bool :=
  bool_decide (Dom.type_header_id el = Some typeName).

(** What the type scan reads from an element it takes. *)
Definition read_type (el : Dom.TypeDecl) : FoundType :=
  mkFoundType (Str.trim (Dom.type_declaration el)) (Str.trim (Dom.type_content el)).

Lemma scan_type_eq typeName acc el :
  scan_type typeName acc el = Ok (if named typeName el then read_type el else acc).
Proof.
  unfold scan_type, named. case_decide.
  - by rewrite bool_decide_eq_true_2.
  - by rewrite bool_decide_eq_false_2.
Qed.

(** The scan ends on what the last element named [typeName] gave. *)
Lemma scan_type_last typeName els acc :
  Arr.forOf (scan_type typeName) els acc
  = Ok (from_option read_type acc (last (List.filter (named typeName) els))).
Proof.
  revert acc. induction els as [|el els IH]; intros acc; [done|].
  cbn [Arr.forOf List.filter]. rewrite scan_type_eq. cbn [mbind Result_bind].
  rewrite IH. destruct (named typeName el); [|done].
  rewrite last_cons. by destruct (last _).
Qed.

(** The method a [[data-kind=method]] element stands for, under the type
    [typeName]. *)
Definition method_of (typeName : string) (el : Dom.Method) (m : MethodDoc.t) : Prop :=
  Dom.method_header_id el = Some (method_prefix typeName +:+ MethodDoc.name m)
  /\ MethodDoc.signature m = Str.trim (Dom.method_declaration el)
  /\ MethodDoc.documentation m = Str.trim (Dom.method_content el)
  /\ MethodDoc.receiver m = Some typeName.

Lemma or_empty_r x : Str.or x EmptyString = x.
Proof. by destruct x. Qed.

Lemma scan_method_adds typeName methods el methods' :
  scan_method typeName methods el = Ok methods' ->
  methods' = methods
  \/ exists m, methods' = methods ++ [m]
               /\ MethodDoc.signature m <> EmptyString
               /\ method_of typeName el m.
Proof.
  unfold scan_method. rewrite or_empty_r.
  destruct (Dom.method_header_id el) as [id|] eqn:Hid; simpl; [|intros [= <-]; by left].
  destruct (Str.truthy id) eqn:Hid'; simpl; [|intros [= <-]; by left].
  destruct (Str.startsWith (method_prefix typeName) id) eqn:Hp; [|intros [= <-]; by left].
  destruct (Str.truthy (Str.trim (Dom.method_declaration el))) eqn:Hs;
    [|intros [= <-]; by left].
  intros [= <-]. right. eexists. split; [reflexivity|].
  split; [by apply truthy_nonempty|].
  split; [|done]. simpl. by rewrite remove_first_prefix.
Qed.

(** Every method the scan collects stands for an element of the page,
    and has a signature. *)
Lemma scan_method_all typeName visits methods :
  Dom.each (scan_method typeName) visits [] = Ok methods ->
  Forall (fun m => MethodDoc.signature m <> EmptyString
                   /\ exists el, Dom.Elem el ∈ visits /\ method_of typeName el m) methods.
Proof.
  apply (each_invariant
           (fun methods =>
              Forall (fun m => MethodDoc.signature m <> EmptyString
                               /\ exists el, Dom.Elem el ∈ visits /\ method_of typeName el m)
                methods)); [constructor|].
  intros ms el ms' Hin Hms Hstep.
  apply scan_method_adds in Hstep as [->|(m & -> & Hsig & Hm)]; [done|].
  apply Forall_app. split; [done|]. constructor; [|constructor]. eauto.
Qed.

Context `{WebDocument}.

(** X4.  On a fetched page whose type and method scans complete,
    [getTypeDoc] answers from the last element that carries the type name
    as its id: it returns that element's trimmed declaration and
    documentation, with the methods collected, when the declaration is not
    blank; when it is blank, even if an earlier element of that name has
    one, or when no element carries the name, it throws a [NOT_FOUND]
    error naming the type and the package. *)
Theorem getTypeDoc_last_match packagePath typeName version net html els methods :
  fetchHTML (packageUrl packagePath version) net = Ok html ->
  Dom.types (cheerio_load_document html) = Dom.Elem <$> els ->
  Dom.each (scan_method typeName) (Dom.methods (cheerio_load_document html)) []
  = Ok methods ->
  getTypeDoc packagePath typeName version net
  = match last (List.filter (named typeName) els) with
    | Some el =>
        if Str.truthy (Str.trim (Dom.type_declaration el)) then
          Ok (TypeDoc.mk typeName (Str.trim (Dom.type_declaration el))
                (Str.trim (Dom.type_content el)) (nonempty_or_undefined methods)
                packagePath)
        else Throw (GoDocError (type_not_found_message typeName packagePath) "NOT_FOUND")
    | None => Throw (GoDocError (type_not_found_message typeName packagePath) "NOT_FOUND")
    end.
Proof.
  intros Hfetch Htypes Hmethods. unfold getTypeDoc. rewrite Hfetch. simpl.
  unfold extractTypeDoc. rewrite Htypes, each_elems, scan_type_last, Hmethods.
  simpl. destruct (last (List.filter (named typeName) els)) as [el|]; simpl; [|done].
  by destruct (Str.truthy (Str.trim (Dom.type_declaration el))).
Qed.

(** X5.  The methods of a returned [TypeDoc] are absent or not empty;
    each has the type as receiver and a signature that is not empty, and
    stands for a method element of the page whose id is the type name, a
    dot and the method's name, from which its signature and documentation
    are read. *)
Theorem getTypeDoc_methods packagePath typeName version net doc :
  getTypeDoc packagePath typeName version net = Ok doc ->
  exists html,
    fetchHTML (packageUrl packagePath version) net = Ok html
    /\ TypeDoc.name doc = typeName
    /\ TypeDoc.definition doc <> EmptyString
    /\ TypeDoc.methods doc <> Some []
    /\ forall methods,
        TypeDoc.methods doc = Some methods ->
        Forall (fun m =>
                  MethodDoc.receiver m = Some typeName
                  /\ MethodDoc.signature m <> EmptyString
                  /\ exists el,
                      Dom.Elem el ∈ Dom.methods (cheerio_load_document html)
                      /\ method_of typeName el m) methods.
Proof.
  unfold getTypeDoc.
  destruct (fetchHTML _ net) as [html|e]; simpl; [|done].
  intros Hdoc. exists html. split; [done|].
  apply try_catch_ok in Hdoc;
    [|intros e; by destruct (JS.strict_eq_string (exn_code e) "NOT_FOUND")].
  unfold extractTypeDoc in Hdoc.
  apply bind_ok in Hdoc as (found & _ & Hdoc).
  apply bind_ok in Hdoc as (methods & Hmethods & Hdoc).
  destruct (Str.truthy (definition found)) eqn:Hdef; simpl in Hdoc; [|done].
  injection Hdoc as <-. simpl.
  split; [done|]. split; [by apply truthy_nonempty|].
  split; [by destruct methods|].
  intros ms [-> _]%nonempty_or_undefined_some.
  eapply Forall_impl; [exact (scan_method_all _ _ _ Hmethods)|].
  intros m (Hsig & el & Hin & Hm). split; [apply Hm|]. split; [done|]. eauto.
Qed.

End TypeLookup.

(** A page with the type [Stringer] declared twice, the second time
    without a declaration, and with two methods, one of another type. *)
Definition stringerDocument : Dom.Document :=
  Dom.mkDocument (Ok None) (Ok EmptyString) (Ok None) (Ok None) [] [] (Ok EmptyString)
    [Dom.Elem (Dom.mkTypeDecl (Some "Stringer") "type Stringer interface { String() string }"
                 "Stringer is implemented by any value that has a String method.");
     Dom.Elem (Dom.mkTypeDecl (Some "Stringer") "  " EmptyString)]
    [Dom.Elem (Dom.mkMethod (Some "Stringer.String") " func (s Stringer) String() string "
                 "String returns the text.");
     Dom.Elem (Dom.mkMethod (Some "State.Flag") "func (s State) Flag(c int) bool" EmptyString)]
    [].

(** The second declaration hides the first: the type is reported missing. *)
Lemma getTypeDoc_last_match_witness :
  @GoDocFetcher.getTypeDoc (documentOf stringerDocument) "fmt" "Stringer" JUndefined
    (Sample.response "<html></html>")
  = Throw (GoDocError "Type Stringer not found in fmt" "NOT_FOUND").
Proof.
  rewrite (@getTypeDoc_last_match (documentOf stringerDocument) "fmt" "Stringer" JUndefined
             (Sample.response "<html></html>") "<html></html>"
             [Dom.mkTypeDecl (Some "Stringer") "type Stringer interface { String() string }"
                "Stringer is implemented by any value that has a String method.";
              Dom.mkTypeDecl (Some "Stringer") "  " EmptyString]
             [MethodDoc.mk "String" "func (s Stringer) String() string"
                "String returns the text." (Some "Stringer")]);
    reflexivity.
Defined.

(** The same page with the blank declaration left out. *)
Definition stringerDocument' : Dom.Document :=
  Dom.mkDocument (Ok None) (Ok EmptyString) (Ok None) (Ok None) [] [] (Ok EmptyString)
    [Dom.Elem (Dom.mkTypeDecl (Some "Stringer") "type Stringer interface { String() string }"
                 "Stringer is implemented by any value that has a String method.")]
    (Dom.methods stringerDocument)
    [].

Definition stringerDoc : TypeDoc.t :=
  TypeDoc.mk "Stringer" "type Stringer interface { String() string }"
    "Stringer is implemented by any value that has a String method."
    (Some [MethodDoc.mk "String" "func (s Stringer) String() string"
             "String returns the text." (Some "Stringer")])
    "fmt".

Lemma getTypeDoc_methods_witness :
  @GoDocFetcher.getTypeDoc (documentOf stringerDocument') "fmt" "Stringer" JUndefined
    (Sample.response "<html></html>") = Ok stringerDoc
  /\ TypeDoc.definition stringerDoc <> EmptyString
  /\ TypeDoc.methods stringerDoc <> Some [].
Proof.
  split; [reflexivity|].
  destruct (@getTypeDoc_methods (documentOf stringerDocument') "fmt" "Stringer" JUndefined
              (Sample.response "<html></html>") stringerDoc eq_refl)
    as (html & _ & _ & Hdef & Hne & _).
  split; [exact Hdef|exact Hne].
Defined.

(** ** The extractor: the examples of a package *)
Section PackageExamples.
Import GoDocFetcher.

(** The example an element of the page stands for. *)
Definition example_of (el : Dom.Example) (ex : CodeExample.t) : Prop :=
  CodeExample.code ex = Str.trim (Dom.example_code el)
  /\ CodeExample.name ex = Str.or (Str.trim (Dom.exampleHeader el)) "Example"
  /\ CodeExample.output ex = or_undefined (Str.trim (Dom.example_output el)).

(** An example with code, a name, and an output that is absent or not empty. *)
Definition well_formed (ex : CodeExample.t) : Prop :=
  CodeExample.code ex <> EmptyString
  /\ CodeExample.name ex <> EmptyString
  /\ CodeExample.output ex <> Some EmptyString.

Lemma scan_package_example_adds examples el examples' :
  scan_package_example examples el = Ok examples' ->
  examples' = examples
  \/ exists ex, examples' = examples ++ [ex] /\ well_formed ex /\ example_of el ex.
Proof.
  unfold scan_package_example.
  destruct (Str.truthy (Str.trim (Dom.example_code el))) eqn:Hc; intros [= <-];
    [|by left].
  right. eexists. split; [reflexivity|]. split; [|done].
  split; [by apply truthy_nonempty|].
  split; [by apply or_nonempty_r|apply or_undefined_nonempty].
Qed.

Lemma scan_package_example_all visits examples :
  Dom.each scan_package_example visits [] = Ok examples ->
  Forall (fun ex => well_formed ex /\ exists el, Dom.Elem el ∈ visits /\ example_of el ex)
    examples
  /\ (length examples <= length visits)%nat.
Proof.
  intros Hrun. split.
  - revert Hrun.
    apply (each_invariant
             (fun examples =>
                Forall (fun ex => well_formed ex
                                  /\ exists el, Dom.Elem el ∈ visits /\ example_of el ex)
                  examples)); [constructor|].
    intros exs el exs' Hin Hexs Hstep.
    apply scan_package_example_adds in Hstep as [->|(ex & -> & Hwf & Hex)]; [done|].
    apply Forall_app. split; [done|]. constructor; [|constructor]. eauto.
  - assert (forall acc,
               Dom.each scan_package_example visits acc = Ok examples ->
               (length examples <= length acc + length visits)%nat) as Hlen.
    { clear Hrun. induction visits as [|[el|e] visits IH]; intros acc; simpl.
      - intros [= <-]. lia.
      - destruct (scan_package_example acc el) as [acc'|e] eqn:Hstep; simpl; [|done].
        intros Hrest%IH.
        apply scan_package_example_adds in Hstep as [->|(ex & -> & _)]; [lia|].
        rewrite length_app in Hrest. simpl in Hrest. lia.
      - done. }
    apply (Hlen [] Hrun).
Qed.

Context `{WebDocument}.

(** X6.  [getPackageExamples] never reports a missing example: on a page
    where the example selector matches nothing it returns the empty list.
    Every example it returns has code, a name ([Example] when the header
    is blank) and an output that is absent or not empty, all read from one
    example element of the page; elements without code are left out, so
    there are at most as many examples as elements. *)
Theorem getPackageExamples_well_formed packagePath version net html :
  fetchHTML (packageUrl packagePath version) net = Ok html ->
  (Dom.examples (cheerio_load_document html) = [] ->
   getPackageExamples packagePath version net = Ok [])
  /\ (forall examples,
         getPackageExamples packagePath version net = Ok examples ->
         Forall (fun ex =>
                   well_formed ex
                   /\ exists el,
                       Dom.Elem el ∈ Dom.examples (cheerio_load_document html)
                       /\ example_of el ex) examples
         /\ (length examples <= length (Dom.examples (cheerio_load_document html)))%nat).
Proof.
  intros Hfetch. unfold getPackageExamples. rewrite Hfetch. simpl.
  unfold extractPackageExamples. split.
  - by intros ->.
  - intros examples Hrun. apply try_catch_ok in Hrun; [|done].
    by apply scan_package_example_all.
Qed.

End PackageExamples.

(** A page with two examples, the second without code. *)
Definition examplesDocument : Dom.Document :=
  Dom.mkDocument (Ok None) (Ok EmptyString) (Ok None) (Ok None) [] [] (Ok EmptyString)
    [] []
    [Dom.Elem (Dom.mkExample "  " " fmt.Println(1) " " 1 ");
     Dom.Elem (Dom.mkExample "Example (Empty)" "   " EmptyString)].

Lemma getPackageExamples_well_formed_witness :
  @GoDocFetcher.getPackageExamples (documentOf examplesDocument) "fmt" JUndefined
    (Sample.response "<html></html>")
  = Ok [CodeExample.mk "Example" "fmt.Println(1)" (Some "1")]
  /\ (length [CodeExample.mk "Example" "fmt.Println(1)" (Some "1")]
      <= length (Dom.examples examplesDocument))%nat.
Proof.
  split; [reflexivity|].
  destruct (@getPackageExamples_well_formed (documentOf examplesDocument) "fmt" JUndefined
              (Sample.response "<html></html>") "<html></html>" eq_refl) as [_ Hall].
  apply (Hall [CodeExample.mk "Example" "fmt.Println(1)" (Some "1")]). reflexivity.
Defined.

(** ** The extractor: the function lookup, in full *)
Section FunctionLastMatch.
Import GoDocFetcher.

(** The element carries the id [functionName]. *)
Definition named_function (functionName : string) (el : Dom.Function) : bool :=
  bool_decide (Dom.header_id el = Some functionName).

(** The example an example element of a function stands for. *)
Definition example_of_details (d : Dom.ExampleDetails) (ex : CodeExample.t) : Prop :=
  CodeExample.code ex = Str.trim (Dom.exampleCode d)
  /\ CodeExample.name ex = Str.or (Str.trim (Dom.exampleDetailsHeader d)) "Example"
  /\ CodeExample.output ex = or_undefined (Str.trim (Dom.exampleOutput d)).

Lemma scan_example_adds examples d examples' :
  scan_example examples d = Ok examples' ->
  examples' = examples
  \/ exists ex, examples' = examples ++ [ex] /\ well_formed ex /\ example_of_details d ex.
Proof.
  unfold scan_example.
  destruct (Str.truthy (Str.trim (Dom.exampleCode d))) eqn:Hc; intros [= <-]; [|by left].
  right. eexists. split; [reflexivity|]. split; [|done].
  split; [by apply truthy_nonempty|].
  split; [by apply or_nonempty_r|apply or_undefined_nonempty].
Qed.

(** The examples a scan holds were read from elements named [functionName]. *)
Definition examples_from (els : list Dom.Function) (functionName : string)
    (examples : list CodeExample.t) : Prop :=
  Forall (fun ex =>
            well_formed ex
            /\ exists el d,
                el ∈ els /\ named_function functionName el = true
                /\ Dom.Elem d ∈ Dom.exampleDetails el /\ example_of_details d ex)
    examples.

Lemma scan_function_step functionName els acc el acc' :
  el ∈ els ->
  examples_from els functionName (examples acc) ->
  scan_function functionName acc el = Ok acc' ->
  examples_from els functionName (examples acc')
  /\ signature acc'
     = (if named_function functionName el then Str.trim (Dom.declaration el)
        else signature acc)
  /\ documentation acc'
     = (if named_function functionName el then Str.trim (Dom.content el)
        else documentation acc).
Proof.
  intros Hin Hacc. unfold scan_function, named_function.
  case_decide as Hid.
  - rewrite bool_decide_eq_true_2 by done.
    destruct (Dom.each scan_example (Dom.exampleDetails el) (examples acc))
      as [examples'|e] eqn:Hscan; simpl; [|done].
    intros [= <-]. simpl. split; [|done].
    revert Hscan.
    apply (each_invariant (examples_from els functionName)); [done|].
    intros exs d exs' Hd Hexs Hstep.
    apply scan_example_adds in Hstep as [->|(ex & -> & Hwf & Hex)]; [done|].
    apply Forall_app. split; [done|]. constructor; [|constructor].
    split; [done|]. exists el, d. split; [done|]. split; [|done].
    unfold named_function. by rewrite bool_decide_eq_true_2.
  - rewrite bool_decide_eq_false_2 by done. by intros [= <-].
Qed.

Lemma scan_function_run functionName els rest acc found :
  (forall el, el ∈ rest -> el ∈ els) ->
  examples_from els functionName (examples acc) ->
  Arr.forOf (scan_function functionName) rest acc = Ok found ->
  examples_from els functionName (examples found)
  /\ signature found
     = from_option (fun el => Str.trim (Dom.declaration el)) (signature acc)
         (last (List.filter (named_function functionName) rest))
  /\ documentation found
     = from_option (fun el => Str.trim (Dom.content el)) (documentation acc)
         (last (List.filter (named_function functionName) rest)).
Proof.
  revert acc. induction rest as [|el rest IH]; intros acc Hsub Hacc.
  - by intros [= <-].
  - cbn [Arr.forOf List.filter].
    destruct (scan_function functionName acc el) as [acc'|e] eqn:Hstep;
      cbn [mbind Result_bind]; [|done].
    destruct (scan_function_step functionName els acc el acc') as (Hex & Hsig & Hdoc);
      [apply Hsub; left|done|done|].
    intros Hrest. apply IH in Hrest as (Hex' & Hsig' & Hdoc');
      [|intros ? ?; apply Hsub; by right|done].
    split; [done|]. rewrite Hsig', Hdoc', Hsig, Hdoc.
    destruct (named_function functionName el); [|done].
    rewrite last_cons. by destruct (last _).
Qed.

Context `{Web}.

(** X7.  On a fetched page whose function scan completes,
    [getFunctionDoc] answers from the last element that carries the
    function name as its id: it returns that element's trimmed
    declaration and documentation when the declaration is not blank, and
    throws [NOT_FOUND] when it is blank, even if an earlier element of
    that name has one, or when no element carries the name.  The examples
    it returns are gathered from all the elements of that name; each has
    code, a name and an output that is absent or not empty. *)
Theorem getFunctionDoc_last_match packagePath functionName version net html els found :
  fetchHTML (packageUrl packagePath version) net = Ok html ->
  Dom.functions (cheerio_load html) = Dom.Elem <$> els ->
  Dom.each (scan_function functionName) (Dom.functions (cheerio_load html))
    (mkFound EmptyString EmptyString []) = Ok found ->
  getFunctionDoc packagePath functionName version net
  = match last (List.filter (named_function functionName) els) with
    | Some el =>
        if Str.truthy (Str.trim (Dom.declaration el)) then
          Ok (FunctionDoc.mk functionName (Str.trim (Dom.declaration el))
                (Str.trim (Dom.content el)) (nonempty_or_undefined (examples found))
                packagePath)
        else Throw (GoDocError (not_found_message functionName packagePath) "NOT_FOUND")
    | None => Throw (GoDocError (not_found_message functionName packagePath) "NOT_FOUND")
    end
  /\ examples_from els functionName (examples found).
Proof.
  intros Hfetch Hels Hscan. unfold getFunctionDoc. rewrite Hfetch. simpl.
  unfold extractFunctionDoc. rewrite Hscan. simpl.
  rewrite Hels, each_elems in Hscan.
  destruct (scan_function_run functionName els els
              (mkFound EmptyString EmptyString []) found) as (Hex & Hsig & Hdoc);
    [done|constructor|exact Hscan|].
  split; [|done]. rewrite Hsig, Hdoc. simpl.
  destruct (last (List.filter (named_function functionName) els)) as [el|]; simpl; [|done].
  by destruct (Str.truthy (Str.trim (Dom.declaration el))).
Qed.

End FunctionLastMatch.

(** A page on which [Printf] is declared twice, the second time blank. *)
Definition shadowedPage : Dom.Page :=
  Dom.mkPage
    [Dom.Elem (Dom.mkFunction (Some "Printf")
                 "func Printf(format string, a ...any) (n int, err error)"
                 "Printf formats according to a format specifier."
                 [Dom.Elem (Dom.mkExampleDetails EmptyString " fmt.Printf(x) " EmptyString)]);
     Dom.Elem (Dom.mkFunction (Some "Printf") "  " EmptyString [])]
    (fun _ => []).

Lemma getFunctionDoc_last_match_witness :
  @GoDocFetcher.getFunctionDoc (webOf shadowedPage) "fmt" "Printf" JUndefined
    (Sample.response "<html></html>")
  = Throw (GoDocError "Function Printf not found in fmt" "NOT_FOUND").
Proof.
  destruct (@getFunctionDoc_last_match (webOf shadowedPage) "fmt" "Printf" JUndefined
              (Sample.response "<html></html>") "<html></html>"
              [Dom.mkFunction (Some "Printf")
                 "func Printf(format string, a ...any) (n int, err error)"
                 "Printf formats according to a format specifier."
                 [Dom.Elem (Dom.mkExampleDetails EmptyString " fmt.Printf(x) " EmptyString)];
               Dom.mkFunction (Some "Printf") "  " EmptyString []]
              (GoDocFetcher.mkFound EmptyString EmptyString
                 [CodeExample.mk "Example" "fmt.Printf(x)" None]))
    as [Hcall _]; [reflexivity..|].
  exact Hcall.
Defined.

(** ** The extractor: search results, what is returned *)
Section SearchResults.
Import GoDocFetcher.

(** A result with a path free of a version qualifier, a name and a synopsis. *)
Definition presentable (r : SearchResult.t) : Prop :=
  SearchResult.path r <> EmptyString
  /\ Str.includes "@" (SearchResult.path r) = false
  /\ SearchResult.name r <> EmptyString
  /\ SearchResult.synopsis r <> EmptyString.

(** No two results share a path, and each is presentable. *)
Definition distinct_results (results : list SearchResult.t) : Prop :=
  NoDup (SearchResult.path <$> results) /\ Forall presentable results.

Lemma has_path_false path results :
  has_path path results = false -> path ∉ SearchResult.path <$> results.
Proof.
  unfold has_path. intros Hno (r & -> & Hin)%list_elem_of_fmap.
  assert (existsb (fun r0 => bool_decide (SearchResult.path r0 = SearchResult.path r))
            results = true) as Hyes; [|congruence].
  apply existsb_exists. exists r. split; [by apply list_elem_of_In|].
  by apply bool_decide_eq_true_2.
Qed.

Lemma snippet_synopsis_nonempty el : snippet_synopsis el <> EmptyString.
Proof. unfold snippet_synopsis. by do 3 apply or_nonempty_r. Qed.

Lemma scan_snippet_distinct acc el acc' :
  distinct_results (fst acc) ->
  scan_snippet acc el = Ok acc' ->
  distinct_results (fst acc').
Proof.
  destruct acc as [results found]. intros [Hnd Hall]. unfold scan_snippet.
  destruct (Str.truthy (snippet_path el)) eqn:Hp; simpl; [|by intros [= <-]].
  destruct (Str.truthy (snippet_name el)) eqn:Hn; simpl; [|by intros [= <-]].
  destruct (has_path (snippet_path el) results) eqn:Hh; simpl; intros [= <-]; [done|].
  simpl. split.
  - rewrite fmap_app. apply NoDup_app. split; [done|]. split.
    + intros p Hin [->|[]%elem_of_nil]%elem_of_cons. by apply has_path_false in Hh.
    + apply NoDup_singleton.
  - apply Forall_app. split; [done|]. constructor; [|constructor].
    split; [by apply truthy_nonempty|].
    split; [apply first_segment_no_sep|].
    split; [by apply truthy_nonempty|apply snippet_synopsis_nonempty].
Qed.

Lemma search_loop_distinct page selectors acc acc' :
  distinct_results (fst acc) ->
  search_loop page selectors acc = Ok acc' ->
  distinct_results (fst acc').
Proof.
  revert acc. induction selectors as [|selector rest IH]; intros acc Hacc; simpl.
  - by intros [= <-].
  - destruct (Dom.each scan_snippet (Dom.select page selector) acc) as [acc1|e] eqn:Hscan;
      simpl; [|done].
    assert (distinct_results (fst acc1)) as Hacc1.
    { revert Hscan.
      apply (each_invariant (fun acc => distinct_results (fst acc))); [done|].
      intros s el s' _ Hs Hstep. by eapply scan_snippet_distinct. }
    destruct (snd acc1); [by intros [= <-]|]. by apply IH.
Qed.

Context `{Web}.

(** X8.  The results of a search never repeat a path, and each has a
    path that is not empty and is cut before any [@], a name and a
    synopsis that are not empty. *)
Theorem searchPackages_results_distinct query limit net results :
  searchPackages query limit net = Ok results ->
  NoDup (SearchResult.path <$> results) /\ Forall presentable results.
Proof.
  unfold searchPackages.
  destruct (searchUrl query limit) as [url|e]; simpl; [|done].
  destruct (fetchHTML url net) as [html|e]; simpl; [|done].
  intros Hrun. apply try_catch_ok in Hrun; [|done].
  unfold extractSearchResults in Hrun.
  apply bind_ok in Hrun as (acc & Hloop & Hrun). injection Hrun as <-.
  apply (search_loop_distinct (cheerio_load html) searchSelectors ([], false) acc); [|done].
  split; [apply NoDup_nil_2|constructor].
Qed.

End SearchResults.

(** A results page on which two snippets link to the same package. *)
Definition repeatedPage : Dom.Page :=
  Dom.mkPage []
    (fun selector =>
       if decide (selector = ".SearchSnippet")
       then [Dom.Elem fmtArticle; Dom.Elem linklessSnippet; Dom.Elem fmtArticle]
       else []).

Lemma searchPackages_results_distinct_witness :
  @GoDocFetcher.searchPackages (webOf repeatedPage) "fmt" 10
    (Sample.response "<html></html>") = Ok [fmtResult]
  /\ NoDup (SearchResult.path <$> [fmtResult])
  /\ Forall presentable [fmtResult].
Proof.
  split; [vm_compute; reflexivity|].
  apply (@searchPackages_results_distinct (webOf repeatedPage) "fmt" 10
           (Sample.response "<html></html>")).
  vm_compute. reflexivity.
Defined.

(** * The rest of the module index *)

(** ** The snapshot, once fetched *)
Section IndexReuse.
Context `{Platform}.
Import ModuleIndexFetcher.

Lemma getIndex_asked now net st index st1 :
  getIndex now net st = (Ok index, st1, true) ->
  fetchIndex net = Ok index /\ st1 = mkState (Some index) now.
Proof.
  unfold getIndex.
  destruct (cachedIndex st) as [old|];
    [destruct (now - lastFetchTime st <? indexCacheTTL); [done|]|];
    destruct (fetchIndex net) as [fetched|e]; try done;
    by intros [= <- <-].
Qed.

(** X9.  Once [getIndex] has fetched the index at some clock reading, a
    call less than an hour of clock later returns the same rows without
    asking the network, whatever the network would answer, and leaves the
    snapshot as it is; a call an hour later or more asks the network again
    and returns what that fetch gives. *)
Theorem getIndex_snapshot_reused now net st index st1 now' net' :
  getIndex now net st = (Ok index, st1, true) ->
  (now' - now < indexCacheTTL -> getIndex now' net' st1 = (Ok index, st1, false))
  /\ (indexCacheTTL <= now' - now ->
      (getIndex now' net' st1).2 = true
      /\ (getIndex now' net' st1).1.1 = fetchIndex net').
Proof.
  intros [_ ->]%getIndex_asked. unfold getIndex. simpl. split.
  - intros Hfresh%Z.ltb_lt. by rewrite Hfresh.
  - intros Hstale%Z.ltb_ge. rewrite Hstale. by destruct (fetchIndex net').
Qed.

End IndexReuse.

(** The snapshot of the test feed, read again 3599.999 seconds later
    while the network is down. *)
Lemma getIndex_snapshot_reused_witness :
  @ModuleIndexFetcher.getIndex Sample.platform 3599999 (Http.Rejects (Error "offline"))
    (ModuleIndexFetcher.mkState (Some ginRows) 0)
  = (Ok ginRows, ModuleIndexFetcher.mkState (Some ginRows) 0, false).
Proof.
  destruct (@getIndex_snapshot_reused Sample.platform 0 (Sample.response ginIndex)
              ModuleIndexFetcher.initial ginRows
              (ModuleIndexFetcher.mkState (Some ginRows) 0)
              3599999 (Http.Rejects (Error "offline"))) as [Hfresh _].
  - vm_compute. reflexivity.
  - apply Hfresh. reflexivity.
Defined.

(** ** The versions of a package, whatever the dates *)
Section IndexRows.
Context `{Platform}.
Import ModuleIndexFetcher Feed.









End IndexRows.


(** ** A blank feed *)
Section BlankFeed.
Context `{Platform}.
Import ModuleIndexFetcher Feed.

(** X11.  A feed whose body is blank is not an error: [JSON.parse]
    rejecting the empty line, [getIndex] returns an index without rows
    and keeps it like any other, so that for the next hour every package
    has no versions and no latest version, and the network is not asked. *)
Theorem blank_feed_empty_index resp body now st e :
  JSON_parse EmptyString = Throw e ->
  Http.ok resp = true ->
  Http.text resp = Ok body ->
  Str.trim body = EmptyString ->
  fresh now st = false ->
  getIndex now (Http.Resolves resp) st = (Ok [], mkState (Some []) now, true)
  /\ forall packagePath now' net',
      now' - now < indexCacheTTL ->
      getPackageVersions packagePath now' net' (mkState (Some []) now)
      = (Ok None, mkState (Some []) now, false)
      /\ getLatestVersion packagePath now' net' (mkState (Some []) now)
         = (Ok JNull, mkState (Some []) now, false).
Proof.
  intros Hparse Hok Hbody Hblank Hstale.
  assert (fetchIndex (Http.Resolves resp) = Ok []) as Hfetch.
  { rewrite (fetchIndex_ok resp body Hok Hbody). unfold lines_of. rewrite Hblank.
    simpl. by rewrite (line_rows_unparsable _ _ Hparse). }
  split.
  - rewrite getIndex_stale by done. by rewrite Hfetch.
  - intros packagePath now' net' Hfresh%Z.ltb_lt.
    unfold getLatestVersion, getPackageVersions, getIndex. simpl. by rewrite Hfresh.
Qed.

End BlankFeed.

Lemma blank_feed_empty_index_witness :
  @ModuleIndexFetcher.getIndex Sample.platform 5 (Sample.response "  ")
    ModuleIndexFetcher.initial
  = (Ok [], ModuleIndexFetcher.mkState (Some []) 5, true).
Proof.
  destruct (@blank_feed_empty_index Sample.platform
              (Http.mkResponse true 200 "OK" (Ok "  ")) "  " 5 ModuleIndexFetcher.initial
              (SyntaxError "Unexpected token in JSON")) as [Hempty _];
    [reflexivity..|].
  exact Hempty.
Defined.

(** ** Searching the index *)
Section IndexSearch.
Context `{Platform} `{Strings}.
Import ModuleIndexFetcher.

(** The rows of [index] under the path [p], in the order of the index. *)
Definition rows_of (index : list ModuleVersion.t) (p : string) : list ModuleVersion.t :=
  List.filter (fun m => JS.strict_eq_string (ModuleVersion.path m) p) index.

(** The path contains the query, case aside. *)
Definition matches (query p : string) : bool :=
  Str.includes (toLowerCase query) (toLowerCase p).

Lemma rows_of_snoc seen m p :
  rows_of (seen ++ [m]) p
  = rows_of seen p ++ (if JS.strict_eq_string (ModuleVersion.path m) p then [m] else []).
Proof. unfold rows_of. rewrite List.filter_app. simpl. by destruct (JS.strict_eq_string _ p). Qed.

Lemma rows_of_elem index p m :
  m ∈ rows_of index p -> m ∈ index /\ ModuleVersion.path m = JString p.
Proof.
  unfold rows_of. rewrite list_elem_of_In, filter_In, <- list_elem_of_In.
  intros [Hin Hp]. split; [done|]. by apply strict_eq_string_true.
Qed.

Lemma rows_of_nil index p :
  (forall m, m ∈ index -> ModuleVersion.path m <> JString p) -> rows_of index p = [].
Proof.
  intros Hnone. destruct (rows_of index p) as [|m rows] eqn:Hrows; [done|].
  destruct (rows_of_elem index p m) as [Hin Hp]; [rewrite Hrows; left|].
  by destruct (Hnone m Hin).
Qed.

(** *** The first loop: the map from path to rows *)

Lemma group_push_keys_held path module packageMap :
  path ∈ packageMap.*1 -> (group_push path module packageMap).*1 = packageMap.*1.
Proof.
  induction packageMap as [|[p existing] rest IH]; csimpl.
  - by intros ?%elem_of_nil.
  - case_decide as Hp; [done|]. csimpl.
    intros [?|Hin]%elem_of_cons; [congruence|]. by rewrite IH.
Qed.

Lemma group_push_keys_new path module packageMap :
  path ∉ packageMap.*1 -> (group_push path module packageMap).*1 = packageMap.*1 ++ [path].
Proof.
  induction packageMap as [|[p existing] rest IH]; csimpl; [done|].
  intros Hnot. apply not_elem_of_cons in Hnot as [Hne Hnot].
  case_decide as Hp; [congruence|]. csimpl. by rewrite IH.
Qed.

Lemma group_push_entries path module packageMap p rows :
  NoDup packageMap.*1 ->
  (p, rows) ∈ group_push path module packageMap ->
  (p <> path /\ (p, rows) ∈ packageMap)
  \/ (p = path /\ exists existing, (path, existing) ∈ packageMap /\ rows = existing ++ [module])
  \/ (p = path /\ (path ∉ packageMap.*1) /\ rows = [module]).
Proof.
  induction packageMap as [|[q existing] rest IH]; csimpl.
  - intros _ [[= -> ->]|[]%elem_of_nil]%elem_of_cons.
    right; right. split; [done|]. split; [apply not_elem_of_nil|done].
  - intros [Hq Hnd]%NoDup_cons. case_decide as Hp.
    + subst q. intros [[= -> ->]|Hin]%elem_of_cons.
      * right; left. split; [done|]. exists existing. split; [left|done].
      * left. split; [|by right]. intros ->. apply Hq.
        apply list_elem_of_fmap. by exists (path, rows).
    + intros [[= -> ->]|Hin]%elem_of_cons.
      * left. split; [done|left].
      * destruct (IH Hnd Hin) as [[Hne Hold]|[(-> & ex & Hex & ->)|(-> & Hnew & ->)]].
        -- left. split; [done|by right].
        -- right; left. split; [done|]. exists ex. split; [by right|done].
        -- right; right. split; [done|]. split; [|done].
           apply not_elem_of_cons. split; [congruence|done].
Qed.

(** After the rows [seen], the map holds, without repeating a path, each
    matching path that [seen] has, with the rows of [seen] under it. *)
Definition grouped (queryLower : string) (seen : list ModuleVersion.t)
    (packageMap : PackageMap) : Prop :=
  NoDup packageMap.*1
  /\ (forall p rows,
         (p, rows) ∈ packageMap ->
         Str.includes queryLower (toLowerCase p) = true
         /\ rows <> [] /\ rows = rows_of seen p)
  /\ (forall m p,
         m ∈ seen -> ModuleVersion.path m = JString p ->
         Str.includes queryLower (toLowerCase p) = true -> p ∈ packageMap.*1).

Lemma grouped_nil queryLower : grouped queryLower [] [].
Proof.
  split; [apply NoDup_nil_2|]. split.
  - by intros p rows ?%elem_of_nil.
  - by intros m p ?%elem_of_nil.
Qed.

Lemma grouped_push queryLower seen packageMap m p :
  grouped queryLower seen packageMap ->
  ModuleVersion.path m = JString p ->
  Str.includes queryLower (toLowerCase p) = true ->
  grouped queryLower (seen ++ [m]) (group_push p m packageMap).
Proof.
  intros (Hnd & Hrows & Hall) Hp Hmatch.
  assert (forall q, q ∈ (group_push p m packageMap).*1 <-> q = p \/ q ∈ packageMap.*1)
    as Hkeys.
  { intros q. destruct (decide (p ∈ packageMap.*1)) as [Hin|Hout].
    - rewrite group_push_keys_held by done. split; [by right|].
      by intros [->|?].
    - rewrite group_push_keys_new by done. rewrite elem_of_app, list_elem_of_singleton.
      tauto. }
  split; [|split].
  - destruct (decide (p ∈ packageMap.*1)) as [Hin|Hout].
    + by rewrite group_push_keys_held.
    + rewrite group_push_keys_new by done. apply NoDup_app. split; [done|]. split.
      * intros q Hq ->%list_elem_of_singleton. done.
      * apply NoDup_singleton.
  - intros p' rows' Hin. rewrite rows_of_snoc, Hp. simpl.
    destruct (group_push_entries _ _ _ _ _ Hnd Hin)
      as [[Hne Hold]|[(-> & ex & Hex & ->)|(-> & Hnew & ->)]].
    + destruct (Hrows _ _ Hold) as (? & ? & ?).
      rewrite bool_decide_eq_false_2 by congruence. by rewrite app_nil_r.
    + destruct (Hrows _ _ Hex) as (? & ? & ->).
      rewrite bool_decide_eq_true_2 by done.
      split; [done|]. split; [|done]. by destruct (rows_of seen p).
    + rewrite bool_decide_eq_true_2 by done.
      split; [done|]. split; [done|].
      rewrite rows_of_nil; [done|].
      intros m' Hm' Hp'. apply Hnew. by eapply Hall.
  - intros m' q [Hin| ->%list_elem_of_singleton]%elem_of_app Hq Hmq; apply Hkeys.
    + right. by eapply Hall.
    + left. congruence.
Qed.

Lemma grouped_skip queryLower seen packageMap m p :
  grouped queryLower seen packageMap ->
  ModuleVersion.path m = JString p ->
  Str.includes queryLower (toLowerCase p) = false ->
  grouped queryLower (seen ++ [m]) packageMap.
Proof.
  intros (Hnd & Hrows & Hall) Hp Hmatch. split; [done|]. split.
  - intros p' rows' Hin. destruct (Hrows _ _ Hin) as (Hm' & ? & ?).
    rewrite rows_of_snoc, Hp. simpl.
    rewrite bool_decide_eq_false_2 by congruence. by rewrite app_nil_r.
  - intros m' q [Hin| ->%list_elem_of_singleton]%elem_of_app Hq Hmq.
    + by eapply Hall.
    + congruence.
Qed.

Lemma group_step_ok queryLower packageMap m packageMap' :
  group_step queryLower packageMap m = Ok packageMap' ->
  exists p,
    ModuleVersion.path m = JString p
    /\ packageMap' = if Str.includes queryLower (toLowerCase p)
                     then group_push p m packageMap else packageMap.
Proof.
  unfold group_step. destruct (ModuleVersion.path m) as [| | | |p| |]; try done.
  intros Hstep. exists p. split; [done|].
  destruct (Str.includes queryLower (toLowerCase p)); by injection Hstep as <-.
Qed.

Lemma group_step_throws queryLower packageMap m e :
  group_step queryLower packageMap m = Throw e -> exn_name e = "TypeError".
Proof.
  unfold group_step. destruct (ModuleVersion.path m) as [| | | |p| |];
    try (by intros [= <-]).
  by destruct (Str.includes queryLower (toLowerCase p)).
Qed.

Lemma group_step_pathless queryLower packageMap m :
  (forall p, ModuleVersion.path m <> JString p) ->
  exists e, group_step queryLower packageMap m = Throw e.
Proof.
  intros Hpath. unfold group_step.
  destruct (ModuleVersion.path m) as [| | | |p| |]; try by eexists.
  by destruct (Hpath p).
Qed.

Lemma group_loop queryLower rest seen packageMap packageMap' :
  grouped queryLower seen packageMap ->
  Arr.forOf (group_step queryLower) rest packageMap = Ok packageMap' ->
  grouped queryLower (seen ++ rest) packageMap'.
Proof.
  revert seen packageMap. induction rest as [|m rest IH]; intros seen packageMap Hg.
  - simpl. rewrite app_nil_r. by intros [= <-].
  - cbn [Arr.forOf].
    destruct (group_step queryLower packageMap m) as [packageMap1|e] eqn:Hstep;
      cbn [mbind Result_bind]; [|done].
    apply group_step_ok in Hstep as (p & Hp & ->).
    rewrite (cons_middle m seen rest), app_assoc. apply IH.
    destruct (Str.includes queryLower (toLowerCase p)) eqn:Hmatch.
    + by apply grouped_push.
    + by eapply grouped_skip.
Qed.

(** One row whose path is no string stops the loop, whatever the query. *)
Lemma group_loop_throws queryLower index packageMap m :
  m ∈ index ->
  (forall p, ModuleVersion.path m <> JString p) ->
  exists e, Arr.forOf (group_step queryLower) index packageMap = Throw e
            /\ exn_name e = "TypeError".
Proof.
  intros Hin Hpath. revert packageMap.
  induction index as [|a index IH]; intros packageMap; [by apply elem_of_nil in Hin|].
  cbn [Arr.forOf].
  destruct (group_step queryLower packageMap a) as [packageMap1|e] eqn:Hstep;
    cbn [mbind Result_bind].
  - apply elem_of_cons in Hin as [->|Hin]; [|by apply IH].
    destruct (group_step_pathless queryLower packageMap a Hpath) as [e He]. congruence.
  - exists e. split; [done|]. by eapply group_step_throws.
Qed.

(** *** The second loop: the latest version of each path *)

(** The result the second loop makes of one entry of the map. *)
Definition entry_result (entry : string * list ModuleVersion.t) (r : PackageLatest.t)
  : Prop :=
  latest_step [] entry = Ok [r].

Lemma latest_step_adds results entry results' :
  latest_step results entry = Ok results' ->
  exists r, results' = results ++ [r] /\ entry_result entry r.
Proof.
  unfold entry_result, latest_step. destruct entry as [path versions].
  destruct (Arr.findM is_stable_row _) as [[latest|]|e]; simpl; [| |done].
  - intros [= <-]. eauto.
  - destruct (Arr.sort newest_row_first versions) as [|latest ?]; [done|].
    intros [= <-]. eauto.
Qed.

Lemma entry_result_path entry r : entry_result entry r -> PackageLatest.path r = entry.1.
Proof.
  unfold entry_result, latest_step. destruct entry as [path versions].
  destruct (Arr.findM is_stable_row _) as [[latest|]|e]; simpl; [| |done].
  - by intros [= <-].
  - destruct (Arr.sort newest_row_first versions) as [|latest ?]; [done|].
    by intros [= <-].
Qed.

Lemma latest_loop packageMap acc results :
  Arr.forOf latest_step packageMap acc = Ok results ->
  exists news, results = acc ++ news /\ Forall2 entry_result packageMap news.
Proof.
  revert acc. induction packageMap as [|entry packageMap IH]; intros acc.
  - intros [= <-]. exists []. by rewrite app_nil_r.
  - cbn [Arr.forOf].
    destruct (latest_step acc entry) as [acc'|e] eqn:Hstep; cbn [mbind Result_bind]; [|done].
    apply latest_step_adds in Hstep as (r & -> & Hr).
    intros (news & -> & Hnews)%IH. exists (r :: news).
    rewrite <- app_assoc. split; [done|]. by constructor.
Qed.

Lemma entry_results_paths packageMap news :
  Forall2 entry_result packageMap news -> PackageLatest.path <$> news = packageMap.*1.
Proof.
  induction 1 as [|entry r packageMap news Hr _ IH]; [done|].
  csimpl. by rewrite IH, (entry_result_path entry r).
Qed.

Lemma entry_results_elem packageMap news r :
  Forall2 entry_result packageMap news -> r ∈ news ->
  exists entry, entry ∈ packageMap /\ entry_result entry r.
Proof.
  induction 1 as [|entry r' packageMap news Hr _ IH]; [by intros ?%elem_of_nil|].
  intros [->|Hin]%elem_of_cons.
  - exists entry. split; [left|done].
  - destruct (IH Hin) as (entry' & ? & ?). exists entry'. split; [by right|done].
Qed.

Lemma elem_of_take_elem {A} (x : A) n l : x ∈ take n l -> x ∈ l.
Proof. intros Hin. eapply elem_of_sublist; [exact Hin|apply sublist_take]. Qed.

(** What a search that returns was made from. *)
Lemma searchIndex_inv index query results :
  searchIndex index query = Ok results ->
  exists packageMap news,
    grouped (toLowerCase query) index packageMap
    /\ Forall2 entry_result packageMap news
    /\ results = take 50 news.
Proof.
  unfold searchIndex. intros Hrun.
  apply bind_ok in Hrun as (packageMap & Hgroup & Hrun).
  apply bind_ok in Hrun as (news & Hlatest & Hrun). injection Hrun as <-.
  apply latest_loop in Hlatest as (news' & -> & Hnews).
  exists packageMap, news'. split; [|done].
  apply (group_loop _ index [] []); [apply grouped_nil|done].
Qed.

Lemma searchPackages_index query now net st index :
  (getIndex now net st).1.1 = Ok index ->
  (searchPackages query now net st).1.1 = searchIndex index query.
Proof.
  intros Hindex. unfold searchPackages.
  destruct (getIndex now net st) as [[r st'] asked]. simpl in *. by subst r.
Qed.

(** X12.  A search of the index returns at most 50 results and no path
    twice.  Every result carries a path that some row of the index has and
    that contains the query, case aside; and every such path of the index
    is among the results, unless the 50 are full. *)
Theorem index_search_results query now net st index results :
  (getIndex now net st).1.1 = Ok index ->
  (searchPackages query now net st).1.1 = Ok results ->
  (length results <= 50)%nat
  /\ NoDup (PackageLatest.path <$> results)
  /\ (forall r,
         r ∈ results ->
         matches query (PackageLatest.path r) = true
         /\ exists m, m ∈ index /\ ModuleVersion.path m = JString (PackageLatest.path r))
  /\ (forall m p,
         m ∈ index -> ModuleVersion.path m = JString p -> matches query p = true ->
         p ∈ PackageLatest.path <$> results \/ length results = 50%nat).
Proof.
  intros Hindex Hrun. rewrite (searchPackages_index _ _ _ _ _ Hindex) in Hrun.
  apply searchIndex_inv in Hrun as (packageMap & news & (Hnd & Hrows & Hall) & Hnews & ->).
  pose proof (entry_results_paths _ _ Hnews) as Hpaths.
  split; [rewrite length_take; lia|]. split; [|split].
  - rewrite fmap_take, Hpaths.
    apply (sublist_NoDup (take 50 packageMap.*1) packageMap.*1); [done|apply sublist_take].
  - intros r Hr%elem_of_take_elem.
    destruct (entry_results_elem _ _ _ Hnews Hr) as ([p rows] & Hentry & Hres).
    apply entry_result_path in Hres. simpl in Hres. rewrite Hres.
    destruct (Hrows _ _ Hentry) as (Hmatch & Hne & Heq). split; [done|].
    destruct rows as [|m rows]; [done|]. exists m.
    apply (rows_of_elem index p). rewrite <- Heq. left.
  - intros m p Hin Hp Hmatch.
    pose proof (Hall m p Hin Hp Hmatch) as Hkey. rewrite <- Hpaths in Hkey.
    destruct (decide (length news <= 50)%nat) as [Hle|Hgt].
    + left. by rewrite take_ge.
    + right. rewrite length_take. lia.
Qed.

(** *** Agreement with [getPackageVersions] *)

Definition to_entry (m : ModuleVersion.t) : VersionEntry.t :=
  VersionEntry.mk (ModuleVersion.version m) (ModuleVersion.timestamp m).

Lemma insert_map {A B} (f : A -> B) cmpA cmpB x l :
  (forall a b, cmpB (f a) (f b) = cmpA a b) ->
  Arr.insert cmpB (f x) (map f l) = map f (Arr.insert cmpA x l).
Proof.
  intros Hcmp. induction l as [|y l IH]; simpl; [done|].
  unfold Arr.after. rewrite Hcmp.
  destruct (cmpA x y) as [d|]; [|done].
  destruct (0 <? d); [|done]. simpl. by rewrite <- IH.
Qed.

Lemma sort_map {A B} (f : A -> B) cmpA cmpB l :
  (forall a b, cmpB (f a) (f b) = cmpA a b) ->
  Arr.sort cmpB (map f l) = map f (Arr.sort cmpA l).
Proof.
  intros Hcmp. induction l as [|x l IH]; simpl; [done|].
  by rewrite IH, (insert_map f cmpA cmpB).
Qed.

(** [find] returns the head of what [filter] keeps. *)
Lemma find_filter {A B} (f : A -> B) pA pB l kept :
  (forall a, pB (f a) = pA a) ->
  Arr.filterM pB (map f l) = Ok kept ->
  exists found, Arr.findM pA l = Ok found /\ head kept = f <$> found.
Proof.
  intros Hp. revert kept. induction l as [|a l IH]; intros kept; simpl.
  - intros [= <-]. by exists None.
  - rewrite Hp. destruct (pA a) as [b|e]; simpl; [|done].
    destruct (Arr.filterM pB (map f l)) as [rest|e]; simpl; [|done].
    intros [= <-]. destruct b.
    + by exists (Some a).
    + by apply IH.
Qed.

(** X13.  For each path it returns, the search reports as [latest] the
    very version that [getPackageVersions] gives as [latest] for that
    path, whenever the latter returns. *)
Theorem index_search_latest_agrees query now net st index results r pv :
  (getIndex now net st).1.1 = Ok index ->
  (searchPackages query now net st).1.1 = Ok results ->
  r ∈ results ->
  (getPackageVersions (PackageLatest.path r) now net st).1.1 = Ok (Some pv) ->
  PackageLatest.latest r = PackageVersions.latest pv.
Proof.
  intros Hindex Hrun Hr Hpv.
  rewrite (searchPackages_index _ _ _ _ _ Hindex) in Hrun.
  unfold getPackageVersions in Hpv.
  destruct (getIndex now net st) as [[i st'] asked]. simpl in *. subst i. simpl in Hpv.
  apply searchIndex_inv in Hrun as (packageMap & news & (Hnd & Hrows & Hall) & Hnews & ->).
  apply elem_of_take_elem in Hr.
  destruct (entry_results_elem _ _ _ Hnews Hr) as ([p rows] & Hentry & Hres).
  pose proof (entry_result_path _ _ Hres) as Hpath. simpl in Hpath. rewrite Hpath in Hpv.
  destruct (Hrows _ _ Hentry) as (_ & _ & Hrows_p).
  unfold packageVersions in Hpv. fold (rows_of index p) in Hpv. rewrite <- Hrows_p in Hpv.
  change (fun m => VersionEntry.mk (ModuleVersion.version m) (ModuleVersion.timestamp m))
    with to_entry in Hpv.
  rewrite (sort_map to_entry newest_row_first newest_first) in Hpv by done.
  unfold entry_result, latest_step in Hres.
  destruct (Arr.sort newest_row_first rows) as [|newest sorted]; [done|].
  cbn [map] in Hpv.
  destruct (Arr.filterM is_stable (to_entry newest :: map to_entry sorted))
    as [kept|e] eqn:Hkept; simpl in Hpv; [|done].
  destruct (find_filter to_entry is_stable_row is_stable (newest :: sorted) kept)
    as (found & Hfound & Hhead); [done|exact Hkept|].
  rewrite Hfound in Hres. simpl in Hres.
  injection Hpv as <-. simpl.
  destruct found as [a|]; injection Hres as <-; simpl.
  - by destruct kept as [|s kept]; [|injection Hhead as ->].
  - by destruct kept.
Qed.

(** X14.  A single row of the index whose path is not a string makes
    every search throw a [TypeError], whatever the query; and such a row
    is what [fetchIndex] keeps of a feed line that is an empty object. *)
Theorem index_search_pathless_row :
  (forall line,
      JSON_parse line = Ok (JObject []) ->
      Feed.line_rows line = [ModuleVersion.mk JUndefined JUndefined JUndefined])
  /\ (forall query now net st index m,
         (getIndex now net st).1.1 = Ok index ->
         m ∈ index ->
         (forall p, ModuleVersion.path m <> JString p) ->
         exists e,
           (searchPackages query now net st).1.1 = Throw e /\ exn_name e = "TypeError").
Proof.
  split.
  - intros line Hline. unfold Feed.line_rows, parse_line. by rewrite Hline.
  - intros query now net st index m Hindex Hin Hpath.
    rewrite (searchPackages_index _ _ _ _ _ Hindex). unfold searchIndex.
    destruct (group_loop_throws (toLowerCase query) index [] m Hin Hpath) as (e & -> & He).
    by exists e.
Qed.

End IndexSearch.

(** Lower case for ASCII text, to run the search on the test feeds. *)
Definition lower_char (c : ascii) : ascii :=
  let n := nat_of_ascii c in
  if ((65 <=? n) && (n <=? 90))%nat then ascii_of_nat (n + 32) else c.

Fixpoint lower (s : string) : string :=
  match s with
  | EmptyString => EmptyString
  | String c s' => String (lower_char c) (lower s')
  end.

Definition asciiStrings : Strings := {| toLowerCase := lower |}.

(** On the feed of the test suite, a search for [GIN] finds the one
    package, with the stable v1.9.1 as its latest version. *)
Definition ginMatch : PackageLatest.t :=
  PackageLatest.mk "github.com/gin-gonic/gin" (JString "v1.9.1").

Lemma index_search_results_witness :
  (@ModuleIndexFetcher.searchPackages Sample.platform asciiStrings "GIN" 0
     (Sample.response ginIndex) ModuleIndexFetcher.initial).1.1 = Ok [ginMatch]
  /\ (length [ginMatch] <= 50)%nat
  /\ NoDup (PackageLatest.path <$> [ginMatch]).
Proof.
  split; [vm_compute; reflexivity|].
  destruct (@index_search_results Sample.platform asciiStrings "GIN" 0
              (Sample.response ginIndex) ModuleIndexFetcher.initial ginRows [ginMatch])
    as (Hlen & Hnd & _); [vm_compute; reflexivity..|].
  split; [exact Hlen|exact Hnd].
Defined.

Lemma index_search_latest_agrees_witness :
  PackageLatest.latest ginMatch = JString "v1.9.1".
Proof.
  apply (@index_search_latest_agrees Sample.platform asciiStrings "GIN" 0
           (Sample.response ginIndex) ModuleIndexFetcher.initial ginRows [ginMatch] ginMatch
           (PackageVersions.mk "github.com/gin-gonic/gin"
              [VersionEntry.mk (JString "v2.0.0-beta.1") (JString "2023-12-01T00:00:00Z");
               VersionEntry.mk (JString "v1.9.1") (JString "2023-06-01T00:00:00Z");
               VersionEntry.mk (JString "v1.9.0") (JString "2023-01-01T00:00:00Z")]
              (JString "v1.9.1"))).
  - vm_compute. reflexivity.
  - vm_compute. reflexivity.
  - left.
  - vm_compute. reflexivity.
Defined.

(** A feed in which one line is an empty object. *)
Definition pathlessIndex : string :=
  Sample.lines
    [Sample.feed_line "fmt" "v1.0.0" "2023-01-01T00:00:00Z";
     "{}";
     Sample.feed_line "fmt" "v1.1.0" "2023-06-01T00:00:00Z"].

Definition pathlessRows : list ModuleVersion.t :=
  [Sample.row "fmt" "v1.0.0" "2023-01-01T00:00:00Z";
   ModuleVersion.mk JUndefined JUndefined JUndefined;
   Sample.row "fmt" "v1.1.0" "2023-06-01T00:00:00Z"].

Lemma index_search_pathless_row_witness :
  exists e,
    (@ModuleIndexFetcher.searchPackages Sample.platform asciiStrings "fmt" 0
       (Sample.response pathlessIndex) ModuleIndexFetcher.initial).1.1 = Throw e
    /\ exn_name e = "TypeError".
Proof.
  destruct (@index_search_pathless_row Sample.platform asciiStrings) as [_ Hthrows].
  apply (Hthrows "fmt" 0 (Sample.response pathlessIndex) ModuleIndexFetcher.initial
           pathlessRows (ModuleVersion.mk JUndefined JUndefined JUndefined)).
  - vm_compute. reflexivity.
  - right. left.
  - intros p. discriminate.
Defined.

(** On that feed the versions of [fmt] are still served. *)
Example pathless_row_versions :
  PackageVersions.latest <$>
    ((@ModuleIndexFetcher.getPackageVersions Sample.platform "fmt" 0
        (Sample.response pathlessIndex) ModuleIndexFetcher.initial).1.1
       ≫= from_option Ok (Throw (Error "null")))
  = Ok (JString "v1.1.0").
Proof. vm_compute. reflexivity. Qed.

(** * The rest of the cache *)

(** ** Reading back what was stored *)
Section CacheRoundTrip.
Context {T : Type}.
Variable on_full : NodeCache.FullPolicy.
Import DocumentationCache.

Local Abbreviation get' := (@get T _ (nodeCacheStore on_full T)).
Local Abbreviation set' := (@set T _ (nodeCacheStore on_full T)).
Local Abbreviation has' := (@has T _ (nodeCacheStore on_full T)).
Local Abbreviation delete' := (@delete T _ (nodeCacheStore on_full T)).
Local Abbreviation clear' := (@clear T _ (nodeCacheStore on_full T)).
Local Abbreviation getStats' := (@getStats T _ (nodeCacheStore on_full T)).
Local Abbreviation constructor' := (@constructor T _ (nodeCacheStore on_full T)).

(** What [get] answers is read off the entry under the key. *)
Definition answer (now : Z) (w : option (NodeCache.Wrapped (CacheEntry.t T))) : option T :=
  match w with
  | Some w => if NodeCache.expired now w then None else Some (CacheEntry.data (NodeCache.v w))
  | None => None
  end.

Lemma get_answer key now (c : NodeDocCache T) :
  (get' key now c).1 = Ok (answer now (NodeCache.data (cache c) !! key)).
Proof.
  unfold get. simpl. unfold NodeCache.get, NodeCache.check, answer.
  destruct (NodeCache.data (cache c) !! key) as [w|]; [|done].
  by destruct (NodeCache.expired now w).
Qed.

Lemma has_answer key now (c : NodeDocCache T) :
  (has' key now c).1 = Ok (bool_decide (is_Some (answer now (NodeCache.data (cache c) !! key)))).
Proof.
  unfold has. simpl. unfold NodeCache.has, NodeCache.check, answer.
  destruct (NodeCache.data (cache c) !! key) as [w|]; [|done].
  by destruct (NodeCache.expired now w).
Qed.

(** An expired entry is dropped by the [get] that finds it. *)
Lemma get_drops_expired key now (c : NodeDocCache T) w :
  NodeCache.data (cache c) !! key = Some w ->
  NodeCache.expired now w = true ->
  NodeCache.data (cache (get' key now c).2) !! key = None.
Proof.
  intros Hw Hexp. unfold get. simpl. unfold NodeCache.get, NodeCache.check.
  rewrite Hw, Hexp. simpl. unfold NodeCache.del. rewrite Hw. simpl.
  apply lookup_delete_eq.
Qed.

Lemma make_room_options (c c1 : NodeCache.Cache (CacheEntry.t T)) :
  NodeCache.make_room on_full (fun _ => 240) c = Some c1 ->
  NodeCache.options c1 = NodeCache.options c.
Proof.
  unfold NodeCache.make_room.
  destruct (NodeCache.is_full c); [|by intros [= <-]].
  destruct on_full as [|victim]; [done|].
  destruct (victim _) as [k|]; [|done].
  destruct (NodeCache.is_full _); [done|]. intros [= <-]. apply options_del.
Qed.

(** The options of the store are set once, by the constructor. *)
Lemma options_step (c : NodeDocCache T) op :
  NodeCache.options (cache (cache_step on_full c op)) = NodeCache.options (cache c).
Proof.
  destruct op as [k t|k v t n|k t|k| | |t]; simpl; try done.
  - unfold get. simpl.
    pose proof (options_get (T:=T) k t (cache c)) as Ho.
    by destruct (NodeCache.get _ k t (cache c)).
  - unfold set. simpl. unfold NodeCache.set.
    destruct (NodeCache.make_room on_full _ (cache c)) as [c1|] eqn:Hroom; simpl; [|done].
    by rewrite options_put, (make_room_options _ _ Hroom).
  - unfold has. simpl.
    pose proof (options_has (T:=T) k t (cache c)) as Ho.
    by destruct (NodeCache.has _ k t (cache c)).
  - unfold delete. simpl.
    pose proof (options_del (T:=T) k (cache c)) as Ho.
    by destruct (NodeCache.del _ k (cache c)).
  - unfold NodeCache.checkData.
    induction (map_to_list (NodeCache.data (cache c))) as [|[k w] l IH]; simpl; [done|].
    by rewrite options_check.
Qed.

Lemma options_run ops (c : NodeDocCache T) :
  NodeCache.options (cache (cache_run on_full ops c)) = NodeCache.options (cache c).
Proof.
  revert c. unfold cache_run. induction ops as [|op ops IH]; intros c; simpl; [done|].
  by rewrite IH, options_step.
Qed.

(** A [set] that succeeds leaves the envelope under the key. *)
Lemma set_true_stores key value ttl now (c : NodeDocCache T) :
  (set' key value ttl now c).1 = Ok true ->
  NodeCache.data (cache (set' key value ttl now c).2) !! key
  = Some (NodeCache.mkWrapped
            (CacheEntry.mk value now (JS.num_or ttl (defaultTTL c)))
            (NodeCache.livetime (NodeCache.options (cache c))
               (JS.num_or ttl (defaultTTL c)) now)).
Proof.
  unfold set. simpl. unfold NodeCache.set.
  destruct (NodeCache.make_room on_full (fun _ => 240) (cache c)) as [c1|] eqn:Hroom;
    simpl; [|done].
  intros _. unfold NodeCache.put.
  rewrite (make_room_options _ _ Hroom).
  destruct (NodeCache.data c1 !! key); simpl; apply lookup_insert_eq.
Qed.

(** Every method keeps the default TTL, which the constructor never sets
    to 0. *)
Lemma defaultTTL_step (c : NodeDocCache T) op :
  defaultTTL (cache_step on_full c op) = defaultTTL c.
Proof.
  destruct op; simpl; try done.
  - unfold get. simpl. by destruct (NodeCache.get _ _ _ _).
  - unfold set. simpl. by destruct (NodeCache.set _ _ _ _ _ _ _).
  - unfold has. simpl. by destruct (NodeCache.has _ _ _ _).
  - unfold delete. simpl. by destruct (NodeCache.del _ _ _).
Qed.

Lemma defaultTTL_run ops (c : NodeDocCache T) :
  defaultTTL (cache_run on_full ops c) = defaultTTL c.
Proof.
  revert c. unfold cache_run. induction ops as [|op ops IH]; intros c; simpl; [done|].
  by rewrite IH, defaultTTL_step.
Qed.

Lemma defaultTTL_constructor options : defaultTTL (constructor' options) <> 0.
Proof. simpl. by apply num_or_nonzero. Qed.

(** X15.  On a cache built by the constructor and used in any way, a
    [set] that answers [true] at clock reading [now] makes [get] return
    the value up to the expiry time, [now] plus the TTL in milliseconds.
    After that time [get] answers [undefined], [has] answers [false] and
    the entry is dropped by that [get], unless the expiry time came out
    as exactly 0, as a negative TTL can make it: the store reads 0 as no
    expiry, and the value is then returned at every clock reading.  The
    TTL is the one given, or the default of the cache when none or 0 is
    given; it is never 0. *)
Theorem cache_set_then_get options ops key value ttl now now' :
  let c := cache_run on_full ops (constructor' options) in
  (set' key value ttl now c).1 = Ok true ->
  let c' := (set' key value ttl now c).2 in
  let seconds := JS.num_or ttl (defaultTTL c) in
  seconds <> 0
  /\ (ttl = None \/ ttl = Some 0 -> seconds = defaultTTL c)
  /\ (now' <= now + seconds * 1000 -> (get' key now' c').1 = Ok (Some value))
  /\ (now + seconds * 1000 < now' -> now + seconds * 1000 <> 0 ->
      (get' key now' c').1 = Ok None
      /\ (has' key now' c').1 = Ok false
      /\ NodeCache.data (cache (get' key now' c').2) !! key = None)
  /\ (now + seconds * 1000 = 0 ->
      (get' key now' c').1 = Ok (Some value)
      /\ (has' key now' c').1 = Ok true).
Proof.
  intros c Hset c' seconds.
  assert (seconds <> 0) as Hnz.
  { apply num_or_nonzero. subst c. rewrite defaultTTL_run. apply defaultTTL_constructor. }
  pose proof (set_true_stores key value ttl now c Hset) as Hstored.
  fold c' seconds in Hstored. unfold NodeCache.livetime in Hstored.
  apply Z.eqb_neq in Hnz as Hnz'. rewrite Hnz' in Hstored.
  split; [done|]. split; [by intros [->| ->]|].
  split.
  - intros Hlive. rewrite get_answer, Hstored. simpl.
    unfold NodeCache.expired. simpl.
    assert ((now + seconds * 1000 <? now') = false) as -> by by apply Z.ltb_ge.
    by rewrite andb_false_r.
  - split.
    + intros Hlate Hexp.
      assert (NodeCache.expired now'
                (NodeCache.mkWrapped (CacheEntry.mk value now seconds)
                   (now + seconds * 1000)) = true) as Hexpired.
      { unfold NodeCache.expired. simpl.
        apply Z.eqb_neq in Hexp. rewrite Hexp. simpl. by apply Z.ltb_lt. }
      rewrite get_answer, has_answer, Hstored. simpl. rewrite Hexpired.
      split; [done|]. split; [done|].
      by apply (get_drops_expired key now' c' _ Hstored).
    + intros Hzero. rewrite get_answer, has_answer, Hstored. simpl.
      unfold NodeCache.expired. simpl. rewrite Hzero. done.
Qed.

(** ** Deleting and clearing *)

Lemma delete_lookup key key' (c : NodeDocCache T) :
  NodeCache.data (cache (delete' key c).2) !! key'
  = if decide (key' = key) then None else NodeCache.data (cache c) !! key'.
Proof.
  unfold delete. simpl. unfold NodeCache.del.
  destruct (NodeCache.data (cache c) !! key) as [w|] eqn:Hw; simpl.
  - case_decide as Hk; [subst; apply lookup_delete_eq|by apply lookup_delete_ne].
  - case_decide as Hk; [by subst|done].
Qed.

Lemma delete_held key (c : NodeDocCache T) :
  (delete' key c).1 = Ok (bool_decide (is_Some (NodeCache.data (cache c) !! key))).
Proof.
  unfold delete. simpl. unfold NodeCache.del.
  by destruct (NodeCache.data (cache c) !! key).
Qed.

(** X16.  [delete] answers [true] for a key that a [set] has stored,
    also once its entry has expired and not been read since, and
    [false] for a key deleted before; after it [get] answers [undefined]
    and [has] answers [false] for the key, and every other key reads as
    before. *)
Theorem cache_delete key now (c : NodeDocCache T) :
  (forall value ttl at_time,
      (set' key value ttl at_time c).1 = Ok true ->
      (delete' key (set' key value ttl at_time c).2).1 = Ok true)
  /\ (delete' key (delete' key c).2).1 = Ok false
  /\ (get' key now (delete' key c).2).1 = Ok None
  /\ (has' key now (delete' key c).2).1 = Ok false
  /\ (forall key', key' <> key ->
         (get' key' now (delete' key c).2).1 = (get' key' now c).1).
Proof.
  split; [|split; [|split; [|split]]].
  - intros value ttl at_time Hset.
    by rewrite delete_held, (set_true_stores _ _ _ _ _ Hset).
  - by rewrite delete_held, delete_lookup, decide_True.
  - by rewrite get_answer, delete_lookup, decide_True.
  - by rewrite has_answer, delete_lookup, decide_True.
  - intros key' Hne. by rewrite !get_answer, delete_lookup, decide_False.
Qed.

(** X17.  [clear] empties the cache: after it [get] answers [undefined]
    and [has] answers [false] for every key, and [getStats] reports no
    key, no hit and no miss; the default TTL stays, and on a cache built
    by the constructor the next [set] finds room. *)
Theorem cache_clear options ops key value ttl now :
  let c := cache_run on_full ops (constructor' options) in
  (clear' c).1 = Ok ()
  /\ (get' key now (clear' c).2).1 = Ok None
  /\ (has' key now (clear' c).2).1 = Ok false
  /\ getStats' (clear' c).2 = Ok (mkStats 0 0 0 0 0)
  /\ defaultTTL (clear' c).2 = defaultTTL c
  /\ (set' key value ttl now (clear' c).2).1 = Ok true.
Proof.
  intros c. split; [done|].
  split; [by rewrite get_answer|]. split; [by rewrite has_answer|].
  split; [done|]. split; [done|].
  unfold set, clear. simpl. unfold NodeCache.set, NodeCache.make_room, NodeCache.is_full.
  simpl.
  assert (StoreOptions.maxKeys (NodeCache.options (cache c)) <> 0) as Hmax.
  { subst c. rewrite options_run. simpl. by apply num_or_nonzero. }
  destruct (-1 <? StoreOptions.maxKeys (NodeCache.options (cache c))) eqn:Hlim; [|done].
  assert ((StoreOptions.maxKeys (NodeCache.options (cache c)) <=? 0) = false) as ->; [|done].
  apply Z.ltb_lt in Hlim. apply Z.leb_gt. lia.
Qed.

End CacheRoundTrip.

(** An entry stored for the 60 seconds of the test cache is read back at
    the 60th second and gone a millisecond later; one stored at clock
    reading 5000 for -5 seconds is still read back long after. *)
Lemma cache_set_then_get_witness :
  let c := @DocumentationCache.constructor string _ (nodeCacheStore NodeCache.Refuse string)
             (Some (DocumentationCache.mkOptions (Some 60) None (Some 3))) in
  let c' := (@DocumentationCache.set string _ (nodeCacheStore NodeCache.Refuse string)
               "key1" "value1" None 0 c).2 in
  let c'' := (@DocumentationCache.set string _ (nodeCacheStore NodeCache.Refuse string)
                "key1" "value1" (Some (-5)) 5000 c).2 in
  (@DocumentationCache.get string _ (nodeCacheStore NodeCache.Refuse string)
     "key1" 60000 c').1 = Ok (Some "value1")
  /\ (@DocumentationCache.get string _ (nodeCacheStore NodeCache.Refuse string)
        "key1" 60001 c').1 = Ok None
  /\ (@DocumentationCache.get string _ (nodeCacheStore NodeCache.Refuse string)
        "key1" 86400000 c'').1 = Ok (Some "value1").
Proof.
  intros c c' c''. split; [|split].
  - destruct (@cache_set_then_get string NodeCache.Refuse
                (Some (DocumentationCache.mkOptions (Some 60) None (Some 3))) []
                "key1" "value1" None 0 60000 eq_refl) as (_ & _ & Hlive & _).
    apply Hlive. vm_compute. discriminate.
  - destruct (@cache_set_then_get string NodeCache.Refuse
                (Some (DocumentationCache.mkOptions (Some 60) None (Some 3))) []
                "key1" "value1" None 0 60001 eq_refl) as (_ & _ & _ & Hlate & _).
    apply Hlate; [reflexivity|discriminate].
  - destruct (@cache_set_then_get string NodeCache.Refuse
                (Some (DocumentationCache.mkOptions (Some 60) None (Some 3))) []
                "key1" "value1" (Some (-5)) 5000 86400000 eq_refl) as (_ & _ & _ & _ & Hever).
    apply Hever. reflexivity.
Defined.

(** A key stored and then deleted. *)
Lemma cache_delete_witness :
  let c := @DocumentationCache.constructor string _ (nodeCacheStore NodeCache.Refuse string)
             (Some (DocumentationCache.mkOptions (Some 60) None (Some 3))) in
  (@DocumentationCache.delete string _ (nodeCacheStore NodeCache.Refuse string) "key1"
     (@DocumentationCache.set string _ (nodeCacheStore NodeCache.Refuse string)
        "key1" "value1" None 0 c).2).1 = Ok true.
Proof.
  intros c.
  destruct (@cache_delete string NodeCache.Refuse "key1" 0 c) as [Hstored _].
  apply (Hstored "value1" None 0). reflexivity.
Defined.

(** The cache of the eviction test, cleared. *)
Lemma cache_clear_witness :
  @DocumentationCache.getStats string _ (nodeCacheStore NodeCache.Refuse string)
    (@DocumentationCache.clear string _ (nodeCacheStore NodeCache.Refuse string)
       (cache_run NodeCache.Refuse four_sets
          (@DocumentationCache.constructor string _
             (nodeCacheStore NodeCache.Refuse string)
             (Some (DocumentationCache.mkOptions (Some 60) None (Some 3)))))).2
  = Ok (DocumentationCache.mkStats 0 0 0 0 0).
Proof.
  destruct (@cache_clear string NodeCache.Refuse
              (Some (DocumentationCache.mkOptions (Some 60) None (Some 3))) four_sets
              "key1" "value1" None 0) as (_ & _ & _ & Hstats & _).
  exact Hstats.
Defined.

(** ** The cache: hits and misses *)
Section HitsAndMisses.
Context {T : Type}.
Variable on_full : NodeCache.FullPolicy.
Import DocumentationCache.

Local Abbreviation get' := (@get T _ (nodeCacheStore on_full T)).
Local Abbreviation set' := (@set T _ (nodeCacheStore on_full T)).
Local Abbreviation has' := (@has T _ (nodeCacheStore on_full T)).
Local Abbreviation delete' := (@delete T _ (nodeCacheStore on_full T)).
Local Abbreviation getStats' := (@getStats T _ (nodeCacheStore on_full T)).

(** The hits and the misses that [getStats] reports. *)
Definition hits_misses (c : NodeDocCache T) : Result (Z * Z) :=
  (fun s => (hits s, misses s)) <$> getStats' c.

Lemma hits_misses_stats (c : NodeDocCache T) :
  hits_misses c
  = Ok (StoreStats.hits (NodeCache.stats (cache c)),
        StoreStats.misses (NodeCache.stats (cache c))).
Proof. reflexivity. Qed.

Lemma stats_del key (c : NodeCache.Cache (CacheEntry.t T)) :
  StoreStats.hits (NodeCache.stats (NodeCache.del (fun _ => 240) key c).2)
  = StoreStats.hits (NodeCache.stats c)
  /\ StoreStats.misses (NodeCache.stats (NodeCache.del (fun _ => 240) key c).2)
     = StoreStats.misses (NodeCache.stats c).
Proof. unfold NodeCache.del. by destruct (NodeCache.data c !! key). Qed.

Lemma stats_check key w now (c : NodeCache.Cache (CacheEntry.t T)) :
  StoreStats.hits (NodeCache.stats (NodeCache.check (fun _ => 240) key w now c).2)
  = StoreStats.hits (NodeCache.stats c)
  /\ StoreStats.misses (NodeCache.stats (NodeCache.check (fun _ => 240) key w now c).2)
     = StoreStats.misses (NodeCache.stats c).
Proof.
  unfold NodeCache.check. destruct (NodeCache.expired now w); [apply stats_del|done].
Qed.

(** X18.  Every [get] is counted once: as a hit when it returns a
    value, as a miss when it returns [undefined], an expired entry
    included.  [has], [set] and [delete] count as neither. *)
Theorem get_counts_hit_or_miss key value ttl now (c : NodeDocCache T) :
  (exists h m,
      hits_misses c = Ok (h, m)
      /\ hits_misses (get' key now c).2
         = Ok (match (get' key now c).1 with
               | Ok (Some _) => (h + 1, m)
               | _ => (h, m + 1)
               end))
  /\ hits_misses (has' key now c).2 = hits_misses c
  /\ hits_misses (set' key value ttl now c).2 = hits_misses c
  /\ hits_misses (delete' key c).2 = hits_misses c.
Proof.
  rewrite !hits_misses_stats. split; [|split; [|split]].
  - do 2 eexists. split; [reflexivity|].
    unfold get. simpl. unfold NodeCache.get.
    destruct (NodeCache.data (cache c) !! key) as [w|]; [|done].
    pose proof (stats_check key w now (cache c)) as [Hh Hm].
    destruct (NodeCache.check _ key w now (cache c)) as [[] c1]; simpl in *;
      by rewrite Hh, Hm.
  - unfold has. simpl. unfold NodeCache.has.
    destruct (NodeCache.data (cache c) !! key) as [w|]; [|done].
    pose proof (stats_check key w now (cache c)) as [Hh Hm].
    destruct (NodeCache.check _ key w now (cache c)) as [b c1]; simpl in *.
    by rewrite Hh, Hm.
  - unfold set. simpl. unfold NodeCache.set.
    destruct (NodeCache.make_room on_full _ (cache c)) as [c1|] eqn:Hroom; simpl; [|done].
    assert (StoreStats.hits (NodeCache.stats c1) = StoreStats.hits (NodeCache.stats (cache c))
            /\ StoreStats.misses (NodeCache.stats c1)
               = StoreStats.misses (NodeCache.stats (cache c))) as [Hh Hm].
    { unfold NodeCache.make_room in Hroom.
      destruct (NodeCache.is_full (cache c)); [|by injection Hroom as <-].
      destruct on_full as [|victim]; [done|].
      destruct (victim _) as [k|]; [|done].
      destruct (NodeCache.is_full _); [done|]. injection Hroom as <-. apply stats_del. }
    unfold NodeCache.put. destruct (NodeCache.data c1 !! key); simpl; by rewrite Hh, Hm.
  - unfold delete. simpl.
    pose proof (stats_del key (cache c)) as [Hh Hm].
    destruct (NodeCache.del _ key (cache c)) as [n c1]. simpl in *. by rewrite Hh, Hm.
Qed.

End HitsAndMisses.

(** A look-up in an empty cache: one miss. *)
Lemma get_counts_hit_or_miss_witness :
  hits_misses NodeCache.Refuse
    (@DocumentationCache.get string _ (nodeCacheStore NodeCache.Refuse string) "key1" 0
       (@DocumentationCache.constructor string _
          (nodeCacheStore NodeCache.Refuse string) None)).2
  = Ok (0, 1).
Proof.
  destruct (@get_counts_hit_or_miss string NodeCache.Refuse "key1" "value1" None 0
              (@DocumentationCache.constructor string _
                 (nodeCacheStore NodeCache.Refuse string) None))
    as [(h & m & Hbefore & Hafter) _].
  injection Hbefore as <- <-. exact Hafter.
Defined.

(** * The rest of the request handlers *)

(** The version argument of a call, as the handler reads it. *)
Definition requested (call : Server.ToolCall) : JSValue :=
  match call with
  | Server.get_package_doc _ v | Server.get_function_doc _ _ v
  | Server.get_type_doc _ _ v | Server.get_package_examples _ v => Server.version_arg v
  | _ => JUndefined
  end.

(** The TTL a call passes to [cache.set]. *)
Definition ttl_of (call : Server.ToolCall) : option Z :=
  match call with
  | Server.search_packages _ _ | Server.get_package_versions _ => Some 300
  | _ => None
  end.

(** The message of every error that is neither not-found nor a timeout. *)
Definition generic_message : string := "An error occurred while fetching documentation".

(** ** What a request throws *)
Section HandlerErrors.
Context `{Platform} `{Server.Extractor} {S : Type}
        `{CacheStore S (CacheEntry.t Server.Payload)}.
Variable env : Server.Env.
Import Server Scheme.

Lemma handleError_cases cause :
  (exn_code cause = JString "NOT_FOUND"
   /\ handleError cause = McpError InvalidRequest (exn_message cause))
  \/ (exn_code cause = JString "TIMEOUT"
      /\ handleError cause = McpError InternalError "Request timeout")
  \/ (exn_code cause <> JString "NOT_FOUND" /\ exn_code cause <> JString "TIMEOUT"
      /\ handleError cause = McpError InternalError generic_message).
Proof.
  unfold handleError.
  destruct (JS.strict_eq_string (exn_code cause) "NOT_FOUND") eqn:Hnf.
  { left. split; [by apply strict_eq_string_true|done]. }
  destruct (JS.strict_eq_string (exn_code cause) "TIMEOUT") eqn:Hto.
  { right; left. split; [by apply strict_eq_string_true|done]. }
  right; right. split; [|split; [|done]]; intros Hc; rewrite Hc in *; done.
Qed.

Lemma callTool_throws call (w : World S) e :
  (callTool env (Some call) w).1 = Throw e ->
  exists cause, (dispatch env call w).1 = Throw cause /\ e = handleError cause.
Proof.
  unfold callTool, catch, throw.
  destruct (dispatch env call w) as [[doc|cause] w']; simpl; [done|].
  intros [= <-]. by exists cause.
Qed.

Lemma callTool_rethrows call (w : World S) cause w' :
  dispatch env call w = (Throw cause, w') ->
  callTool env (Some call) w = (Throw (handleError cause), w').
Proof. intros Hd. unfold callTool, catch, throw. by rewrite Hd. Qed.

(** X19.  A request with arguments never fails with anything but an
    [McpError] that [handleError] made: [InvalidRequest] with the message
    of the cause when the cause has the code [NOT_FOUND], [InternalError]
    with a fixed message otherwise, [Request timeout] for the code
    [TIMEOUT].  So the [McpError]s raised inside the handler do not reach
    the client as they are: an unknown tool is not answered with
    [MethodNotFound] but with the generic [InternalError], and so is any
    other [McpError] of the dispatch.  Only a request without arguments
    is answered with its own error, [InvalidParams]. *)
Theorem callTool_error_mapping :
  (forall call (w : World S) e,
      (callTool env (Some call) w).1 = Throw e ->
      exists cause,
        (dispatch env call w).1 = Throw cause
        /\ ((exn_code cause = JString "NOT_FOUND"
             /\ e = McpError InvalidRequest (exn_message cause))
            \/ (exn_code cause = JString "TIMEOUT"
                /\ e = McpError InternalError "Request timeout")
            \/ (exn_code cause <> JString "NOT_FOUND"
                /\ exn_code cause <> JString "TIMEOUT"
                /\ e = McpError InternalError generic_message)))
  /\ (forall name (w : World S),
         callTool env (Some (unknown_tool name)) w
         = (Throw (McpError InternalError generic_message), w))
  /\ (forall call (w : World S) code message,
         (dispatch env call w).1 = Throw (McpError code message) ->
         (callTool env (Some call) w).1 = Throw (McpError InternalError generic_message))
  /\ (forall w : World S,
         callTool env None w = (Throw (McpError InvalidParams "Missing arguments"), w)).
Proof.
  split; [|split; [|split]].
  - intros call w e (cause & Hcause & ->)%callTool_throws. exists cause.
    split; [done|].
    destruct (handleError_cases cause) as [[? ->]|[[? ->]|(? & ? & ->)]]; eauto.
  - done.
  - intros call w code message Hd. unfold callTool, catch, throw.
    destruct (dispatch env call w) as [r w']. simpl in *. by subst r.
  - done.
Qed.

(** ** A request that asks for no [latest] version *)

Lemma resolve_plain p v (w : World S) :
  v <> Some "latest" -> resolve env p (version_arg v) w = (Ok (version_arg v), w).
Proof.
  intros Hv. unfold resolve.
  destruct v as [s|]; simpl; [|done].
  rewrite bool_decide_eq_false_2; [done|congruence].
Qed.

Lemma get_or_fetch_ext key ttl (f g : M S Payload) (w : World S) :
  (forall w', f w' = g w') ->
  get_or_fetch env key ttl f w = get_or_fetch env key ttl g w.
Proof.
  intros Hfg. unfold get_or_fetch. rewrite !bind_run.
  destruct (cache_get env key w) as [[doc|e] w1]; [|done].
  destruct (truthy doc); [done|]. by rewrite !bind_run, Hfg.
Qed.

Lemma asks_latest_none_version call p v :
  asks_latest call = None ->
  call = get_package_doc p v \/ (exists f, call = get_function_doc p f v)
  \/ (exists t, call = get_type_doc p t v) \/ call = get_package_examples p v ->
  v <> Some "latest".
Proof.
  intros Hask [->|[[f ->]|[[t ->]| ->]]] ->; simpl in Hask; done.
Qed.

(** Such a request is a look-up under its key, and on a miss the call of
    the extractor and the store of its answer. *)
Lemma dispatch_plain call key xcall outcome (w : World S) :
  asks_latest call = None ->
  cacheKey_of call (requested call) = Some key ->
  extraction call (requested call) = Some (xcall, outcome) ->
  dispatch env call w = get_or_fetch env key (ttl_of call) (await xcall outcome) w.
Proof.
  intros Hask Hkey Hx.
  destruct call as [p v|p f v|p t v|q l|p v|p|name]; simpl in Hkey, Hx; try done;
    injection Hkey as <-; injection Hx as <- <-; cbn [dispatch requested ttl_of].
  1-3,5: rewrite bind_run, resolve_plain
           by (eapply asks_latest_none_version; [exact Hask|eauto 6]).
  all: apply get_or_fetch_ext; intros w'; apply fmap_await_run.
Qed.

Lemma get_or_fetch_miss_throws key ttl xcall e (w : World S) d0 :
  (DocumentationCache.get key (now_lookup env) (cache w)).1 = Ok d0 ->
  truthy d0 = false ->
  get_or_fetch env key ttl (await xcall (Throw e)) w
  = (Throw e,
     mkWorld (DocumentationCache.get key (now_lookup env) (cache w)).2
       (moduleIndex w) (calls w ++ [CallCacheGet key; xcall])).
Proof.
  intros Hget Hmiss. unfold get_or_fetch. rewrite bind_run. unfold cache_get.
  destruct (DocumentationCache.get key (now_lookup env) (cache w)) as [r c1].
  simpl in *. subst r. rewrite Hmiss. rewrite bind_run. unfold await. simpl.
  by rewrite <- app_assoc.
Qed.

(** ** A [latest] request while the index cannot be read *)

(** X20.  When the version is [latest] and the index client throws, the
    request fails with what [handleError] makes of that error, having
    called nothing else: the cache is not looked up, so a document that
    is cached is not served.  When the index had to be fetched and the
    fetch failed, the client is told the generic [InternalError],
    whatever the failure was. *)
Theorem latest_request_index_down call p (w : World S) :
  asks_latest call = Some p ->
  (forall e st' asked,
      ModuleIndexFetcher.getLatestVersion p (now_resolve env) (index_net env)
        (moduleIndex w) = (Throw e, st', asked) ->
      callTool env (Some call) w
      = (Throw (handleError e),
         mkWorld (cache w) st' (calls w ++ [CallGetLatestVersion p])))
  /\ (forall e,
         ModuleIndexFetcher.fresh (now_resolve env) (moduleIndex w) = false ->
         ModuleIndexFetcher.fetchIndex (index_net env) = Throw e ->
         callTool env (Some call) w
         = (Throw (McpError InternalError generic_message),
            mkWorld (cache w) (moduleIndex w) (calls w ++ [CallGetLatestVersion p]))).
Proof.
  intros Hask.
  assert (forall e st' asked,
             ModuleIndexFetcher.getLatestVersion p (now_resolve env) (index_net env)
               (moduleIndex w) = (Throw e, st', asked) ->
             callTool env (Some call) w
             = (Throw (handleError e),
                mkWorld (cache w) st' (calls w ++ [CallGetLatestVersion p]))) as Hdown.
  { intros e st' asked Hl. apply callTool_rethrows.
    destruct (asks_latest_cases call p Hask) as [ -> | [ [f ->] | [ [t ->] | -> ] ] ];
      cbn [dispatch version_arg]; rewrite bind_run; unfold resolve; simpl;
      rewrite bind_run; unfold moduleIndex_getLatestVersion; by rewrite Hl. }
  split; [exact Hdown|].
  intros e Hstale Hfail.
  pose proof (fetchIndex_throws_plain _ _ Hfail) as Hplain.
  rewrite (Hdown e (moduleIndex w) true).
  - unfold handleError. by rewrite Hplain.
  - unfold ModuleIndexFetcher.getLatestVersion, ModuleIndexFetcher.getPackageVersions.
    rewrite getIndex_stale by done. by rewrite Hfail.
Qed.

End HandlerErrors.

(** A tool that does not exist, as the client hears of it. *)
Lemma callTool_error_mapping_witness :
  @Server.callTool Sample.platform sampleExtractor _
    (nodeCacheStore NodeCache.Refuse Server.Payload) sampleEnv
    (Some (Server.unknown_tool "get_constant_doc")) startWorld
  = (Throw (Server.McpError Server.InternalError generic_message), startWorld).
Proof.
  destruct (@callTool_error_mapping Sample.platform sampleExtractor _
              (nodeCacheStore NodeCache.Refuse Server.Payload) sampleEnv)
    as (_ & Hunknown & _).
  apply Hunknown.
Defined.

(** A [latest] request on a server that has just started, with the index
    endpoint unreachable. *)
Lemma latest_request_index_down_witness :
  @Server.callTool Sample.platform sampleExtractor _
    (nodeCacheStore NodeCache.Refuse Server.Payload)
    (Server.mkEnv 0 (Http.Rejects (Error "offline")) 1 2)
    (Some (Server.get_package_doc "fmt" (Some "latest"))) startWorld
  = (Throw (Server.McpError Server.InternalError generic_message),
     Server.mkWorld (Server.cache startWorld) ModuleIndexFetcher.initial
       [Server.CallGetLatestVersion "fmt"]).
Proof.
  destruct (@latest_request_index_down Sample.platform sampleExtractor _
              (nodeCacheStore NodeCache.Refuse Server.Payload)
              (Server.mkEnv 0 (Http.Rejects (Error "offline")) 1 2)
              (Server.get_package_doc "fmt" (Some "latest")) "fmt" startWorld eq_refl)
    as [_ Hdown].
  apply (Hdown (Error "Failed to fetch module index: offline")); reflexivity.
Defined.

(** ** A request that asks for no [latest] version, in full *)
Section PlainRequest.
Context `{Platform} `{Server.Extractor} {S : Type}
        `{CacheStore S (CacheEntry.t Server.Payload)}.
Variable env : Server.Env.
Import Server Scheme.

(** X21.  A request for a document or a search, its version not
    [latest], looks the cache up once under its key and never asks the
    index.  On a hit it returns the cached value and calls nothing else.
    On a miss it calls the extractor once: a result is handed to
    [cache.set] under the same key and returned; an error goes to the
    client through [handleError] and [cache.set] is not called, the cache
    staying as the look-up left it. *)
Theorem plain_request_outcomes call key xcall outcome (w : World S) :
  asks_latest call = None ->
  cacheKey_of call (requested call) = Some key ->
  extraction call (requested call) = Some (xcall, outcome) ->
  (forall doc,
      (DocumentationCache.get key (now_lookup env) (cache w)).1 = Ok (Some doc) ->
      doc <> NullP ->
      callTool env (Some call) w
      = (Ok doc,
         mkWorld (DocumentationCache.get key (now_lookup env) (cache w)).2
           (moduleIndex w) (calls w ++ [CallCacheGet key])))
  /\ (forall d0 doc,
         (DocumentationCache.get key (now_lookup env) (cache w)).1 = Ok d0 ->
         truthy d0 = false ->
         outcome = Ok doc ->
         callTool env (Some call) w
         = (Ok doc,
            mkWorld
              (DocumentationCache.set key doc (ttl_of call) (now_store env)
                 (DocumentationCache.get key (now_lookup env) (cache w)).2).2
              (moduleIndex w)
              (calls w ++ [CallCacheGet key; xcall; CallCacheSet key doc (ttl_of call)])))
  /\ (forall d0 e,
         (DocumentationCache.get key (now_lookup env) (cache w)).1 = Ok d0 ->
         truthy d0 = false ->
         outcome = Throw e ->
         callTool env (Some call) w
         = (Throw (handleError e),
            mkWorld (DocumentationCache.get key (now_lookup env) (cache w)).2
              (moduleIndex w) (calls w ++ [CallCacheGet key; xcall]))).
Proof.
  intros Hask Hkey Hx. split; [|split].
  - intros doc Hget Hdoc. apply callTool_returns.
    rewrite (dispatch_plain env _ _ _ _ _ Hask Hkey Hx). by apply get_or_fetch_hit.
  - intros d0 doc Hget Hmiss ->. apply callTool_returns.
    rewrite (dispatch_plain env _ _ _ _ _ Hask Hkey Hx).
    unfold get_or_fetch. rewrite bind_run. unfold cache_get.
    destruct (DocumentationCache.get key (now_lookup env) (cache w)) as [r c1].
    simpl in *. subst r. rewrite Hmiss.
    rewrite bind_run. unfold await. simpl. rewrite bind_run. unfold cache_set. simpl.
    destruct (set_returns key doc (ttl_of call) (now_store env) c1) as [b Hb].
    destruct (DocumentationCache.set key doc (ttl_of call) (now_store env) c1) as [r c3].
    simpl in *. subst r. simpl. by rewrite <- !app_assoc.
  - intros d0 e Hget Hmiss ->. apply callTool_rethrows.
    rewrite (dispatch_plain env _ _ _ _ _ Hask Hkey Hx).
    by eapply get_or_fetch_miss_throws.
Qed.

End PlainRequest.

(** The type lookup of the sample extractor fails: nothing is stored. *)
Lemma plain_request_outcomes_witness :
  @Server.callTool Sample.platform sampleExtractor _
    (nodeCacheStore NodeCache.Refuse Server.Payload) sampleEnv
    (Some (Server.get_type_doc "fmt" "Stringer" None)) startWorld
  = (Throw (Server.McpError Server.InvalidRequest "Type Stringer not found in fmt"),
     Server.mkWorld
       (@DocumentationCache.get Server.Payload _
          (nodeCacheStore NodeCache.Refuse Server.Payload)
          "type:fmt:Stringer" 1 (Server.cache startWorld)).2
       ModuleIndexFetcher.initial
       [Server.CallCacheGet "type:fmt:Stringer";
        Server.CallGetTypeDoc "fmt" "Stringer" JUndefined]).
Proof.
  destruct (@plain_request_outcomes Sample.platform sampleExtractor _
              (nodeCacheStore NodeCache.Refuse Server.Payload) sampleEnv
              (Server.get_type_doc "fmt" "Stringer" None) "type:fmt:Stringer"
              (Server.CallGetTypeDoc "fmt" "Stringer" JUndefined)
              (Throw (GoDocError "Type Stringer not found in fmt" "NOT_FOUND")) startWorld)
    as (_ & _ & Hthrows); [reflexivity..|].
  apply (Hthrows None (GoDocError "Type Stringer not found in fmt" "NOT_FOUND"));
    reflexivity.
Defined.

(** ** The same request again *)
Section RepeatedRequest.
Context `{Platform}.
Variables first second : Server.Extractor.
Variable on_full : NodeCache.FullPolicy.
Variables env env' : Server.Env.
Import Server Scheme.

Local Abbreviation store := (nodeCacheStore on_full Payload).
Local Abbreviation NodeWorld := (World (NodeCache.Cache (CacheEntry.t Payload))).

Lemma extraction_not_null call version xcall doc :
  @extraction first call version = Some (xcall, Ok doc) -> doc <> NullP.
Proof.
  destruct call as [p v|p f v|p t v|q l|p v|p|name]; simpl; try done; intros [= _ Hdoc].
  - destruct (@getPackageDoc first p version) as [d|e]; simpl in Hdoc; [by injection Hdoc as <-|done].
  - destruct (@getFunctionDoc first p f version) as [d|e]; simpl in Hdoc; [by injection Hdoc as <-|done].
  - destruct (@getTypeDoc first p t version) as [d|e]; simpl in Hdoc; [by injection Hdoc as <-|done].
  - destruct (@searchPackages first q (limit_arg l)) as [d|e]; simpl in Hdoc; [by injection Hdoc as <-|done].
  - destruct (@getPackageExamples first p version) as [d|e]; simpl in Hdoc; [by injection Hdoc as <-|done].
Qed.

Lemma extraction_call call version xcall outcome :
  @extraction first call version = Some (xcall, outcome) ->
  exists outcome', @extraction second call version = Some (xcall, outcome').
Proof.
  destruct call as [p v|p f v|p t v|q l|p v|p|name]; simpl; try done;
    intros [= <- _]; eauto.
Qed.

Lemma get_or_fetch_miss_ok key ttl xcall doc (w : NodeWorld) d0 :
  (@DocumentationCache.get _ _ store key (now_lookup env) (cache w)).1 = Ok d0 ->
  truthy d0 = false ->
  @get_or_fetch _ store env key ttl (await xcall (Ok doc)) w
  = (Ok doc,
     mkWorld
       (@DocumentationCache.set _ _ store key doc ttl (now_store env)
          (@DocumentationCache.get _ _ store key (now_lookup env) (cache w)).2).2
       (moduleIndex w)
       (calls w ++ [CallCacheGet key; xcall; CallCacheSet key doc ttl])).
Proof.
  intros Hget Hmiss. unfold get_or_fetch. rewrite bind_run. unfold cache_get.
  destruct (@DocumentationCache.get _ _ store key (now_lookup env) (cache w)) as [r c1].
  simpl in *. subst r. rewrite Hmiss.
  rewrite bind_run. unfold await. simpl. rewrite bind_run. unfold cache_set. simpl.
  destruct (@set_returns _ _ store key doc ttl (now_store env) c1) as [b Hb].
  destruct (@DocumentationCache.set _ _ store key doc ttl (now_store env) c1) as [r c3].
  simpl in *. subst r. simpl. by rewrite <- !app_assoc.
Qed.

(** X22.  A request that asks for no [latest] version, misses the cache,
    gets a document from the extractor and has it accepted by the store,
    returns the document; the same request made again, no later than the
    TTL after the store, returns the same document from the cache and
    calls no extractor, whatever the extractor would answer by then.  The
    TTL is 300 seconds for a search and the default of the cache for a
    document. *)
Theorem repeated_request_served_from_cache call key xcall doc (w : NodeWorld) d0 :
  asks_latest call = None ->
  cacheKey_of call (requested call) = Some key ->
  @extraction first call (requested call) = Some (xcall, Ok doc) ->
  DocumentationCache.defaultTTL (cache w) <> 0 ->
  (@DocumentationCache.get _ _ store key (now_lookup env) (cache w)).1 = Ok d0 ->
  truthy d0 = false ->
  (@DocumentationCache.set _ _ store key doc (ttl_of call) (now_store env)
     (@DocumentationCache.get _ _ store key (now_lookup env) (cache w)).2).1 = Ok true ->
  now_lookup env'
  <= now_store env
     + JS.num_or (ttl_of call) (DocumentationCache.defaultTTL (cache w)) * 1000 ->
  let once := @callTool _ first _ store env (Some call) w in
  once.1 = Ok doc
  /\ calls once.2
     = calls w ++ [CallCacheGet key; xcall; CallCacheSet key doc (ttl_of call)]
  /\ @callTool _ second _ store env' (Some call) once.2
     = (Ok doc,
        mkWorld
          (@DocumentationCache.get _ _ store key (now_lookup env') (cache once.2)).2
          (moduleIndex once.2) (calls once.2 ++ [CallCacheGet key])).
Proof.
  intros Hask Hkey Hx Hdefault Hget Hmiss Hset Hlive once.
  set (w1 := mkWorld
               (@DocumentationCache.set _ _ store key doc (ttl_of call) (now_store env)
                  (@DocumentationCache.get _ _ store key (now_lookup env) (cache w)).2).2
               (moduleIndex w)
               (calls w ++ [CallCacheGet key; xcall; CallCacheSet key doc (ttl_of call)])).
  assert (once = (Ok doc, w1)) as ->.
  { subst once. apply callTool_returns.
    rewrite (@dispatch_plain _ first _ store env _ _ _ _ w Hask Hkey Hx).
    by eapply get_or_fetch_miss_ok. }
  cbn [fst snd]. split; [done|]. split; [done|].
  destruct (extraction_call _ _ _ _ Hx) as [outcome' Hx'].
  apply callTool_returns.
  rewrite (@dispatch_plain _ second _ store env' _ _ _ _ w1 Hask Hkey Hx').
  apply (get_or_fetch_hit (H1:=store) env' key (ttl_of call)
           (await xcall outcome') w1 doc); [|by eapply extraction_not_null].
  subst w1. cbn [cache]. rewrite get_answer.
  rewrite (set_true_stores on_full key doc (ttl_of call) (now_store env) _ Hset).
  assert (DocumentationCache.defaultTTL
            (@DocumentationCache.get _ _ store key (now_lookup env) (cache w)).2
          = DocumentationCache.defaultTTL (cache w)) as Hsame.
  { unfold DocumentationCache.get. by destruct (store_get _ _ _). }
  rewrite Hsame. unfold NodeCache.livetime.
  pose proof (num_or_nonzero (ttl_of call) _ Hdefault) as Hnz.
  apply Z.eqb_neq in Hnz. rewrite Hnz. simpl. unfold NodeCache.expired. simpl.
  assert ((now_store env
           + JS.num_or (ttl_of call) (DocumentationCache.defaultTTL (cache w)) * 1000
           <? now_lookup env') = false) as -> by by apply Z.ltb_ge.
  by rewrite andb_false_r.
Qed.

End RepeatedRequest.

(** An extractor that cannot reach pkg.go.dev. *)
Definition offlineExtractor : Server.Extractor := {|
  Server.getPackageDoc _ _ := Throw (GoDocError "Network error: offline" "NETWORK_ERROR");
  Server.getFunctionDoc _ _ _ := Throw (GoDocError "Network error: offline" "NETWORK_ERROR");
  Server.getTypeDoc _ _ _ := Throw (GoDocError "Network error: offline" "NETWORK_ERROR");
  Server.searchPackages _ _ := Throw (GoDocError "Network error: offline" "NETWORK_ERROR");
  Server.getPackageExamples _ _ := Throw (GoDocError "Network error: offline" "NETWORK_ERROR");
|}.

Definition fmtDoc : PackageDoc.t :=
  PackageDoc.mk "fmt" "fmt" None "No description available" None None None None.

(** The package document fetched once is served again an hour later, to
    the millisecond, with pkg.go.dev out of reach. *)
Lemma repeated_request_served_from_cache_witness :
  let once :=
    @Server.callTool Sample.platform sampleExtractor _
      (nodeCacheStore NodeCache.Refuse Server.Payload) sampleEnv
      (Some (Server.get_package_doc "fmt" None)) startWorld in
  once.1 = Ok (Server.PackageDocP fmtDoc)
  /\ Server.calls once.2
     = Server.calls startWorld
       ++ [Server.CallCacheGet "package:fmt"; Server.CallGetPackageDoc "fmt" JUndefined;
           Server.CallCacheSet "package:fmt" (Server.PackageDocP fmtDoc) None]
  /\ @Server.callTool Sample.platform offlineExtractor _
       (nodeCacheStore NodeCache.Refuse Server.Payload)
       (Server.mkEnv 3600000 (Http.Rejects (Error "offline")) 3600002 3600003)
       (Some (Server.get_package_doc "fmt" None)) once.2
     = (Ok (Server.PackageDocP fmtDoc),
        Server.mkWorld
          (@DocumentationCache.get Server.Payload _
             (nodeCacheStore NodeCache.Refuse Server.Payload)
             "package:fmt" 3600002 (Server.cache once.2)).2
          (Server.moduleIndex once.2)
          (Server.calls once.2 ++ [Server.CallCacheGet "package:fmt"])).
Proof.
  apply (@repeated_request_served_from_cache Sample.platform sampleExtractor
           offlineExtractor NodeCache.Refuse sampleEnv
           (Server.mkEnv 3600000 (Http.Rejects (Error "offline")) 3600002 3600003)
           (Server.get_package_doc "fmt" None) "package:fmt"
           (Server.CallGetPackageDoc "fmt" JUndefined) (Server.PackageDocP fmtDoc)
           startWorld None).
  - reflexivity.
  - reflexivity.
  - reflexivity.
  - discriminate.
  - reflexivity.
  - reflexivity.
  - vm_compute. reflexivity.
  - vm_compute. discriminate.
Defined.

(** ** A package without versions *)
Section NoVersions.
Context `{Platform} `{Server.Extractor} {S : Type}
        `{CacheStore S (CacheEntry.t Server.Payload)}.
Variable env : Server.Env.
Import Server Scheme.

(** X23.  A versions request for a path that has no rows in the index,
    when the cache holds nothing or the [null] of an earlier request
    under its key, asks the index client, hands the [null] answer to
    [cache.set] for 300 seconds and then fails; the client is told the
    generic [InternalError].  The stored [null] reads as a miss: the next
    request does all of it again. *)
Theorem versions_request_null_refetched p (w : World S) d0 st' asked :
  (DocumentationCache.get (versions_cacheKey p) (now_lookup env) (cache w)).1 = Ok d0 ->
  d0 = None \/ d0 = Some NullP ->
  ModuleIndexFetcher.getPackageVersions p (now_resolve env) (index_net env)
    (moduleIndex w) = (Ok None, st', asked) ->
  callTool env (Some (get_package_versions p)) w
  = (Throw (McpError InternalError generic_message),
     mkWorld
       (DocumentationCache.set (versions_cacheKey p) NullP (Some 300) (now_store env)
          (DocumentationCache.get (versions_cacheKey p) (now_lookup env) (cache w)).2).2
       st'
       (calls w ++ [CallCacheGet (versions_cacheKey p); CallGetPackageVersions p;
                    CallCacheSet (versions_cacheKey p) NullP (Some 300)])).
Proof.
  intros Hget Hd0 Hpv.
  assert (truthy d0 = false) as Hmiss by by destruct Hd0 as [->| ->].
  unfold callTool, catch, throw. cbn [dispatch]. rewrite bind_run.
  unfold get_or_fetch. rewrite bind_run. unfold cache_get.
  destruct (DocumentationCache.get (versions_cacheKey p) (now_lookup env) (cache w))
    as [r c1].
  simpl in *. subst r. rewrite Hmiss.
  rewrite bind_run. unfold fmap, M_fmap, moduleIndex_getPackageVersions. simpl.
  rewrite Hpv. simpl. rewrite bind_run. unfold cache_set. simpl.
  destruct (set_returns (versions_cacheKey p) NullP (Some 300) (now_store env) c1)
    as [b Hb].
  destruct (DocumentationCache.set (versions_cacheKey p) NullP (Some 300)
              (now_store env) c1) as [r c3].
  simpl in *. subst r. simpl. by rewrite <- !app_assoc.
Qed.

End NoVersions.

(** The request of the test suite made a second time, a millisecond
    after the first stored its [null]: the index is asked again. *)
Lemma versions_request_null_refetched_witness :
  let first :=
    @Server.callTool Sample.platform sampleExtractor _
      (nodeCacheStore NodeCache.Refuse Server.Payload)
      sampleEnv (Some (Server.get_package_versions "no/such/package")) startWorld in
  let second :=
    @Server.callTool Sample.platform sampleExtractor _
      (nodeCacheStore NodeCache.Refuse Server.Payload)
      (Server.mkEnv 3 (Sample.response ginIndex) 3 4)
      (Some (Server.get_package_versions "no/such/package"))
      (Server.mkWorld (Server.cache first.2) (Server.moduleIndex first.2) []) in
  second.1 = Throw (Server.McpError Server.InternalError generic_message)
  /\ Server.calls second.2
     = [Server.CallCacheGet "versions:no/such/package";
        Server.CallGetPackageVersions "no/such/package";
        Server.CallCacheSet "versions:no/such/package" Server.NullP (Some 300)].
Proof.
  intros first second. subst second.
  rewrite (@versions_request_null_refetched Sample.platform sampleExtractor _
             (nodeCacheStore NodeCache.Refuse Server.Payload)
             (Server.mkEnv 3 (Sample.response ginIndex) 3 4)
             "no/such/package"
             (Server.mkWorld (Server.cache first.2) (Server.moduleIndex first.2) [])
             (Some Server.NullP) (ModuleIndexFetcher.mkState (Some ginRows) 0) false).
  - split; reflexivity.
  - vm_compute. reflexivity.
  - by right.
  - vm_compute. reflexivity.
Defined.

(** ** Cache keys and the pages behind them *)
Section KeysAndPages.
Import Server Scheme GoDocFetcher.

(** The kind a tool puts in front of its keys. *)
Definition tool_kind (call : ToolCall) : string :=
  match call with
  | get_package_doc _ _ => "package"
  | get_function_doc _ _ _ => "function"
  | get_type_doc _ _ _ => "type"
  | search_packages _ _ => "search"
  | get_package_examples _ _ => "examples"
  | get_package_versions _ => "versions"
  | unknown_tool _ => EmptyString
  end.

Lemma cacheKey_of_kind call version key :
  cacheKey_of call version = Some key ->
  exists rest, key = tool_kind call +:+ ":" +:+ rest.
Proof.
  destruct call as [p v|p f v|p t v|q l|p v|p|name]; simpl; try done; intros [= <-];
    unfold package_cacheKey, symbol_cacheKey, search_cacheKey, versions_cacheKey;
    try destruct (JS.truthy version); eauto.
Qed.

(** X24.  The keys of different tools never coincide: what one tool put
    in the cache is never read by another. *)
Theorem cache_keys_separate_tools call call' version version' key :
  cacheKey_of call version = Some key ->
  cacheKey_of call' version' = Some key ->
  tool_kind call = tool_kind call'.
Proof.
  intros (rest & ->)%cacheKey_of_kind (rest' & Heq)%cacheKey_of_kind.
  destruct call, call'; try reflexivity; cbv [String.append tool_kind] in Heq;
    discriminate Heq.
Qed.

Lemma append_inv_head s a b : s +:+ a = s +:+ b -> a = b.
Proof.
  induction s as [|c s IH]; [done|]. rewrite !append_cons. intros [= Heq]. by apply IH.
Qed.

Lemma append_assoc' a b c : (a +:+ b) +:+ c = a +:+ b +:+ c.
Proof. induction a as [|x a IH]; [done|]. rewrite !append_cons. by rewrite IH. Qed.

Lemma append_length a b : String.length (a +:+ b) = (String.length a + String.length b)%nat.
Proof. induction a as [|x a IH]; [done|]. rewrite append_cons. simpl. by rewrite IH. Qed.

Lemma append_inv_tail t a b : a +:+ t = b +:+ t -> a = b.
Proof.
  revert b. induction a as [|x a IH]; intros [|y b]; rewrite ?append_cons, ?append_nil.
  - done.
  - intros Heq. apply (f_equal String.length) in Heq.
    simpl in Heq. rewrite append_length in Heq. lia.
  - intros Heq. apply (f_equal String.length) in Heq.
    simpl in Heq. rewrite append_length in Heq. lia.
  - intros [= -> Heq]. by rewrite (IH b).
Qed.

(** What follows the host in the URL of a package page, and the kind in
    its cache key. *)
Definition page_of (packagePath : string) (version : JSValue) : string :=
  if JS.truthy version then packagePath +:+ "@" +:+ JS.toString version else packagePath.

Lemma packageUrl_page packagePath version :
  packageUrl packagePath version = baseUrl +:+ "/" +:+ page_of packagePath version.
Proof. unfold packageUrl, page_of. by destruct (JS.truthy version). Qed.

Lemma package_cacheKey_page kind packagePath version :
  package_cacheKey kind packagePath version = kind +:+ ":" +:+ page_of packagePath version.
Proof. unfold package_cacheKey, page_of. by destruct (JS.truthy version). Qed.

Lemma symbol_cacheKey_page kind packagePath version symbol :
  symbol_cacheKey kind packagePath version symbol
  = kind +:+ ":" +:+ page_of packagePath version +:+ ":" +:+ symbol.
Proof.
  unfold symbol_cacheKey, page_of. destruct (JS.truthy version); [|done].
  by rewrite !append_assoc'.
Qed.

(** X25.  The cache key of a package or examples request determines the
    page that the extractor fetches: two such requests with the same key
    read the same URL.  So do two requests for the same function or type
    name that have the same key. *)
Theorem cache_key_determines_page kind p v p' v' :
  (package_cacheKey kind p v = package_cacheKey kind p' v' ->
   packageUrl p v = packageUrl p' v')
  /\ (forall symbol,
         symbol_cacheKey kind p v symbol = symbol_cacheKey kind p' v' symbol ->
         packageUrl p v = packageUrl p' v').
Proof.
  rewrite !packageUrl_page. split.
  - rewrite !package_cacheKey_page. intros Heq.
    do 2 apply append_inv_head in Heq. by rewrite Heq.
  - intros symbol. rewrite !symbol_cacheKey_page. intros Heq.
    do 2 apply append_inv_head in Heq. apply append_inv_tail in Heq. by rewrite Heq.
Qed.

End KeysAndPages.

(** The one key that the package [fmt] at version [v1] and a package
    named [fmt@v1] share, and the one page behind it. *)
Lemma cache_keys_separate_tools_witness :
  tool_kind (Server.get_package_doc "fmt" (Some "v1"))
  = tool_kind (Server.get_package_doc "fmt@v1" None).
Proof.
  apply (cache_keys_separate_tools (Server.get_package_doc "fmt" (Some "v1"))
           (Server.get_package_doc "fmt@v1" None) (JString "v1") JUndefined
           "package:fmt@v1"); reflexivity.
Defined.

Lemma cache_key_determines_page_witness :
  GoDocFetcher.packageUrl "fmt" (JString "v1") = GoDocFetcher.packageUrl "fmt@v1" JUndefined.
Proof.
  destruct (cache_key_determines_page "package" "fmt" (JString "v1") "fmt@v1" JUndefined)
    as [Hpage _].
  apply Hpage. reflexivity.
Defined.

(** ** What the client is told of a failed fetch *)
Section ReportedFailures.
Import Server GoDocFetcher.

(** What the handler makes of the error a call throws. *)
Definition reported {A} (r : Result A) : option Exn :=
  match r with
  | Throw e => Some (handleError e)
  | Ok _ => None
  end.

(** X26.  What the client is told when the page cannot be fetched: for a
    404 answer, [InvalidRequest] with [Package not found] and the URL;
    for an aborted fetch, [InternalError] with [Request timeout]; for any
    other answer that is not ok, a rate limit or a server error say, and
    for a fetch rejected without a code, [InternalError] with the generic
    message, the status or the cause left out. *)
Theorem fetch_failure_reported url :
  (forall resp,
      Http.ok resp = false ->
      reported (fetchHTML url (Http.Resolves resp))
      = Some (if Http.status resp =? 404
              then McpError InvalidRequest ("Package not found: " +:+ url)
              else McpError InternalError generic_message))
  /\ (forall e0,
         exn_name e0 = "AbortError" ->
         reported (fetchHTML url (Http.Rejects e0))
         = Some (McpError InternalError "Request timeout"))
  /\ (forall e0,
         exn_name e0 <> "AbortError" -> ~ coded e0 ->
         reported (fetchHTML url (Http.Rejects e0))
         = Some (McpError InternalError generic_message)).
Proof.
  split; [|split].
  - intros resp Hok. rewrite fetchHTML_not_ok by done.
    by destruct (Http.status resp =? 404).
  - intros e0 Hn. by rewrite fetchHTML_aborted.
  - intros e0 Hn Hc. unfold fetchHTML. simpl. rewrite decide_False by done.
    unfold coded in Hc. by destruct (JS.truthy (exn_code e0)).
Qed.

End ReportedFailures.

(** A rate limit, as the client hears of it. *)
Lemma fetch_failure_reported_witness :
  reported (GoDocFetcher.fetchHTML "https://pkg.go.dev/fmt"
              (Http.Resolves (Http.mkResponse false 429 "Too Many Requests"
                                (Ok EmptyString))))
  = Some (Server.McpError Server.InternalError generic_message).
Proof.
  destruct (fetch_failure_reported "https://pkg.go.dev/fmt") as [Hhttp _].
  apply (Hhttp (Http.mkResponse false 429 "Too Many Requests" (Ok EmptyString))).
  reflexivity.
Defined.
